(** * faq_server: the RAG index (rag_handler) and its HTTP handlers

    A shallow embedding of the vector store, the corpus hasher, the
    reconciler ([initializeRAG]) and the search entry point
    ([searchSimilarQuestions]) of the question/answer server, together with the
    properties the design document states about them, and of the handlers of
    index.js that read, write and search the questions.

    Conventions of the embedding.
    - A JavaScript number that holds a vector component or a score is a
      binary64 floating-point number ([float]), with the operations of
      IEEE 754: rounding, signed zeros, infinities and NaN are those of the
      program.
    - A JavaScript number that holds an index or a count is a [nat].
    - A JavaScript string is a [string]: a sequence of 8-bit code units.
    - A property that may be [undefined] is an [option].
    - [async] functions are run to completion; a rejected promise is the
      [Throw] outcome.
    - Reading a file can fail (the file is missing, or its text does not
      parse), and so can writing one: the disk tells, for each file, whether
      [fs.writeFile] resolves or with which error it rejects; a write that
      is rejected leaves the file as it was.
    - What is written to a JSON file is described by what [JSON.parse] yields
      for the text written: the value passed through [JSON.stringify] and
      [JSON.parse].
    - [Array.prototype.sort] is a stable sort, as ECMAScript 2019 requires;
      its result is specified when the comparison function is consistent on
      the elements of the array. *)

From Stdlib Require Import Floats.
From Stdlib Require Import List String Ascii Bool Arith ZArith Lia.
From Stdlib Require Import Reals Lra Permutation Sorted DecimalString DecimalNat.
Import ListNotations.

Local Open Scope string_scope.
Local Open Scope list_scope.

(* ================================================================== *)
(** * Small JavaScript helpers *)
(* ================================================================== *)

(** [x || d] for a string-valued property: [undefined] and [''] are falsy. *)
Definition or_empty (x : option string) : string :=
  match x with
  | Some s => s
  | None => ""
  end.

(** [x || []] for an array-valued property. *)
Definition or_nil {A : Type} (x : option (list A)) : list A :=
  match x with
  | Some l => l
  | None => []
  end.

(** The character class [\d]. *)
Definition is_digit (c : ascii) : bool :=
  Nat.leb 48 (nat_of_ascii c) && Nat.leb (nat_of_ascii c) 57.

Definition digit_value (c : ascii) : nat := nat_of_ascii c - 48.

(** [parseInt] on a string of decimal digits. *)
Definition parseInt (ds : string) : nat :=
  fold_left (fun acc c => 10 * acc + digit_value c) (list_ascii_of_string ds) 0.

(** [s.startsWith(p)], returning what follows the prefix. *)
Fixpoint strip_prefix (p s : string) : option string :=
  match p with
  | EmptyString => Some s
  | String a p' =>
      match s with
      | EmptyString => None
      | String b s' => if Ascii.eqb a b then strip_prefix p' s' else None
      end
  end.

(** The longest run of digits at the head of [s], and what follows it. *)
Fixpoint take_digits (s : string) : string * string :=
  match s with
  | EmptyString => (EmptyString, EmptyString)
  | String c s' =>
      if is_digit c
      then let (ds, rest) := take_digits s' in (String c ds, rest)
      else (EmptyString, s)
  end.

(** The regular expression [/\[INDEX:(\d+)\]/] anchored at the head of [s];
    the result is the capture group. *)
Definition match_INDEX_here (s : string) : option string :=
  match strip_prefix "[INDEX:" s with
  | Some rest =>
      match take_digits rest with
      | (String d ds, String "]" _) => Some (String d ds)
      | _ => None
      end
  | None => None
  end.

(** [s.match(/\[INDEX:(\d+)\]/)]: the leftmost match; the result is the
    capture group [indexMatch[1]]. *)
Fixpoint match_INDEX (s : string) : option string :=
  match match_INDEX_here s with
  | Some ds => Some ds
  | None =>
      match s with
      | EmptyString => None
      | String _ s' => match_INDEX s'
      end
  end.

(** [s.includes(t)]. *)
Fixpoint includes (s t : string) : bool :=
  match strip_prefix t s with
  | Some _ => true
  | None =>
      match s with
      | EmptyString => false
      | String _ s' => includes s' t
      end
  end.

Definition option_nat_eqb (a b : option nat) : bool :=
  match a, b with
  | Some x, Some y => Nat.eqb x y
  | None, None => true
  | _, _ => false
  end.

(* ================================================================== *)
(** * SimpleMemoryVectorDatabase *)
(* ================================================================== *)

(** The [metadata] object of a stored item; the store reads its [index] and
    its [id]. *)
Record Metadata := mkMetadata {
  md_index : option nat;
  md_id : option string
}.

(** One element of [this.vectors]. *)
Record Chunk := mkChunk {
  pageContent : option string;
  vector : list float;
  metadata : option Metadata
}.

Record SimpleMemoryVectorDatabase := mkDB {
  vectors : list Chunk;
  dimensions : option nat
}.

(** [constructor()] *)
Definition new_database : SimpleMemoryVectorDatabase :=
  {| vectors := []; dimensions := None |}.

(** [init({ dimensions })]: only the dimensions are updated. *)
Definition init (db : SimpleMemoryVectorDatabase) (dims : nat)
  : SimpleMemoryVectorDatabase :=
  let existingVectors := List.length (vectors db) in
  {| vectors := if Nat.eqb existingVectors 0 then [] else vectors db;
     dimensions := Some dims |}.

(** [insertChunks(chunks)] *)
Definition insertChunks (db : SimpleMemoryVectorDatabase) (chunks : list Chunk)
  : SimpleMemoryVectorDatabase * nat :=
  ({| vectors := vectors db ++ chunks; dimensions := dimensions db |},
   List.length chunks).

(** [hasVectors()] *)
Definition hasVectors (db : SimpleMemoryVectorDatabase) : bool :=
  negb (Nat.eqb (List.length (vectors db)) 0).

(** The callback handed to [filter] by [deleteVectorsByIndex]: [true] keeps
    the item. *)
Definition delete_keeps (index : nat) (v : Chunk) : bool :=
  let pageContent := or_empty (pageContent v) in
  match match_INDEX pageContent with
  | Some ds =>
      let vectorIndex := parseInt ds in
      negb (Nat.eqb vectorIndex index)
  | None =>
      match metadata v with
      | Some md =>
          match md_index md with
          | Some mi => negb (Nat.eqb mi index)
          | None => true
          end
      | None => true
      end
  end.

(** [deleteVectorsByIndex(index)]: the new store and the returned count. *)
Definition deleteVectorsByIndex (db : SimpleMemoryVectorDatabase) (index : nat)
  : SimpleMemoryVectorDatabase * nat :=
  let beforeLength := List.length (vectors db) in
  let kept := filter (delete_keeps index) (vectors db) in
  ({| vectors := kept; dimensions := dimensions db |},
   beforeLength - List.length kept).

(** [getVectorCountByIndex(index)] *)
Definition getVectorCountByIndex (db : SimpleMemoryVectorDatabase) (index : nat)
  : nat :=
  List.length (filter (fun v =>
    let pageContent := or_empty (pageContent v) in
    match match_INDEX pageContent with
    | Some ds => Nat.eqb (parseInt ds) index
    | None =>
        match metadata v with
        | Some md =>
            match md_index md with
            | Some mi => Nat.eqb mi index
            | None => false
            end
        | None => false
        end
    end) (vectors db)).

(** The payload index of a chunk as the design document defines it: the
    number in the [[INDEX:n]] tag of the chunk text when the text has one,
    otherwise the [index] of the metadata object, otherwise none. *)
Definition payloadIndex (v : Chunk) : option nat :=
  match match_INDEX (or_empty (pageContent v)) with
  | Some ds => Some (parseInt ds)
  | None =>
      match metadata v with
      | Some md => md_index md
      | None => None
      end
  end.

(** *** The payload index in the words of the design document *)

(** The ten decimal digits, and the number each stands for. *)
Definition decimal_digits : list ascii :=
  ["0"; "1"; "2"; "3"; "4"; "5"; "6"; "7"; "8"; "9"]%char.

Definition digit_number (c : ascii) : nat :=
  match c with
  | "1" => 1 | "2" => 2 | "3" => 3 | "4" => 4 | "5" => 5
  | "6" => 6 | "7" => 7 | "8" => 8 | "9" => 9 | _ => 0
  end%char.

(** The number a string of decimal digits denotes, in positional
    notation. *)
Fixpoint decimal_value (ds : string) : nat :=
  match ds with
  | EmptyString => 0
  | String c ds' => digit_number c * 10 ^ String.length ds' + decimal_value ds'
  end.

(** One decimal digit or more. *)
Definition digit_string (ds : string) : Prop :=
  ds <> EmptyString
  /\ Forall (fun c => In c decimal_digits) (list_ascii_of_string ds).

(** The text [s] has the tag [[INDEX:ds]] right after its prefix [pre]. *)
Definition tag_at (s pre ds : string) : Prop :=
  digit_string ds
  /\ exists post, s = (pre ++ "[INDEX:" ++ ds ++ "]" ++ post)%string.

(** The text [s] carries the index [n]: the number of its leftmost tag. *)
Definition index_tag (s : string) (n : nat) : Prop :=
  exists pre ds,
    tag_at s pre ds /\ n = decimal_value ds
    /\ forall pre' ds', tag_at s pre' ds' -> String.length pre <= String.length pre'.

(** The text [s] has no tag. *)
Definition no_index_tag (s : string) : Prop :=
  forall pre ds, ~ tag_at s pre ds.

(** The text of a chunk; a chunk without [pageContent] has the empty
    text. *)
Definition chunk_text (v : Chunk) : string :=
  match pageContent v with
  | Some text => text
  | None => EmptyString
  end.

(** "The payload index is recoverable and equals [n]": the text of the
    chunk carries the index [n], or it has no tag and the metadata of the
    chunk has the index [n]. *)
Definition recoverable_index (v : Chunk) (n : nat) : Prop :=
  index_tag (chunk_text v) n
  \/ (no_index_tag (chunk_text v)
      /\ exists md, metadata v = Some md /\ md_index md = Some n).

(** "The payload index cannot be recovered from either source." *)
Definition unidentifiable (v : Chunk) : Prop :=
  forall n, ~ recoverable_index v n.

(** [kept] is [l] without the elements that satisfy [P], of which there
    are [removed]. *)
Inductive removes_exactly {A : Type} (P : A -> Prop)
  : list A -> list A -> nat -> Prop :=
| removes_nil : removes_exactly P [] [] 0
| removes_keep (x : A) (l kept : list A) (removed : nat) :
    ~ P x -> removes_exactly P l kept removed ->
    removes_exactly P (x :: l) (x :: kept) removed
| removes_drop (x : A) (l kept : list A) (removed : nat) :
    P x -> removes_exactly P l kept removed ->
    removes_exactly P (x :: l) kept (S removed).

(** ** Cosine search *)

(** The loop of [cosineSimilarity]; the accumulators are
    [(dotProduct, normA, normB)], and the caller has checked that the two
    arrays have the same length. *)
Fixpoint cosine_loop (vecA vecB : list float) (acc : float * float * float)
  : float * float * float :=
  match vecA, vecB with
  | a :: vecA', b :: vecB' =>
      let '(dotProduct, normA, normB) := acc in
      cosine_loop vecA' vecB'
        (dotProduct + a * b, normA + a * a, normB + b * b)%float
  | _, _ => acc
  end.

(** [cosineSimilarity(vecA, vecB)] *)
Definition cosineSimilarity (vecA vecB : list float) : float :=
  if negb (Nat.eqb (List.length vecA) (List.length vecB)) then 0%float
  else
    let '(dotProduct, normA, normB) := cosine_loop vecA vecB (0, 0, 0)%float in
    if (normA =? 0)%float || (normB =? 0)%float then 0%float
    else (dotProduct / (PrimFloat.sqrt normA * PrimFloat.sqrt normB))%float.

(** An element of the array returned by [similaritySearch] (and by the
    framework's [search]). *)
Record SearchResult := mkResult {
  res_pageContent : option string;
  res_metadata : option Metadata;
  score : float
}.

(** [compare a b > 0]: the comparison function puts [a] after [b]. *)
Definition sorts_after {A : Type} (compare : A -> A -> float) (a b : A) : bool :=
  (0 <? compare a b)%float.

(** [compare a b < 0]: the comparison function puts [a] before [b]. *)
Definition sorts_before {A : Type} (compare : A -> A -> float) (a b : A) : bool :=
  (compare a b <? 0)%float.

(** [Array.prototype.sort(compare)]: a stable sort; [compare a b > 0] puts
    [a] after [b] (a result of [NaN] counts as 0).  The array is sorted by
    stable insertion, the elements taken from the last to the first.  This
    is the result of the call when the comparison function is consistent on
    the elements of the array, which is when ECMAScript specifies it. *)
Fixpoint js_sort_insert {A : Type} (compare : A -> A -> float) (x : A) (l : list A)
  : list A :=
  match l with
  | [] => [x]
  | y :: ys =>
      if sorts_after compare x y then y :: js_sort_insert compare x ys
      else x :: y :: ys
  end.

Definition js_sort {A : Type} (compare : A -> A -> float) (l : list A) : list A :=
  fold_right (js_sort_insert compare) [] l.

(** A consistent comparison function on the elements of [l]: the two
    tests agree ([a] sorts after [b] exactly when [b] sorts before [a]), no
    two elements sort after each other, and when [a] sorts after [c] then,
    for every [b], [a] sorts after [b] or [b] sorts after [c]. *)
Definition consistent_comparator {A : Type} (compare : A -> A -> float)
    (l : list A) : bool :=
  forallb (fun a =>
    forallb (fun b =>
      Bool.eqb (sorts_after compare a b) (sorts_before compare b a)
      && (negb (sorts_after compare a b) || negb (sorts_after compare b a))
      && forallb (fun c =>
           negb (sorts_after compare a c)
           || sorts_after compare a b || sorts_after compare b c) l) l) l.

(** Two elements that the comparison function does not order. *)
Definition tied {A : Type} (compare : A -> A -> float) (e x : A) : bool :=
  negb (sorts_after compare x e) && negb (sorts_after compare e x).

(** The comparison function [(a, b) => key(b) - key(a)]. *)
Definition descending {A : Type} (key : A -> float) (a b : A) : float :=
  (key b - key a)%float.

(** The callback of [map] in [similaritySearch]. *)
Definition score_item (queryVector : list float) (item : Chunk) : SearchResult :=
  let score := cosineSimilarity queryVector (vector item) in
  {| res_pageContent := pageContent item;
     res_metadata := metadata item;
     score := score |}.

(** [similaritySearch(queryVector, topK)] *)
Definition similaritySearch (db : SimpleMemoryVectorDatabase)
    (queryVector : list float) (topK : nat) : list SearchResult :=
  let results := map (score_item queryVector) (vectors db) in
  firstn topK (js_sort (descending score) results).

(** *** The scoring rule in the words of the design document *)

(** [q . v], over the real numbers *)
Fixpoint dot (q v : list R) : R :=
  match q, v with
  | a :: q', b :: v' => (a * b + dot q' v')%R
  | _, _ => 0%R
  end.

(** [|v|] *)
Definition norm (v : list R) : R := sqrt (dot v v).

(** "For each Chunk compute (q.v) / (|q| |v|); if either norm is zero the
    score is zero." *)
Definition spec_score (q v : list R) : R :=
  if Req_dec_T (norm q) 0 then 0%R
  else if Req_dec_T (norm v) 0 then 0%R
  else (dot q v / (norm q * norm v))%R.

(** The real number a finite double stands for. *)
Definition float_value (x : float) : R :=
  match Prim2SF x with
  | S754_finite s m e =>
      ((if s then -1 else 1) * IZR (Z.pos m) * powerRZ 2 e)%R
  | _ => 0%R
  end.

(** *** The score written out *)

(** The three sums of the loop of [cosineSimilarity], each accumulated from
    0 in the order of the components. *)
Definition sum_of_products (vecA vecB : list float) : float :=
  fold_left (fun acc ab => (acc + fst ab * snd ab)%float) (combine vecA vecB) 0%float.

Definition sum_of_squares (vec : list float) : float :=
  fold_left (fun acc a => (acc + a * a)%float) vec 0%float.

(* ================================================================== *)
(** * The corpus hasher *)
(* ================================================================== *)

(** One element of [questions.json]. *)
Record QARecord := mkQA {
  question : string;
  answer : string;
  category : option string;
  audience : option string;
  keywords : option (list string)
}.

(** ** MD5 ([crypto.createHash('md5')]) *)

Module MD5.
Local Open Scope Z_scope.

(** The sine table and the rotation amounts of RFC 1321. *)
Definition K : list Z :=
  [0xd76aa478; 0xe8c7b756; 0x242070db; 0xc1bdceee;
   0xf57c0faf; 0x4787c62a; 0xa8304613; 0xfd469501;
   0x698098d8; 0x8b44f7af; 0xffff5bb1; 0x895cd7be;
   0x6b901122; 0xfd987193; 0xa679438e; 0x49b40821;
   0xf61e2562; 0xc040b340; 0x265e5a51; 0xe9b6c7aa;
   0xd62f105d; 0x02441453; 0xd8a1e681; 0xe7d3fbc8;
   0x21e1cde6; 0xc33707d6; 0xf4d50d87; 0x455a14ed;
   0xa9e3e905; 0xfcefa3f8; 0x676f02d9; 0x8d2a4c8a;
   0xfffa3942; 0x8771f681; 0x6d9d6122; 0xfde5380c;
   0xa4beea44; 0x4bdecfa9; 0xf6bb4b60; 0xbebfbc70;
   0x289b7ec6; 0xeaa127fa; 0xd4ef3085; 0x04881d05;
   0xd9d4d039; 0xe6db99e5; 0x1fa27cf8; 0xc4ac5665;
   0xf4292244; 0x432aff97; 0xab9423a7; 0xfc93a039;
   0x655b59c3; 0x8f0ccc92; 0xffeff47d; 0x85845dd1;
   0x6fa87e4f; 0xfe2ce6e0; 0xa3014314; 0x4e0811a1;
   0xf7537e82; 0xbd3af235; 0x2ad7d2bb; 0xeb86d391].

Definition shifts : list Z :=
  [7; 12; 17; 22; 7; 12; 17; 22; 7; 12; 17; 22; 7; 12; 17; 22;
   5; 9; 14; 20; 5; 9; 14; 20; 5; 9; 14; 20; 5; 9; 14; 20;
   4; 11; 16; 23; 4; 11; 16; 23; 4; 11; 16; 23; 4; 11; 16; 23;
   6; 10; 15; 21; 6; 10; 15; 21; 6; 10; 15; 21; 6; 10; 15; 21].

Definition word (x : Z) : Z := x mod 4294967296.
Definition not32 (x : Z) : Z := Z.lxor x 0xFFFFFFFF.
Definition rotl (x c : Z) : Z :=
  word (Z.lor (Z.shiftl x c) (Z.shiftr x (32 - c))).

Definition Registers : Type := Z * Z * Z * Z.

Definition step (M : list Z) (st : Registers) (i : nat) : Registers :=
  let '(A, B, C, D) := st in
  let iz := Z.of_nat i in
  let '(F, g) :=
    if (i <? 16)%nat then (Z.lor (Z.land B C) (Z.land (not32 B) D), iz)
    else if (i <? 32)%nat then
      (Z.lor (Z.land D B) (Z.land (not32 D) C), (5 * iz + 1) mod 16)
    else if (i <? 48)%nat then (Z.lxor (Z.lxor B C) D, (3 * iz + 5) mod 16)
    else (Z.lxor C (Z.lor B (not32 D)), (7 * iz) mod 16) in
  let F' := word (F + A + nth i K 0 + nth (Z.to_nat g) M 0) in
  (D, word (B + rotl F' (nth i shifts 0)), B, C).

(** Little-endian words of a block. *)
Fixpoint words (bytes : list Z) : list Z :=
  match bytes with
  | b0 :: b1 :: b2 :: b3 :: rest =>
      (b0 + 256 * b1 + 65536 * b2 + 16777216 * b3) :: words rest
  | _ => []
  end.

Definition process (st : Registers) (block : list Z) : Registers :=
  let M := words block in
  let '(A, B, C, D) := fold_left (step M) (seq 0 64) st in
  let '(a0, b0, c0, d0) := st in
  (word (a0 + A), word (b0 + B), word (c0 + C), word (d0 + D)).

Definition le_bytes (n : nat) (x : Z) : list Z :=
  map (fun i => (x / 256 ^ Z.of_nat i) mod 256) (seq 0 n).

Definition pad (msg : list Z) : list Z :=
  let len := Z.of_nat (List.length msg) in
  msg ++ [128] ++ repeat 0 (Z.to_nat ((55 - len) mod 64)) ++ le_bytes 8 (8 * len).

Fixpoint blocks (fuel : nat) (bytes : list Z) : list (list Z) :=
  match fuel, bytes with
  | S fuel', _ :: _ => firstn 64 bytes :: blocks fuel' (skipn 64 bytes)
  | _, _ => []
  end.

Definition initial : Registers := (0x67452301, 0xefcdab89, 0x98badcfe, 0x10325476).

Definition digest (msg : list Z) : list Z :=
  let padded := pad msg in
  let '(a, b, c, d) :=
    fold_left process (blocks (List.length padded) padded) initial in
  le_bytes 4 a ++ le_bytes 4 b ++ le_bytes 4 c ++ le_bytes 4 d.

Definition hex_digit (n : Z) : ascii :=
  nth (Z.to_nat (n mod 16)) (list_ascii_of_string "0123456789abcdef") "0"%char.

Definition hex_of_byte (b : Z) : list ascii := [hex_digit (b / 16); hex_digit b].

Definition hex (bytes : list Z) : string :=
  string_of_list_ascii (flat_map hex_of_byte bytes).

(** The UTF-8 encoding of a string whose code units are below 256. *)
Definition utf8 (s : string) : list Z :=
  flat_map (fun c =>
    let n := Z.of_nat (nat_of_ascii c) in
    if n <? 128 then [n] else [192 + n / 64; 128 + n mod 64])
    (list_ascii_of_string s).

End MD5.

(** [crypto.createHash('md5').update(s).digest('hex')] *)
Definition md5_hex (s : string) : string := MD5.hex (MD5.digest (MD5.utf8 s)).

(** ** [JSON.stringify] on strings *)

Definition dquote : ascii := ascii_of_nat 34.
Definition backslash : ascii := ascii_of_nat 92.

Definition hex_char (n : nat) : ascii :=
  nth n (list_ascii_of_string "0123456789abcdef") "0"%char.

(** The escape of one code unit (QuoteJSONString). *)
Definition quote_char (c : ascii) : string :=
  let n := nat_of_ascii c in
  if Nat.eqb n 8 then "\b"
  else if Nat.eqb n 9 then "\t"
  else if Nat.eqb n 10 then "\n"
  else if Nat.eqb n 12 then "\f"
  else if Nat.eqb n 13 then "\r"
  else if Nat.eqb n 34 then String backslash (String dquote "")
  else if Nat.eqb n 92 then String backslash (String backslash "")
  else if Nat.ltb n 32 then
    ("\u00" ++ String (hex_char (n / 16)) (String (hex_char (n mod 16)) ""))%string
  else String c "".

Fixpoint quote_body (s : string) : string :=
  match s with
  | EmptyString => EmptyString
  | String c s' => (quote_char c ++ quote_body s')%string
  end.

(** [JSON.stringify(s)] for a string [s]. *)
Definition JSON_quote (s : string) : string :=
  String dquote (quote_body s ++ String dquote "")%string.

(** [JSON.stringify(o)] for an object [o] whose properties, in order, are
    the given keys with string values. *)
Definition JSON_stringify_object (props : list (string * string)) : string :=
  ("{" ++ String.concat ","
            (map (fun kv => (JSON_quote (fst kv) ++ ":" ++ JSON_quote (snd kv))%string)
                 props)
       ++ "}")%string.

(** The inverse of [quote_char]: reads one escaped code unit at the head
    of the body of a JSON string; [None] at the closing quote and on text
    that [quote_char] does not produce. *)
Definition hex_value (c : ascii) : option nat :=
  let n := nat_of_ascii c in
  if Nat.leb 48 n && Nat.leb n 57 then Some (n - 48)
  else if Nat.leb 97 n && Nat.leb n 102 then Some (n - 87)
  else None.

Definition unquote_char (s : string) : option (ascii * string) :=
  match s with
  | EmptyString => None
  | String c rest =>
      if Ascii.eqb c backslash then
        match rest with
        | EmptyString => None
        | String e rest' =>
            if Ascii.eqb e "b" then Some (ascii_of_nat 8, rest')
            else if Ascii.eqb e "t" then Some (ascii_of_nat 9, rest')
            else if Ascii.eqb e "n" then Some (ascii_of_nat 10, rest')
            else if Ascii.eqb e "f" then Some (ascii_of_nat 12, rest')
            else if Ascii.eqb e "r" then Some (ascii_of_nat 13, rest')
            else if Ascii.eqb e dquote then Some (dquote, rest')
            else if Ascii.eqb e backslash then Some (backslash, rest')
            else if Ascii.eqb e "u" then
              match rest' with
              | String "0" (String "0" (String h1 (String h2 rest''))) =>
                  match hex_value h1, hex_value h2 with
                  | Some a, Some b => Some (ascii_of_nat (16 * a + b), rest'')
                  | _, _ => None
                  end
              | _ => None
              end
            else None
        end
      else if Ascii.eqb c dquote then None
      else Some (c, rest)
  end.

(** ** [Array.prototype.sort()] on strings *)

(** The default comparison orders strings by their code units; the sort is
    stable. *)
Fixpoint sort_insert (x : string) (l : list string) : list string :=
  match l with
  | [] => [x]
  | y :: ys =>
      if String.ltb y x then y :: sort_insert x ys else x :: y :: ys
  end.

Definition sort_strings (l : list string) : list string :=
  fold_right sort_insert [] l.

(** The order in which the sort leaves two strings. *)
Definition string_le (a b : string) : Prop := String.leb a b = true.

(** A keyword that [join(',')] keeps apart from its neighbours: not empty
    and without a comma. *)
Definition plain_keyword (k : string) : Prop :=
  k <> "" /\ ~ In ","%char (list_ascii_of_string k).

(** The digits of a lowercase hexadecimal rendering. *)
Definition lowercase_hex (c : ascii) : Prop :=
  In c (list_ascii_of_string "0123456789abcdef").

(** ** Record fingerprint *)

(** The text that is hashed: the [content] of [calculateQuestionHash]. *)
Definition canonical_form (questionObj : QARecord) : string :=
  JSON_stringify_object
    [("question", question questionObj);
     ("answer", answer questionObj);
     ("category", or_empty (category questionObj));
     ("audience", or_empty (audience questionObj));
     ("keywords",
       String.concat "," (sort_strings (or_nil (keywords questionObj))))].

(** [calculateQuestionHash(questionObj)], the returned digest. *)
Definition calculateQuestionHash (questionObj : QARecord) : string :=
  md5_hex (canonical_form questionObj).

(** The record with another [keywords] property. *)
Definition with_keywords (questionObj : QARecord) (ks : option (list string))
  : QARecord :=
  {| question := question questionObj;
     answer := answer questionObj;
     category := category questionObj;
     audience := audience questionObj;
     keywords := ks |}.

(** [calculateQuestionHash] sorts [questionObj.keywords] in place when the
    record has the property; this is the record after the call. *)
Definition keywords_sorted_in_place (questionObj : QARecord) : QARecord :=
  {| question := question questionObj;
     answer := answer questionObj;
     category := category questionObj;
     audience := audience questionObj;
     keywords := option_map sort_strings (keywords questionObj) |}.

(* ================================================================== *)
(** * Files, module state and effects *)
(* ================================================================== *)

(** What [JSON.parse] yields for the text of [vectors_cache.json]. *)
Record CacheJson := mkCache {
  cache_vectors : option (list Chunk);
  cache_dimensions : option nat;
  cache_savedAt : string
}.

(** The file [vectors_cache.json] when it exists: either reading or parsing
    it throws an error with some message, or it parses. *)
Inductive CacheFile :=
| CacheUnreadable (message : string)
| CacheParsed (cache : CacheJson).

(** The object of [questions_indices_hash.json]: its keys, in the order in
    which [Object.keys] lists them, with their values. *)
Definition Ledger : Type := list (nat * string).

(** The file [questions.json]: its text and what [JSON.parse] yields for it
    ([None] when parsing throws). *)
Record QuestionsFile := mkQuestionsFile {
  qf_data : string;
  qf_parsed : option (list QARecord)
}.

(** The four files; [None] is a file that does not exist (for the indices
    hash file, also one that does not parse). *)
Record Files := mkFiles {
  questions_json : option QuestionsFile;
  vectors_cache_json : option CacheFile;
  questions_hash_txt : option string;
  questions_indices_hash_json : option Ledger
}.

(** A value of [chunkMetadataMap]. *)
Record ChunkMeta := mkMeta {
  meta_index : nat;
  meta_question : string;
  meta_answer : string;
  meta_category : string;
  meta_audience : string;
  meta_keywords : list string
}.

(** [chunkMetadataMap]: the entries in insertion order; the key
    [question_i] is represented by [i]. *)
Definition MetadataMap : Type := list (nat * ChunkMeta).

(** [Map.prototype.set]: an existing key keeps its place. *)
Fixpoint map_set (key : nat) (value : ChunkMeta) (m : MetadataMap) : MetadataMap :=
  match m with
  | [] => [(key, value)]
  | (k, v) :: m' =>
      if Nat.eqb k key then (k, value) :: m' else (k, v) :: map_set key value m'
  end.

(** The module-level variables and the files.  [ragApp] is represented by
    the vector database the application was built on. *)
Record State := mkState {
  files : Files;
  ragApp : option SimpleMemoryVectorDatabase;
  questionsData : option (list QARecord);
  isInitialized : bool;
  chunkMetadataMap : MetadataMap
}.

Definition set_files (f : Files) (st : State) : State :=
  {| files := f; ragApp := ragApp st; questionsData := questionsData st;
     isInitialized := isInitialized st; chunkMetadataMap := chunkMetadataMap st |}.

Definition set_ragApp (db : option SimpleMemoryVectorDatabase) (st : State) : State :=
  {| files := files st; ragApp := db; questionsData := questionsData st;
     isInitialized := isInitialized st; chunkMetadataMap := chunkMetadataMap st |}.

Definition set_questionsData (q : option (list QARecord)) (st : State) : State :=
  {| files := files st; ragApp := ragApp st; questionsData := q;
     isInitialized := isInitialized st; chunkMetadataMap := chunkMetadataMap st |}.

Definition set_isInitialized (b : bool) (st : State) : State :=
  {| files := files st; ragApp := ragApp st; questionsData := questionsData st;
     isInitialized := b; chunkMetadataMap := chunkMetadataMap st |}.

Definition set_chunkMetadataMap (m : MetadataMap) (st : State) : State :=
  {| files := files st; ragApp := ragApp st; questionsData := questionsData st;
     isInitialized := isInitialized st; chunkMetadataMap := m |}.

Definition set_vectors_cache_json (c : option CacheFile) (f : Files) : Files :=
  {| questions_json := questions_json f; vectors_cache_json := c;
     questions_hash_txt := questions_hash_txt f;
     questions_indices_hash_json := questions_indices_hash_json f |}.

Definition set_questions_hash_txt (h : option string) (f : Files) : Files :=
  {| questions_json := questions_json f;
     vectors_cache_json := vectors_cache_json f;
     questions_hash_txt := h;
     questions_indices_hash_json := questions_indices_hash_json f |}.

Definition set_questions_indices_hash_json (l : option Ledger) (f : Files) : Files :=
  {| questions_json := questions_json f;
     vectors_cache_json := vectors_cache_json f;
     questions_hash_txt := questions_hash_txt f;
     questions_indices_hash_json := l |}.

(** The four paths the program writes to. *)
Inductive DiskFile :=
| QUESTIONS_FILE
| VECTORS_CACHE_FILE
| QUESTIONS_HASH_FILE
| QUESTIONS_INDICES_HASH_FILE.

(** The collaborators outside the repository: the embedding framework, the
    clock and the disk. *)
Record Env := mkEnv {
  (** the dimensions the built application hands to [init] *)
  embedder_dimensions : nat;
  (** the chunks [addLoader] inserts for a text; [None]: the call rejects *)
  addLoader_chunks : string -> option (list Chunk);
  (** what [ragApp.search] resolves to; [None]: the call rejects *)
  rag_search : SimpleMemoryVectorDatabase -> string -> option (list SearchResult);
  (** [new Date().toISOString()] *)
  clock : string;
  (** [fs.writeFile] on a path: [None] when the file is written, otherwise
      the message of the error the call rejects with, and the file stays as
      it was (the path is a directory, or may not be written to) *)
  writeFile_error : DiskFile -> option string
}.

(** A disk on which every write is carried out. *)
Definition writable : DiskFile -> option string := fun _ => None.

(** What a run leaves behind: the console lines of the store's file
    operations and of the writes that fail, the calls of the embedding
    framework, and the file writes that are carried out. *)
Inductive Event :=
| console_log_cache_loaded (count : nat)
| console_log_cache_not_found
| console_error_cache_load (message : string)
| console_log_cache_saved (count : nat)
| console_error_cache_save (message : string)
| console_error_saveIndicesHash (message : string)
| console_error_saveHash (message : string)
| console_error_writeQuestions (message : string)
| call_addLoader (index : nat) (text : string)
| write_vectors_cache
| write_indices_hash
| write_hash.

Inductive Error :=
| error_loadQuestions
| error_writeQuestions
| error_TypeError
| error_addLoader (index : nat)
| error_search.

Inductive Outcome (A : Type) :=
| Return (a : A)
| Throw (e : Error).
Arguments Return {A} a.
Arguments Throw {A} e.

(** An [async] function of the module: from the state before the call to the
    outcome, the state after it and the events of the call. *)
Definition M (A : Type) : Type := State -> Outcome A * State * list Event.

Definition ret {A : Type} (a : A) : M A := fun st => (Return a, st, []).

Definition throw {A : Type} (e : Error) : M A := fun st => (Throw e, st, []).

Definition bind {A B : Type} (m : M A) (k : A -> M B) : M B := fun st =>
  match m st with
  | (Return a, st1, ev1) =>
      let '(o, st2, ev2) := k a st1 in (o, st2, ev1 ++ ev2)
  | (Throw e, st1, ev1) => (Throw e, st1, ev1)
  end.

Definition get : M State := fun st => (Return st, st, []).

Definition modify (f : State -> State) : M unit := fun st => (Return tt, f st, []).

Definition emit (evs : list Event) : M unit := fun st => (Return tt, st, evs).

(** [try { m } catch (error) { handler }] *)
Definition try_catch {A : Type} (m : M A) (handler : Error -> M A) : M A :=
  fun st =>
    match m st with
    | (Return a, st1, ev1) => (Return a, st1, ev1)
    | (Throw e, st1, ev1) =>
        let '(o, st2, ev2) := handler e st1 in (o, st2, ev1 ++ ev2)
    end.

Declare Scope rag_scope.
Delimit Scope rag_scope with rag.
Notation "x <- m ;; k" := (bind m (fun x => k))
  (at level 61, m at next level, right associativity) : rag_scope.
Notation "m ;; k" := (bind m (fun _ => k))
  (at level 61, right associativity) : rag_scope.

(** [for (const x of l) { body }] *)
Fixpoint for_each {A : Type} (l : list A) (body : A -> M unit) : M unit :=
  match l with
  | [] => ret tt
  | x :: rest => bind (body x) (fun _ => for_each rest body)
  end.

(** [l.map((x, i) => f x i)] *)
Fixpoint mapi_from {A B : Type} (f : A -> nat -> B) (i : nat) (l : list A) : list B :=
  match l with
  | [] => []
  | x :: rest => f x i :: mapi_from f (S i) rest
  end.

Definition mapi {A B : Type} (f : A -> nat -> B) (l : list A) : list B :=
  mapi_from f 0 l.

(** The decimal digits of a number, as a template literal prints it. *)
Definition string_of_nat (n : nat) : string :=
  NilEmpty.string_of_uint (Nat.to_uint n).

Definition newline : ascii := ascii_of_nat 10.

(* ================================================================== *)
(** * The cache codec *)
(* ================================================================== *)

(** [loadFromFile(filePath)] on the store [db], given the state of the
    file: the store after the call, the returned boolean and the console
    lines. *)
Definition loadFromFile (db : SimpleMemoryVectorDatabase) (file : option CacheFile)
  : SimpleMemoryVectorDatabase * bool * list Event :=
  match file with
  | Some (CacheParsed cache) =>
      let db' :=
        {| vectors := or_nil (cache_vectors cache);
           dimensions :=
             match cache_dimensions cache with
             | Some 0 => None
             | d => d
             end |} in
      (db', true, [console_log_cache_loaded (List.length (vectors db'))])
  | None => (db, false, [console_log_cache_not_found])
  | Some (CacheUnreadable message) =>
      (db, false, [console_error_cache_load message])
  end.

(** What [JSON.parse] reads back of a number that [JSON.stringify] wrote:
    the number itself, except that [-0] is written as [0], and [NaN] and the
    infinities as [null]; the arithmetic of [cosineSimilarity], the only
    reader of a stored component, takes [null] for [0]. *)
Definition JSON_number (x : float) : float :=
  if PrimFloat.is_nan x || PrimFloat.is_infinity x || (x =? 0)%float
  then 0%float else x.

(** A stored item read back from the text written for it. *)
Definition JSON_chunk (c : Chunk) : Chunk :=
  {| pageContent := pageContent c;
     vector := map JSON_number (vector c);
     metadata := metadata c |}.

(** What [JSON.parse] yields for [JSON.stringify(cache, null, 2)], where
    [cache] is the object literal of [saveToFile]. *)
Definition JSON_cache (db : SimpleMemoryVectorDatabase) (savedAt : string)
  : CacheJson :=
  {| cache_vectors := Some (map JSON_chunk (vectors db));
     cache_dimensions := dimensions db;
     cache_savedAt := savedAt |}.

(** [saveToFile(filePath)] on the store [db], given the time and what the
    write does: the file written if the write is carried out, the returned
    boolean and the console line. *)
Definition saveToFile (db : SimpleMemoryVectorDatabase) (savedAt : string)
    (write_error : option string) : option CacheFile * bool * list Event :=
  let cache := JSON_cache db savedAt in
  match write_error with
  | None =>
      (Some (CacheParsed cache), true,
       [console_log_cache_saved (List.length (vectors db))])
  | Some message => (None, false, [console_error_cache_save message])
  end.

(* ================================================================== *)
(** * The reconciler *)
(* ================================================================== *)

Local Open Scope rag_scope.

(** The vector database the application holds. *)
Definition vectorDatabase (st : State) : SimpleMemoryVectorDatabase :=
  match ragApp st with
  | Some db => db
  | None => new_database
  end.

Definition modify_vectorDatabase
    (f : SimpleMemoryVectorDatabase -> SimpleMemoryVectorDatabase) : M unit :=
  modify (fun st => set_ragApp (Some (f (vectorDatabase st))) st).

(** [loadQuestions()] *)
Definition loadQuestions : M (list QARecord) :=
  st <- get ;;
  match questions_json (files st) with
  | Some file =>
      match qf_parsed file with
      | Some data =>
          modify (set_questionsData (Some data)) ;;
          ret data
      | None => throw error_loadQuestions
      end
  | None => throw error_loadQuestions
  end.

(** [calculateQuestionsHash()] *)
Definition calculateQuestionsHash : M (option string) :=
  st <- get ;;
  match questions_json (files st) with
  | Some file => ret (Some (md5_hex (qf_data file)))
  | None => ret None
  end.

(** [calculateQuestionsIndicesHash()]; hashing a record sorts its keywords
    in place, and the records are those of [questionsData]. *)
Definition calculateQuestionsIndicesHash : M Ledger :=
  try_catch
    (questions <- loadQuestions ;;
     let indicesHash :=
       mapi (fun question index => (index, calculateQuestionHash question)) questions in
     modify (set_questionsData (Some (map keywords_sorted_in_place questions))) ;;
     ret indicesHash)
    (fun _ => ret []).

(** [getStoredIndicesHash()] *)
Definition getStoredIndicesHash : M Ledger :=
  st <- get ;;
  match questions_indices_hash_json (files st) with
  | Some ledger => ret ledger
  | None => ret []
  end.

(** [saveHash(hash)]; a write that fails is logged and the call returns. *)
Definition saveHash (env : Env) (hash : string) : M unit :=
  match writeFile_error env QUESTIONS_HASH_FILE with
  | None =>
      modify (fun st => set_files (set_questions_hash_txt (Some hash) (files st)) st) ;;
      emit [write_hash]
  | Some message => emit [console_error_saveHash message]
  end.

(** [saveIndicesHash(indicesHash)]; a write that fails is logged and the
    call returns. *)
Definition saveIndicesHash (env : Env) (indicesHash : Ledger) : M unit :=
  match writeFile_error env QUESTIONS_INDICES_HASH_FILE with
  | None =>
      modify (fun st =>
        set_files (set_questions_indices_hash_json (Some indicesHash) (files st)) st) ;;
      emit [write_indices_hash]
  | Some message => emit [console_error_saveIndicesHash message]
  end.

(** [o[index]] on a ledger. *)
Fixpoint ledger_get (o : Ledger) (index : nat) : option string :=
  match o with
  | [] => None
  | (k, v) :: o' => if Nat.eqb k index then Some v else ledger_get o' index
  end.

(** Truthiness of [o[index]]: [undefined] and [''] are falsy. *)
Definition truthy (v : option string) : bool :=
  match v with
  | Some s => negb (String.eqb s "")
  | None => false
  end.

(** [a !== b] on two property reads. *)
Definition strict_neq (a b : option string) : bool :=
  match a, b with
  | Some x, Some y => negb (String.eqb x y)
  | None, None => false
  | _, _ => true
  end.

Record Changes := mkChanges {
  changed : list nat;
  newIndices : list nat;
  deletedIndices : list nat;
  allChanged : list nat
}.

(** The callback of the first [forEach] of [findChangedQuestions]; the
    accumulator is [(changed, newIndices)]. *)
Definition classify_current (currentIndicesHash storedIndicesHash : Ledger)
    (acc : list nat * list nat) (index : nat) : list nat * list nat :=
  let '(changed, newIndices) := acc in
  let indexNum := index in
  if negb (truthy (ledger_get storedIndicesHash index))
     || strict_neq (ledger_get storedIndicesHash index)
                   (ledger_get currentIndicesHash index)
  then
    if truthy (ledger_get storedIndicesHash index)
    then (changed ++ [indexNum], newIndices)
    else (changed, newIndices ++ [indexNum])
  else acc.

(** The callback of the second [forEach]. *)
Definition classify_stored (currentIndicesHash : Ledger)
    (deletedIndices : list nat) (index : nat) : list nat :=
  let indexNum := index in
  if negb (truthy (ledger_get currentIndicesHash index))
  then deletedIndices ++ [indexNum]
  else deletedIndices.

(** The comparison of two ledgers that [findChangedQuestions] makes. *)
Definition compare_ledgers (currentIndicesHash storedIndicesHash : Ledger) : Changes :=
  let '(changed, newIndices) :=
    fold_left (classify_current currentIndicesHash storedIndicesHash)
              (map fst currentIndicesHash) ([], []) in
  let deletedIndices :=
    fold_left (classify_stored currentIndicesHash)
              (map fst storedIndicesHash) [] in
  {| changed := changed;
     newIndices := newIndices;
     deletedIndices := deletedIndices;
     allChanged := changed ++ newIndices |}.

(** [findChangedQuestions()] *)
Definition findChangedQuestions : M Changes :=
  currentIndicesHash <- calculateQuestionsIndicesHash ;;
  storedIndicesHash <- getStoredIndicesHash ;;
  ret (compare_ledgers currentIndicesHash storedIndicesHash).

(** [createSearchableText(questionObj)] *)
Definition createSearchableText (questionObj : QARecord) : string :=
  let parts :=
    filter (fun part => negb (String.eqb part ""))
      ([question questionObj]
       ++ or_nil (keywords questionObj)
       ++ [or_empty (category questionObj); or_empty (audience questionObj)]) in
  String.concat " " parts.

(** The template literal [textWithMetadata]. *)
Definition textWithMetadata (i : nat) (question0 : QARecord) : string :=
  ("[INDEX:" ++ string_of_nat i
   ++ "][QUESTION:" ++ question question0
   ++ "][ANSWER:" ++ answer question0
   ++ "][CATEGORY:" ++ or_empty (category question0)
   ++ "][AUDIENCE:" ++ or_empty (audience question0)
   ++ "][KEYWORDS:" ++ String.concat "," (or_nil (keywords question0))
   ++ "]" ++ String newline (String newline "")
   ++ createSearchableText question0)%string.

(** The [metadata] object built for record [i]. *)
Definition metadata_of (i : nat) (question0 : QARecord) : ChunkMeta :=
  {| meta_index := i;
     meta_question := question question0;
     meta_answer := answer question0;
     meta_category := or_empty (category question0);
     meta_audience := or_empty (audience question0);
     meta_keywords := or_nil (keywords question0) |}.

(** [ragApp.addLoader(textLoader, false)] for the text of record [index]. *)
Definition addLoader (env : Env) (index : nat) (text : string) : M unit :=
  emit [call_addLoader index text] ;;
  match addLoader_chunks env text with
  | Some chunks =>
      modify_vectorDatabase (fun db => fst (insertChunks db chunks))
  | None => throw (error_addLoader index)
  end.

(** The body of the two embedding loops, for the index [i]. *)
Definition embed_question (env : Env) (i : nat) : M unit :=
  st <- get ;;
  match nth_error (or_nil (questionsData st)) i with
  | None => throw error_TypeError
  | Some question0 =>
      let textWithMetadata := textWithMetadata i question0 in
      let metadata := metadata_of i question0 in
      modify (fun st => set_chunkMetadataMap (map_set i metadata (chunkMetadataMap st)) st) ;;
      addLoader env i textWithMetadata
  end.

(** The loop that loads the metadata of every record into
    [chunkMetadataMap]. *)
Definition load_all_metadata : M unit :=
  modify (fun st =>
    set_chunkMetadataMap
      (fold_left (fun m iq => map_set (fst iq) (metadata_of (fst iq) (snd iq)) m)
                 (mapi (fun question0 i => (i, question0)) (or_nil (questionsData st)))
                 (chunkMetadataMap st))
      st).

(** [new RAGApplicationBuilder()...setVectorDatabase(db).build()]: the
    application is built on [db], which is told the dimensions. *)
Definition build (env : Env) (db : SimpleMemoryVectorDatabase) : M unit :=
  modify (set_ragApp (Some (init db (embedder_dimensions env)))).

(** [await vectorDatabase.saveToFile(VECTORS_CACHE_FILE)]; the boolean it
    returns is not read. *)
Definition save_cache (env : Env) : M unit :=
  st <- get ;;
  let '(written, _, console) :=
    saveToFile (vectorDatabase st) (clock env)
               (writeFile_error env VECTORS_CACHE_FILE) in
  match written with
  | Some file =>
      modify (fun st =>
        set_files (set_vectors_cache_json (Some file) (files st)) st) ;;
      emit (write_vectors_cache :: console)
  | None => emit console
  end.

(** The four statements that save the per-record hashes and the file hash. *)
Definition save_hashes (env : Env) : M unit :=
  currentIndicesHash <- calculateQuestionsIndicesHash ;;
  saveIndicesHash env currentIndicesHash ;;
  currentHash <- calculateQuestionsHash ;;
  match currentHash with
  | Some h => saveHash env h
  | None => ret tt
  end.

(** [l.sort((a, b) => a - b)] on numbers. *)
Fixpoint sort_numbers_insert (x : nat) (l : list nat) : list nat :=
  match l with
  | [] => [x]
  | y :: ys =>
      if Nat.leb x y then x :: y :: ys
      else y :: sort_numbers_insert x ys
  end.

Definition sort_numbers (l : list nat) : list nat :=
  fold_right sort_numbers_insert [] l.

(** [vectorDatabase.deleteVectorsByIndex(index)] on the application's store. *)
Definition delete_vectors (index : nat) : M unit :=
  modify_vectorDatabase (fun db => fst (deleteVectorsByIndex db index)).

(** The branch of [initializeRAG] taken when the cache is loaded and no
    record changed: the cache is used as it is. *)
Definition use_cache_unchanged (env : Env) : M unit :=
  load_all_metadata ;;
  modify (set_isInitialized true) ;;
  save_hashes env.

(** The branch taken when the cache is loaded and some record changed: the
    incremental update. *)
Definition incremental_update (env : Env) (changes : Changes) : M unit :=
  for_each (deletedIndices changes) delete_vectors ;;
  for_each (changed changes) delete_vectors ;;
  let indicesToProcess := sort_numbers (changed changes ++ newIndices changes) in
  for_each indicesToProcess (embed_question env) ;;
  load_all_metadata ;;
  save_cache env ;;
  save_hashes env ;;
  modify (set_isInitialized true).

(** The rest of [initializeRAG], reached when no cache is loaded or the
    loaded store is empty: every record is embedded. *)
Definition full_rebuild (env : Env) : M unit :=
  st <- get ;;
  build env (vectorDatabase st) ;;
  st <- get ;;
  for_each (seq 0 (List.length (or_nil (questionsData st)))) (embed_question env) ;;
  save_cache env ;;
  save_hashes env ;;
  modify (set_isInitialized true).

(** The part of [initializeRAG] that follows the build of the application;
    [cacheLoaded] is what [loadFromFile] returned. *)
Definition reconcile (env : Env) (cacheLoaded : bool) : M unit :=
  st <- get ;;
  if cacheLoaded && hasVectors (vectorDatabase st) then
    changes <- findChangedQuestions ;;
    if Nat.eqb (List.length (allChanged changes)) 0
       && Nat.eqb (List.length (deletedIndices changes)) 0
    then use_cache_unchanged env
    else incremental_update env changes
  else full_rebuild env.

(** [initializeRAG()] *)
Definition initializeRAG (env : Env) : M unit :=
  st <- get ;;
  if isInitialized st then ret tt
  else
    _ <- loadQuestions ;;
    let vectorDatabase0 := new_database in
    st <- get ;;
    let '(vectorDatabase1, cacheLoaded, console) :=
      loadFromFile vectorDatabase0 (vectors_cache_json (files st)) in
    emit console ;;
    let vectorCountBeforeBuild := List.length (vectors vectorDatabase1) in
    build env vectorDatabase1 ;;
    st <- get ;;
    let vectorCountAfterBuild := List.length (vectors (vectorDatabase st)) in
    (if cacheLoaded && Nat.ltb 0 vectorCountBeforeBuild
        && Nat.eqb vectorCountAfterBuild 0
     then
       let '(reloaded, _, console) :=
         loadFromFile (vectorDatabase st) (vectors_cache_json (files st)) in
       modify (set_ragApp (Some reloaded)) ;;
       emit console
     else ret tt) ;;
    reconcile env cacheLoaded.

(** [refreshRAG()] *)
Definition refreshRAG (env : Env) : M unit :=
  modify (set_isInitialized false) ;;
  initializeRAG env.

(** ** Reading a run *)

Definition outcome_of {A : Type} (run : Outcome A * State * list Event) : Outcome A :=
  fst (fst run).

Definition state_of {A : Type} (run : Outcome A * State * list Event) : State :=
  snd (fst run).

Definition events_of {A : Type} (run : Outcome A * State * list Event) : list Event :=
  snd run.

Definition is_write (e : Event) : bool :=
  match e with
  | write_vectors_cache | write_indices_hash | write_hash => true
  | _ => false
  end.

(** The file writes carried out in a run, in their order. *)
Definition writes_of (ev : list Event) : list Event := filter is_write ev.

(** The console line of a write that failed. *)
Definition is_failed_write (e : Event) : bool :=
  match e with
  | console_error_cache_save _ | console_error_saveIndicesHash _
  | console_error_saveHash _ | console_error_writeQuestions _ => true
  | _ => false
  end.

(** The saves of a run, in the order in which they are attempted: each is
    a write carried out or the console line of a write that failed. *)
Definition saves_of (ev : list Event) : list Event :=
  filter (fun e => is_write e || is_failed_write e) ev.

Definition is_call (e : Event) : bool :=
  match e with
  | call_addLoader _ _ => true
  | _ => false
  end.

(** The calls of the embedding framework in a run. *)
Definition calls_of (ev : list Event) : list Event := filter is_call ev.

(** An event that is not a rejected [addLoader] call. *)
Definition call_succeeds (env : Env) (e : Event) : Prop :=
  match e with
  | call_addLoader _ text => addLoader_chunks env text <> None
  | _ => True
  end.

(** The ledger [calculateQuestionsIndicesHash] computes for a corpus. *)
Definition indices_hash_of (questions : list QARecord) : Ledger :=
  mapi (fun question0 index => (index, calculateQuestionHash question0)) questions.

(** What [questions.json] parses to, if it is there and parses. *)
Definition corpus_of (f : Files) : option (list QARecord) :=
  match questions_json f with
  | Some file => qf_parsed file
  | None => None
  end.







(** The same collaborators over another disk. *)
Definition on_disk (disk : DiskFile -> option string) (env : Env) : Env :=
  {| embedder_dimensions := embedder_dimensions env;
     addLoader_chunks := addLoader_chunks env;
     rag_search := rag_search env;
     clock := clock env;
     writeFile_error := disk |}.


(** ** The pieces of a pass *)

(** The store the application is built on: the cache as loaded, told the
    dimensions of the embedder. *)
Definition loaded_store (env : Env) (f : Files) : SimpleMemoryVectorDatabase :=
  init (fst (fst (loadFromFile new_database (vectors_cache_json f))))
       (embedder_dimensions env).

(** What [loadFromFile] returns at the head of a pass. *)
Definition cache_loaded (f : Files) : bool :=
  snd (fst (loadFromFile new_database (vectors_cache_json f))).

(** The console line of that [loadFromFile]. *)
Definition load_console (f : Files) : list Event :=
  snd (loadFromFile new_database (vectors_cache_json f)).

(** A run preceded by earlier events. *)
Definition prepend {A : Type} (evs : list Event)
    (run : Outcome A * State * list Event) : Outcome A * State * list Event :=
  let '(o, st, ev) := run in (o, st, evs ++ ev).

(** The module after a sequence of [deleteVectorsByIndex] calls on the
    application's store. *)
Definition delete_all (l : list nat) (st : State) : State :=
  fold_left (fun s index =>
               set_ragApp (Some (fst (deleteVectorsByIndex (vectorDatabase s) index))) s)
            l st.

(** The module after the loop of [load_all_metadata]. *)
Definition metadata_loaded (st : State) : State :=
  set_chunkMetadataMap
    (fold_left (fun m iq => map_set (fst iq) (metadata_of (fst iq) (snd iq)) m)
               (mapi (fun question0 i => (i, question0)) (or_nil (questionsData st)))
               (chunkMetadataMap st))
    st.

(** The files after [saveIndicesHash] and [saveHash]: each file is
    replaced if its write is carried out. *)
Definition hash_files_saved (env : Env) (ledger : Ledger) (hash : string)
    (f : Files) : Files :=
  let f1 :=
    match writeFile_error env QUESTIONS_INDICES_HASH_FILE with
    | None => set_questions_indices_hash_json (Some ledger) f
    | Some _ => f
    end in
  match writeFile_error env QUESTIONS_HASH_FILE with
  | None => set_questions_hash_txt (Some hash) f1
  | Some _ => f1
  end.

(** The module after [save_hashes] over a readable corpus. *)
Definition hashes_saved (env : Env) (file : QuestionsFile) (data : list QARecord)
    (st : State) : State :=
  set_files
    (hash_files_saved env (indices_hash_of data) (md5_hex (qf_data file)) (files st))
    (set_questionsData (Some (map keywords_sorted_in_place data)) st).

(** The events of [save_hashes] over a readable corpus. *)
Definition save_hashes_events (env : Env) : list Event :=
  match writeFile_error env QUESTIONS_INDICES_HASH_FILE with
  | None => [write_indices_hash]
  | Some message => [console_error_saveIndicesHash message]
  end
  ++ match writeFile_error env QUESTIONS_HASH_FILE with
     | None => [write_hash]
     | Some message => [console_error_saveHash message]
     end.

(** The module after [save_cache]. *)
Definition cache_saved (env : Env) (st : State) : State :=
  match writeFile_error env VECTORS_CACHE_FILE with
  | None =>
      set_files
        (set_vectors_cache_json
           (Some (CacheParsed (JSON_cache (vectorDatabase st) (clock env))))
           (files st)) st
  | Some _ => st
  end.

(** The events of [save_cache] on a store of [count] items. *)
Definition save_cache_events (env : Env) (count : nat) : list Event :=
  match writeFile_error env VECTORS_CACHE_FILE with
  | None => [write_vectors_cache; console_log_cache_saved count]
  | Some message => [console_error_cache_save message]
  end.

(** The module after the branch that uses the cache as it is, for a pass
    started in [st] over the corpus [data] of [file]. *)
Definition unchanged_result (env : Env) (file : QuestionsFile)
    (data : list QARecord) (st : State) : State :=
  hashes_saved env file data
    (set_isInitialized true
       (metadata_loaded
          (set_questionsData (Some (map keywords_sorted_in_place data))
             (set_ragApp (Some (loaded_store env (files st)))
                         (set_questionsData (Some data) st))))).

(** The outcome of a pass that embeds: [run] is the run of its embedding
    loop, and [with_metadata] tells whether the metadata loop follows it
    (the incremental update) or not (the full rebuild). *)
Definition embedding_result (env : Env) (file : QuestionsFile)
    (data : list QARecord) (with_metadata : bool)
    (run : Outcome unit * State * list Event) : Outcome unit * State * list Event :=
  match outcome_of run with
  | Return _ =>
      let st1 := if with_metadata then metadata_loaded (state_of run)
                 else state_of run in
      (Return tt,
       set_isInitialized true (hashes_saved env file data (cache_saved env st1)),
       events_of run
       ++ save_cache_events env (List.length (vectors (vectorDatabase st1)))
       ++ save_hashes_events env)
  | Throw e => (Throw e, state_of run, events_of run)
  end.





(* ================================================================== *)
(** * The search entry point *)
(* ================================================================== *)

(** An element of the array [searchSimilarQuestions] returns. *)
Record SimilarQuestion := mkHit {
  hit_index : option nat;
  hit_question : string;
  hit_answer : string;
  hit_category : string;
  hit_audience : string;
  hit_keywords : list string;
  similarity : float;
  rank : nat
}.

(** [score || 0]: [0], [-0] and [NaN] are falsy. *)
Definition or_zero (x : float) : float :=
  if (x =? 0)%float || PrimFloat.is_nan x then 0%float else x.

(** The fields read from [questionsData[index]]; they stay empty when the
    array has no element there. *)
Definition fields_of_record (questionsData0 : list QARecord) (index : nat)
  : option nat * string * string * string * string * list string :=
  match nth_error questionsData0 index with
  | Some originalQuestion =>
      (Some index, question originalQuestion, answer originalQuestion,
       or_empty (category originalQuestion), or_empty (audience originalQuestion),
       or_nil (keywords originalQuestion))
  | None => (Some index, "", "", "", "", [])
  end.

(** The callback of [limitedResults.map]. *)
Definition format_result (questionsData0 : list QARecord)
    (chunkMetadataMap0 : MetadataMap) (result : SearchResult) (idx : nat)
  : SimilarQuestion :=
  let pageContent := or_empty (res_pageContent result) in
  let '(index, question, answer, category, audience, keywords) :=
    match match_INDEX pageContent with
    | Some ds => fields_of_record questionsData0 (parseInt ds)
    | None =>
        match res_metadata result with
        | Some {| md_index := Some index |} =>
            fields_of_record questionsData0 index
        | _ =>
            match
              find (fun entry =>
                      includes pageContent (meta_question (snd entry))
                      || includes pageContent (meta_answer (snd entry)))
                   chunkMetadataMap0
            with
            | Some (_, meta) =>
                (Some (meta_index meta), meta_question meta, meta_answer meta,
                 meta_category meta, meta_audience meta, meta_keywords meta)
            | None => (None, "", "", "", "", [])
            end
        end
    end in
  {| hit_index := index;
     hit_question := question;
     hit_answer := answer;
     hit_category := category;
     hit_audience := audience;
     hit_keywords := keywords;
     similarity := or_zero (score result);
     rank := idx + 1 |}.

(** The part of [searchSimilarQuestions] that follows [ragApp.search]. *)
Definition similarQuestions_of (questionsData0 : list QARecord)
    (chunkMetadataMap0 : MetadataMap) (results : list SearchResult) (topK : nat)
  : list SimilarQuestion :=
  let limitedResults := firstn topK results in
  mapi (format_result questionsData0 chunkMetadataMap0) limitedResults.

(** The payload index of a search result: the number in the [[INDEX:n]] tag
    of its text, or failing that the [index] of its metadata. *)
Definition result_payloadIndex (result : SearchResult) : option nat :=
  match match_INDEX (or_empty (res_pageContent result)) with
  | Some ds => Some (parseInt ds)
  | None =>
      match res_metadata result with
      | Some md => md_index md
      | None => None
      end
  end.

(** [ragApp.search(userQuestion)] *)
Definition search (env : Env) (userQuestion : string) : M (list SearchResult) :=
  st <- get ;;
  match ragApp st with
  | None => throw error_TypeError
  | Some db =>
      match rag_search env db userQuestion with
      | Some results => ret results
      | None => throw error_search
      end
  end.

(** [searchSimilarQuestions(userQuestion, topK)] *)
Definition searchSimilarQuestions (env : Env) (userQuestion : string) (topK : nat)
  : M (list SimilarQuestion) :=
  st <- get ;;
  (if negb (isInitialized st) then initializeRAG env else ret tt) ;;
  results <- search env userQuestion ;;
  st <- get ;;
  match questionsData st with
  | Some questionsData0 =>
      ret (similarQuestions_of questionsData0 (chunkMetadataMap st) results topK)
  | None =>
      (* [questionsData] is still [null]: reading [questionsData[index]]
         throws, for the first result that has an index *)
      if existsb (fun result =>
                    match result_payloadIndex result with
                    | Some _ => true
                    | None => false
                    end)
                 (firstn topK results)
      then throw error_TypeError
      else ret (similarQuestions_of [] (chunkMetadataMap st) results topK)
  end.

(* ================================================================== *)
(** * A small corpus for the examples *)
(* ================================================================== *)

Definition password_record : QARecord :=
  {| question := "How do I reset my password?";
     answer := "Use the reset link on the login page.";
     category := Some "account";
     audience := None;
     keywords := Some ["reset"; "password"] |}.

(** Three raw results: two chunks of record 0 and one chunk of a record 7
    that the corpus does not have. *)
Definition raw_results : list SearchResult :=
  [ {| res_pageContent := Some "[INDEX:0][QUESTION:How do I reset my password?]";
       res_metadata := None; score := 0.875%float |};
    {| res_pageContent := Some "[INDEX:0] reset password account";
       res_metadata := None; score := 0.75%float |};
    {| res_pageContent := Some "[INDEX:7][QUESTION:What are the opening hours?]";
       res_metadata := None; score := 0.5%float |} ].

(** An embedding framework that makes one chunk of each text and whose
    search returns [raw_results]. *)
Definition one_chunk_env : Env :=
  {| embedder_dimensions := 2;
     addLoader_chunks := fun text =>
       Some [ {| pageContent := Some text; vector := [1; 0]%float; metadata := None |} ];
     rag_search := fun _ _ => Some raw_results;
     clock := "2025-01-01T00:00:00.000Z";
     writeFile_error := writable |}.

Definition no_files : Files :=
  {| questions_json := None; vectors_cache_json := None;
     questions_hash_txt := None; questions_indices_hash_json := None |}.

(** The module after an initialization over the one-record corpus. *)
Definition initialized_state : State :=
  {| files := no_files;
     ragApp := Some new_database;
     questionsData := Some [password_record];
     isInitialized := true;
     chunkMetadataMap := [] |}.

Definition hours_record : QARecord :=
  {| question := "What are the opening hours?";
     answer := "9 to 5 on weekdays.";
     category := None;
     audience := Some "customers";
     keywords := Some ["opening"; "hours"] |}.

(** The module at process start over a corpus, with no cache and no
    ledger on disk. *)
Definition fresh_state (data : list QARecord) : State :=
  {| files :=
       {| questions_json := Some {| qf_data := "[...]"; qf_parsed := Some data |};
          vectors_cache_json := None;
          questions_hash_txt := None;
          questions_indices_hash_json := None |};
     ragApp := None;
     questionsData := None;
     isInitialized := false;
     chunkMetadataMap := [] |}.

(** An embedding framework whose provider rejects the text of record 0. *)
Definition rejecting_env : Env :=
  {| embedder_dimensions := 2;
     addLoader_chunks := fun text =>
       match strip_prefix "[INDEX:0]" text with
       | Some _ => None
       | None =>
           Some [ {| pageContent := Some text; vector := [1; 0]%float; metadata := None |} ]
       end;
     rag_search := fun _ _ => Some [];
     clock := "2025-01-01T00:00:00.000Z";
     writeFile_error := writable |}.

(** The state of the disk after records were embedded by a model of
    another dimensionality: the cache holds a vector of length 3 for record
    0, the ledger is up to date, and the embedder now declares 2
    dimensions. *)
Definition stale_dimension_state : State :=
  {| files :=
       {| questions_json :=
            Some {| qf_data := "[...]"; qf_parsed := Some [password_record] |};
          vectors_cache_json :=
            Some (CacheParsed
              {| cache_vectors :=
                   Some [ {| pageContent := Some (textWithMetadata 0 password_record);
                             vector := [1; 0; 0]%float;
                             metadata := None |} ];
                 cache_dimensions := Some 3;
                 cache_savedAt := "2024-06-01T00:00:00.000Z" |});
          questions_hash_txt := None;
          questions_indices_hash_json := Some (indices_hash_of [password_record]) |};
     ragApp := None;
     questionsData := None;
     isInitialized := false;
     chunkMetadataMap := [] |}.


(* ================================================================== *)
(** * More disks *)
(* ================================================================== *)


(** A disk on which the questions file may not be written. *)
Definition read_only_questions : DiskFile -> option string :=
  fun f =>
    match f with
    | QUESTIONS_FILE => Some "EACCES: permission denied"
    | _ => None
    end.


(** The disk after record 0 of a corpus of two records was edited: the
    cache holds the tagged chunk of the former record 0, a second chunk of
    that record that carries neither tag nor metadata, and the chunk of
    record 1; the ledger has the hash of the former record 0 and that of
    record 1. *)
Definition edited_with_fragment_state : State :=
  {| files :=
       {| questions_json :=
            Some {| qf_data := "[...]";
                    qf_parsed := Some [password_record; hours_record] |};
          vectors_cache_json :=
            Some (CacheParsed
              {| cache_vectors :=
                   Some [ {| pageContent := Some (textWithMetadata 0 hours_record);
                             vector := [0; 1]%float;
                             metadata := None |};
                          {| pageContent := Some "on weekdays, and 10 to 2 on Saturdays.";
                             vector := [1; 1]%float;
                             metadata := None |};
                          {| pageContent := Some (textWithMetadata 1 hours_record);
                             vector := [1; 0]%float;
                             metadata := None |} ];
                 cache_dimensions := Some 2;
                 cache_savedAt := "2024-06-01T00:00:00.000Z" |});
          questions_hash_txt := None;
          questions_indices_hash_json :=
            Some (indices_hash_of [hours_record; hours_record]) |};
     ragApp := None;
     questionsData := None;
     isInitialized := false;
     chunkMetadataMap := [] |}.

(* ================================================================== *)
(** * The other operations of the store *)
(* ================================================================== *)

(** [getVectorCount()] *)
Definition getVectorCount (db : SimpleMemoryVectorDatabase) : nat :=
  List.length (vectors db).

(** [reset()] *)
Definition reset (db : SimpleMemoryVectorDatabase) : SimpleMemoryVectorDatabase :=
  {| vectors := []; dimensions := dimensions db |}.

(** [v.metadata?.id || ''] *)
Definition metadata_id (v : Chunk) : string :=
  match metadata v with
  | Some md => or_empty (md_id md)
  | None => ""
  end.

(** [id.startsWith(prefix)] *)
Definition startsWith (id prefix : string) : bool :=
  match strip_prefix prefix id with
  | Some _ => true
  | None => false
  end.

(** [deleteKeys(prefix)]: the new store and the returned count. *)
Definition deleteKeys (db : SimpleMemoryVectorDatabase) (prefix : string)
  : SimpleMemoryVectorDatabase * nat :=
  let beforeLength := List.length (vectors db) in
  let kept := filter (fun v => let id := metadata_id v in negb (startsWith id prefix))
                     (vectors db) in
  ({| vectors := kept; dimensions := dimensions db |},
   beforeLength - List.length kept).

(** The callback handed to [filter] by [getVectorCountByIndex]: [true]
    counts the item. *)
Definition count_matches (index : nat) (v : Chunk) : bool :=
  let pageContent := or_empty (pageContent v) in
  match match_INDEX pageContent with
  | Some ds => Nat.eqb (parseInt ds) index
  | None =>
      match metadata v with
      | Some md =>
          match md_index md with
          | Some mi => Nat.eqb mi index
          | None => false
          end
      | None => false
      end
  end.

(* ================================================================== *)
(** * The file hash *)
(* ================================================================== *)

(** The code units that [String.prototype.trim] removes: white space and
    line terminators (tab, line feed, vertical tab, form feed, carriage
    return, space and no-break space). *)
Definition is_white_space (c : ascii) : bool :=
  let n := nat_of_ascii c in
  (Nat.leb 9 n && Nat.leb n 13) || Nat.eqb n 32 || Nat.eqb n 160.

Fixpoint trimStart (s : string) : string :=
  match s with
  | EmptyString => EmptyString
  | String c s' => if is_white_space c then trimStart s' else s
  end.

Fixpoint trimEnd (s : string) : string :=
  match s with
  | EmptyString => EmptyString
  | String c s' =>
      match trimEnd s' with
      | EmptyString => if is_white_space c then EmptyString else String c EmptyString
      | t => String c t
      end
  end.

(** [s.trim()] *)
Definition trim (s : string) : string := trimEnd (trimStart s).

(** [getStoredHash()] *)
Definition getStoredHash : M (option string) :=
  st <- get ;;
  match questions_hash_txt (files st) with
  | Some hash => ret (Some (trim hash))
  | None => ret None
  end.

(** [hasQuestionsChanged()] *)
Definition hasQuestionsChanged : M bool :=
  currentHash <- calculateQuestionsHash ;;
  storedHash <- getStoredHash ;;
  if negb (truthy storedHash) then ret true
  else ret (strict_neq currentHash storedHash).

(** ** The chunks of a record *)

(** The chunks the embedding framework makes of the text of record [i]
    (none when it rejects the text). *)
Definition chunks_of_record (env : Env) (i : nat) (question0 : QARecord)
  : list Chunk :=
  or_nil (addLoader_chunks env (textWithMetadata i question0)).

(** ** More samples *)

(** A disk with a cache that holds a chunk of record 0, and no ledger. *)
Definition cache_without_ledger_state : State :=
  {| files :=
       {| questions_json :=
            Some {| qf_data := "[...]"; qf_parsed := Some [password_record] |};
          vectors_cache_json :=
            Some (CacheParsed
              {| cache_vectors :=
                   Some [ {| pageContent := Some (textWithMetadata 0 password_record);
                             vector := [1; 0]%float;
                             metadata := None |} ];
                 cache_dimensions := Some 2;
                 cache_savedAt := "2024-06-01T00:00:00.000Z" |});
          questions_hash_txt := None;
          questions_indices_hash_json := None |};
     ragApp := None;
     questionsData := None;
     isInitialized := false;
     chunkMetadataMap := [] |}.

(** The chunks the embedding loop adds for the index [k] of
    [questionsData], and the call it makes. *)
Definition chunks_for (env : Env) (questionsData0 : list QARecord) (k : nat)
  : list Chunk :=
  match nth_error questionsData0 k with
  | Some question0 => chunks_of_record env k question0
  | None => []
  end.

Definition call_for (questionsData0 : list QARecord) (k : nat) : list Event :=
  match nth_error questionsData0 k with
  | Some question0 => [call_addLoader k (textWithMetadata k question0)]
  | None => []
  end.

(** The console lines of [loadFromFile]. *)
Definition is_load_line (e : Event) : bool :=
  match e with
  | console_log_cache_loaded _ | console_log_cache_not_found
  | console_error_cache_load _ => true
  | _ => false
  end.

(* ================================================================== *)
(** * The HTTP handlers (index.js) *)
(* ================================================================== *)

(** ** Values of a request *)

(** The value of a digit in a radix, if the character is one. *)
Definition digit_in_radix (radix : nat) (c : ascii) : option nat :=
  let n := nat_of_ascii c in
  let value :=
    if is_digit c then Some (n - 48)
    else if Nat.leb 97 n && Nat.leb n 122 then Some (n - 87)
    else if Nat.leb 65 n && Nat.leb n 90 then Some (n - 55)
    else None in
  match value with
  | Some d => if Nat.ltb d radix then Some d else None
  | None => None
  end.

(** The value of the longest run of digits at the head of [s]; [acc] is
    the value of the digits read so far, [None] when none was read. *)
Fixpoint parse_digits (radix : nat) (s : string) (acc : option Z) : option Z :=
  match s with
  | EmptyString => acc
  | String c s' =>
      match digit_in_radix radix c with
      | Some d =>
          let before := match acc with Some a => a | None => 0%Z end in
          parse_digits radix s' (Some (Z.of_nat radix * before + Z.of_nat d)%Z)
      | None => acc
      end
  end.

(** [parseInt(string)] without a radix, on any string: leading white space
    is skipped, then a sign, then a [0x] prefix that selects the radix 16;
    the digits that follow are read as far as they go.  [None] is [NaN]. *)
Definition Number_parseInt (string : string) : option Z :=
  let inputString := trimStart string in
  let '(sign, unsigned) :=
    match inputString with
    | String "-" rest => ((-1)%Z, rest)
    | String "+" rest => (1%Z, rest)
    | _ => (1%Z, inputString)
    end in
  let '(radix, digits) :=
    match unsigned with
    | String "0" (String "x" rest) => (16, rest)
    | String "0" (String "X" rest) => (16, rest)
    | _ => (10, unsigned)
    end in
  match parse_digits radix digits None with
  | Some mathInt => Some (sign * mathInt)%Z
  | None => None
  end.

(** A value of [req.body]: a string, or a value of another type (or no
    value), of which the handlers read the truthiness and what [parseInt]
    makes of it. *)
Inductive BodyValue :=
| body_string (s : string)
| body_other (truthy : bool) (parsed : option Z).

(** Truthiness of a value: [!v] is its negation. *)
Definition js_truthy (v : BodyValue) : bool :=
  match v with
  | body_string s => negb (String.eqb s "")
  | body_other t _ => t
  end.

(** [parseInt(v)] *)
Definition parseInt_value (v : BodyValue) : option Z :=
  match v with
  | body_string s => Number_parseInt s
  | body_other _ parsed => parsed
  end.

(** [v.trim()]: a value that is not a string has no such method. *)
Definition body_trim (v : BodyValue) : M string :=
  match v with
  | body_string s => ret (trim s)
  | body_other _ _ => throw error_TypeError
  end.

(** What a handler sends: the status code and the [data] of the body, when
    the body has one. *)
Record Response (A : Type) := mkResponse {
  res_status : nat;
  res_data : option A
}.
Arguments mkResponse {A} _ _.
Arguments res_status {A} _.
Arguments res_data {A} _.

Definition respond {A : Type} (status : nat) (data : option A) : M (Response A) :=
  ret {| res_status := status; res_data := data |}.

(** The collaborators of the handlers: the keyword generator, which asks a
    language model, and the serializer. *)
Record Server := mkServer {
  (** [generateKeywords(question, answer)]; [None]: the call rejects *)
  generateKeywords : BodyValue -> BodyValue -> option (list string);
  (** [JSON.stringify(questions, null, 2)] *)
  JSON_stringify_questions : list QARecord -> string
}.

(** ** The questions file *)

Definition set_questions_json (q : option QuestionsFile) (f : Files) : Files :=
  {| questions_json := q;
     vectors_cache_json := vectors_cache_json f;
     questions_hash_txt := questions_hash_txt f;
     questions_indices_hash_json := questions_indices_hash_json f |}.

(** [readQuestions()]; the error of a failed read is rethrown. *)
Definition readQuestions : M (list QARecord) :=
  st <- get ;;
  match questions_json (files st) with
  | Some file =>
      match qf_parsed file with
      | Some data => ret data
      | None => throw error_loadQuestions
      end
  | None => throw error_loadQuestions
  end.

(** [writeQuestions(questions)]: the file then parses to what was
    written; a write that fails is logged and its error thrown again. *)
Definition writeQuestions (env : Env) (srv : Server) (questions : list QARecord)
  : M bool :=
  match writeFile_error env QUESTIONS_FILE with
  | None =>
      modify (fun st =>
        set_files
          (set_questions_json
             (Some {| qf_data := JSON_stringify_questions srv questions;
                      qf_parsed := Some questions |})
             (files st)) st) ;;
      ret true
  | Some message =>
      emit [console_error_writeQuestions message] ;;
      throw error_writeQuestions
  end.

(** The index that [id] denotes, unless
    [isNaN(id) || id < 0 || id >= questions.length]. *)
Definition checked_id (id : option Z) (questions : list QARecord) : option nat :=
  match id with
  | None => None
  | Some id =>
      if (id <? 0)%Z || (Z.of_nat (List.length questions) <=? id)%Z then None
      else Some (Z.to_nat id)
  end.

(** [questions.splice(id, 1)] for an index within the array: the removed
    elements, and the array after the call. *)
Definition splice_one {A : Type} (l : list A) (id : nat) : list A * list A :=
  (firstn 1 (skipn id l), firstn id l ++ skipn (S id) l).

(** [questions[id] = value] for an index within the array. *)
Definition array_set {A : Type} (l : list A) (id : nat) (value : A) : list A :=
  firstn id l ++ value :: skipn (S id) l.

(** [try { await refreshRAG() } catch (ragError) { console.error(...) }] *)
Definition refresh_and_log (env : Env) : M unit :=
  try_catch (refreshRAG env) (fun ragError => ret tt).

(** The fields read from [req.body] by [POST /questions] and
    [PUT /questions/:id]. *)
Record QuestionBody := mkQuestionBody {
  body_question : BodyValue;
  body_answer : BodyValue;
  body_category : BodyValue;
  body_audience : BodyValue
}.

(** The object literal built from the body and the keywords; a field that
    is not a string throws. *)
Definition trimmed_record (body : QuestionBody) (keywords : option (list string))
  : M QARecord :=
  question <- body_trim (body_question body) ;;
  answer <- body_trim (body_answer body) ;;
  category <- body_trim (body_category body) ;;
  audience <- body_trim (body_audience body) ;;
  ret (mkQA question answer (Some category) (Some audience) keywords).

(** ** The handlers *)

(** [GET /questions/:id] *)
Definition get_question (id_param : string) : M (Response QARecord) :=
  try_catch
    (questions <- readQuestions ;;
     let id := Number_parseInt id_param in
     match checked_id id questions with
     | None => respond 404 None
     | Some id => respond 200 (nth_error questions id)
     end)
    (fun error => respond 500 None).


(** The statements of [PUT /questions/:id] that follow the choice of the
    keywords. *)
Definition put_question_store (env : Env) (srv : Server)
    (questions : list QARecord) (id : nat) (body : QuestionBody)
    (keywords : option (list string))
  : M (Response (nat * QARecord)) :=
  newQuestion <- trimmed_record body keywords ;;
  let questions := array_set questions id newQuestion in
  _ <- writeQuestions env srv questions ;;
  refresh_and_log env ;;
  respond 200 (option_map (fun q => (id, q)) (nth_error questions id)).

(** [PUT /questions/:id] *)
Definition put_question (env : Env) (srv : Server) (id_param : string)
    (body : QuestionBody)
  : M (Response (nat * QARecord)) :=
  try_catch
    (let id := Number_parseInt id_param in
     questions <- readQuestions ;;
     match checked_id id questions with
     | None => respond 404 None
     | Some id =>
         if negb (js_truthy (body_question body))
            || negb (js_truthy (body_answer body))
         then respond 400 None
         else if negb (js_truthy (body_category body))
                 || negb (js_truthy (body_audience body))
         then respond 400 None
         else
           match nth_error questions id with
           | None => throw error_TypeError
           | Some oldQuestion =>
               question' <- body_trim (body_question body) ;;
               let questionChanged :=
                 negb (String.eqb (question oldQuestion) question') in
               answer' <- body_trim (body_answer body) ;;
               let answerChanged :=
                 negb (String.eqb (answer oldQuestion) answer') in
               let keywords := keywords oldQuestion in
               if questionChanged || answerChanged then
                 match generateKeywords srv (body_question body) (body_answer body) with
                 | None => respond 500 None
                 | Some keywords =>
                     put_question_store env srv questions id body (Some keywords)
                 end
               else put_question_store env srv questions id body keywords
           end
     end)
    (fun error => respond 500 None).

(** [DELETE /questions/:id]; the [data] of the answer is the deleted
    record. *)
Definition delete_question (env : Env) (srv : Server) (id_param : string)
  : M (Response QARecord) :=
  try_catch
    (let id := Number_parseInt id_param in
     questions <- readQuestions ;;
     match checked_id id questions with
     | None => respond 404 None
     | Some id =>
         let '(removed, questions) := splice_one questions id in
         let deletedQuestion := hd_error removed in
         _ <- writeQuestions env srv questions ;;
         refresh_and_log env ;;
         respond 200 deletedQuestion
     end)
    (fun error => respond 500 None).

(** The [limit] of [POST /search]. *)
Definition search_limit (topK : BodyValue) : Z :=
  match parseInt_value topK with
  | Some n =>
      if js_truthy topK && (0 <? n)%Z then Z.min n 50 else 10%Z
  | None => 10%Z
  end.

(** [POST /search]; the [data] of the answer is the query, the count and
    the entries. *)
Definition post_search (env : Env) (question topK : BodyValue)
  : M (Response (string * nat * list SimilarQuestion)) :=
  try_catch
    (match question with
     | body_other _ _ => respond 400 None
     | body_string s =>
         if negb (js_truthy question) || Nat.eqb (String.length (trim s)) 0
         then respond 400 None
         else
           let limit := search_limit topK in
           similarQuestions <- searchSimilarQuestions env (trim s) (Z.to_nat limit) ;;
           respond 200
             (Some (trim s, List.length similarQuestions, similarQuestions))
     end)
    (fun error => respond 500 None).

(* ================================================================== *)
(** * Proof automation *)
(* ================================================================== *)


(* ================================================================== *)
(** * The helpers on known values *)
(* ================================================================== *)

(** The test suite of RFC 1321, and a text longer than one block. *)
Example md5_hex_empty : md5_hex "" = "d41d8cd98f00b204e9800998ecf8427e".
Proof. vm_compute. reflexivity. Qed.

Example md5_hex_abc : md5_hex "abc" = "900150983cd24fb0d6963f7d28e17f72".
Proof. vm_compute. reflexivity. Qed.

Example md5_hex_message_digest :
  md5_hex "message digest" = "f96b697d7cb7938d525a2f31aaf161d0".
Proof. vm_compute. reflexivity. Qed.

Example md5_hex_alphabet :
  md5_hex "abcdefghijklmnopqrstuvwxyz" = "c3fcd3d76192e4007dfb496cca67e13b".
Proof. vm_compute. reflexivity. Qed.

Example md5_hex_two_blocks :
  md5_hex "12345678901234567890123456789012345678901234567890123456789012345678901234567890"
  = "57edf4a22be3c955ac49da2e2107b67a".
Proof. vm_compute. reflexivity. Qed.

(** The leftmost match of the tag wins, and a tag needs digits and the
    closing bracket. *)
Example match_INDEX_leftmost :
  option_map parseInt (match_INDEX "[INDEX:12][QUESTION:see [INDEX:7]]") = Some 12.
Proof. reflexivity. Qed.

Example match_INDEX_skips_malformed :
  option_map parseInt (match_INDEX "[INDEX:x] [INDEX:] [INDEX:3") = None.
Proof. reflexivity. Qed.

Example match_INDEX_later_tag :
  option_map parseInt (match_INDEX "second chunk of [INDEX:x], see [INDEX:042]") = Some 42.
Proof. reflexivity. Qed.

(** Control characters, quotes and backslashes are escaped as
    [JSON.stringify] escapes them. *)
Example JSON_quote_escapes :
  JSON_quote (String (ascii_of_nat 9) (String dquote (String backslash
               (String (ascii_of_nat 11) "a"))))
  = String dquote ("\t\" ++ String dquote ("\\\u000ba" ++ String dquote "")).
Proof. reflexivity. Qed.

Example sort_strings_code_units :
  sort_strings ["zeta"; "alpha"; "Beta"; "alp"] = ["Beta"; "alp"; "alpha"; "zeta"].
Proof. reflexivity. Qed.

Example sort_numbers_ascending : sort_numbers [10; 2; 33; 2; 0] = [0; 2; 2; 10; 33].
Proof. reflexivity. Qed.

(** The text handed to the embedding framework for a record. *)
Example textWithMetadata_password :
  textWithMetadata 0 password_record
  = ("[INDEX:0][QUESTION:How do I reset my password?]"
     ++ "[ANSWER:Use the reset link on the login page.]"
     ++ "[CATEGORY:account][AUDIENCE:][KEYWORDS:reset,password]"
     ++ String newline (String newline
          "How do I reset my password? reset password account"))%string.
Proof. reflexivity. Qed.

(** A first pass over a fresh disk embeds every record, then writes the
    cache, the indices hash and the file hash. *)
Example first_pass_events :
  events_of (initializeRAG one_chunk_env (fresh_state [password_record; hours_record]))
  = [console_log_cache_not_found;
     call_addLoader 0 (textWithMetadata 0 password_record);
     call_addLoader 1 (textWithMetadata 1 hours_record);
     write_vectors_cache; console_log_cache_saved 2;
     write_indices_hash; write_hash].
Proof. vm_compute. reflexivity. Qed.

(* ================================================================== *)
(** * Properties of the vector store *)
(* ================================================================== *)

Lemma delete_keeps_payloadIndex (index : nat) (v : Chunk) :
  delete_keeps index v = negb (option_nat_eqb (payloadIndex v) (Some index)).
Proof.
  unfold delete_keeps, payloadIndex.
  destruct (match_INDEX (or_empty (pageContent v))) as [ds|]; simpl; [reflexivity|].
  destruct (metadata v) as [md|]; simpl; [|reflexivity].
  destruct (md_index md); reflexivity.
Qed.

Lemma filter_length_split {A : Type} (f : A -> bool) (l : list A) :
  List.length l = List.length (filter f l) + List.length (filter (fun x => negb (f x)) l).
Proof.
  induction l as [|x l IH]; simpl; [reflexivity|].
  destruct (f x); simpl; lia.
Qed.

(** ** The tag the code reads is the tag of the design document *)

Lemma is_digit_decimal (c : ascii) : is_digit c = true <-> In c decimal_digits.
Proof.
  destruct c as [[] [] [] [] [] [] [] []]; vm_compute;
    split; intro H; try discriminate H; try reflexivity;
    try (repeat (destruct H as [H|H]; [discriminate H|]); contradiction H);
    tauto.
Qed.

Lemma digit_value_number (c : ascii) :
  In c decimal_digits -> digit_value c = digit_number c.
Proof.
  intro H. repeat (destruct H as [<-|H]; [reflexivity|]). contradiction H.
Qed.

(** The longest run of digits at the head of a text. *)
Lemma take_digits_spec (s : string) :
  s = (fst (take_digits s) ++ snd (take_digits s))%string
  /\ Forall (fun c => In c decimal_digits) (list_ascii_of_string (fst (take_digits s))).
Proof.
  induction s as [|c s [IH1 IH2]]; simpl; [split; [reflexivity | constructor]|].
  destruct (is_digit c) eqn:Hc.
  - destruct (take_digits s) as [ds rest]. simpl in *.
    split; [f_equal; exact IH1|].
    constructor; [apply is_digit_decimal, Hc | exact IH2].
  - simpl. split; [reflexivity | constructor].
Qed.

Lemma take_digits_app (ds post : string) :
  Forall (fun c => In c decimal_digits) (list_ascii_of_string ds) ->
  take_digits (ds ++ String "]" post) = (ds, String "]" post).
Proof.
  induction ds as [|c ds IH]; intro H; [reflexivity|].
  simpl in H. inversion H as [|? ? Hc Hds]; subst.
  simpl. apply is_digit_decimal in Hc. rewrite Hc, (IH Hds). reflexivity.
Qed.

Lemma strip_prefix_app (p s : string) : strip_prefix p (p ++ s) = Some s.
Proof.
  induction p as [|a p IH]; [reflexivity|].
  simpl. rewrite Ascii.eqb_refl. exact IH.
Qed.

Lemma strip_prefix_spec (p s rest : string) :
  strip_prefix p s = Some rest -> s = (p ++ rest)%string.
Proof.
  revert s. induction p as [|a p IH]; intros s H; simpl in H.
  - inversion H. reflexivity.
  - destruct s as [|b s]; [discriminate|].
    destruct (Ascii.eqb_spec a b) as [->|]; [|discriminate].
    simpl. f_equal. apply IH, H.
Qed.

(** A match at the head of the text is a tag after the empty prefix. *)
Lemma match_INDEX_here_tag (s ds : string) :
  match_INDEX_here s = Some ds <-> tag_at s EmptyString ds.
Proof.
  unfold match_INDEX_here, tag_at, digit_string. split.
  - destruct (strip_prefix "[INDEX:" s) as [rest|] eqn:Hp; [|discriminate].
    apply strip_prefix_spec in Hp.
    destruct (take_digits_spec rest) as [Hr Hd].
    destruct (take_digits rest) as [[|d ds'] [|c post]]; try discriminate.
    destruct (Ascii.eqb_spec c "]") as [->|Hne].
    + intro H. inversion H; subst ds. simpl fst in *. simpl snd in *.
      split; [split; [discriminate | exact Hd]|].
      exists post. rewrite Hp at 1. rewrite Hr at 1. reflexivity.
    + intro H. exfalso.
      destruct c as [[] [] [] [] [] [] [] []]; try discriminate H.
      apply Hne. reflexivity.
  - intros [[Hne Hd] [post ->]].
    change (EmptyString ++ "[INDEX:" ++ ds ++ "]" ++ post)%string
      with ("[INDEX:" ++ (ds ++ String "]" post))%string.
    rewrite strip_prefix_app, (take_digits_app ds post Hd).
    destruct ds; [contradiction Hne; reflexivity | reflexivity].
Qed.

Lemma tag_at_cons (c c' : ascii) (s pre ds : string) :
  tag_at (String c s) (String c' pre) ds <-> c = c' /\ tag_at s pre ds.
Proof.
  unfold tag_at. split.
  - intros [Hd [post H]]. simpl in H. inversion H; subst.
    split; [reflexivity|]. split; [exact Hd|]. exists post. reflexivity.
  - intros [-> [Hd [post ->]]]. split; [exact Hd|]. exists post. reflexivity.
Qed.

(** The digits of a tag are determined by where the tag starts. *)
Lemma tag_at_unique (s pre pre' ds ds' : string) :
  tag_at s pre ds -> tag_at s pre' ds' ->
  String.length pre = String.length pre' -> ds = ds'.
Proof.
  revert s pre'. induction pre as [|c pre IH]; intros s [|c' pre'] H H' Hlen;
    try discriminate Hlen.
  - apply match_INDEX_here_tag in H, H'. congruence.
  - destruct s as [|a s].
    + destruct H as [_ [post H]]. discriminate H.
    + apply tag_at_cons in H, H'. destruct H as [_ H], H' as [_ H'].
      apply (IH s pre'); [exact H | exact H' | simpl in Hlen; lia].
Qed.

(** [match] finds the leftmost tag, and finds none only if there is
    none. *)
Lemma match_INDEX_spec (s : string) :
  match match_INDEX s with
  | Some ds =>
      exists pre, tag_at s pre ds
        /\ forall pre' ds', tag_at s pre' ds' ->
                            String.length pre <= String.length pre'
  | None => no_index_tag s
  end.
Proof.
  induction s as [|c s IH].
  - simpl. intros pre ds [[Hne _] [post H]].
    destruct pre; discriminate H.
  - cbn [match_INDEX].
    destruct (match_INDEX_here (String c s)) as [ds|] eqn:Hh.
    + exists EmptyString. split; [apply match_INDEX_here_tag, Hh|].
      intros; simpl; lia.
    + destruct (match_INDEX s) as [ds|].
      * destruct IH as [pre [Ht Hmin]]. exists (String c pre).
        split; [apply tag_at_cons; auto|].
        intros [|c' pre'] ds' H'.
        -- apply match_INDEX_here_tag in H'. congruence.
        -- apply tag_at_cons in H'. destruct H' as [_ H'].
           specialize (Hmin _ _ H'). simpl. lia.
      * intros [|c' pre'] ds' H'.
        -- apply match_INDEX_here_tag in H'. congruence.
        -- apply tag_at_cons in H'. destruct H' as [_ H']. exact (IH _ _ H').
Qed.

(** [parseInt] reads a string of digits as the number it denotes. *)
Lemma parseInt_fold (l : list ascii) (acc : nat) :
  Forall (fun c => In c decimal_digits) l ->
  fold_left (fun acc c => 10 * acc + digit_value c) l acc
  = acc * 10 ^ List.length l + decimal_value (string_of_list_ascii l).
Proof.
  revert acc. induction l as [|c l IH]; intros acc H; simpl.
  - lia.
  - inversion H as [|? ? Hc Hl]; subst. rewrite (IH _ Hl).
    rewrite (digit_value_number c Hc).
    assert (E : String.length (string_of_list_ascii l) = List.length l).
    { clear. induction l; simpl; congruence. }
    rewrite E. nia.
Qed.

Lemma parseInt_decimal_value (ds : string) :
  digit_string ds -> parseInt ds = decimal_value ds.
Proof.
  intros [_ H]. unfold parseInt. rewrite (parseInt_fold _ 0 H).
  rewrite string_of_list_ascii_of_string. lia.
Qed.

Lemma or_empty_chunk_text (v : Chunk) : or_empty (pageContent v) = chunk_text v.
Proof. reflexivity. Qed.

(** The payload index the code computes is the recoverable index of the
    design document. *)
Lemma payloadIndex_recoverable (v : Chunk) (n : nat) :
  payloadIndex v = Some n <-> recoverable_index v n.
Proof.
  unfold payloadIndex, recoverable_index. rewrite or_empty_chunk_text.
  pose proof (match_INDEX_spec (chunk_text v)) as Hs.
  destruct (match_INDEX (chunk_text v)) as [ds|].
  - destruct Hs as [pre [Ht Hmin]]. split.
    + intro H. inversion H; subst n. left. exists pre, ds.
      split; [exact Ht|]. split; [|exact Hmin].
      apply parseInt_decimal_value. exact (proj1 Ht).
    + intros [[pre' [ds' [Ht' [-> Hmin']]]] | [Hno _]].
      * f_equal. rewrite (parseInt_decimal_value ds (proj1 Ht)). f_equal.
        apply (tag_at_unique (chunk_text v) pre pre'); [exact Ht | exact Ht'|].
        specialize (Hmin _ _ Ht'). specialize (Hmin' _ _ Ht). lia.
      * exfalso. exact (Hno _ _ Ht).
  - split.
    + intro H. right. split; [exact Hs|].
      destruct (metadata v) as [md|]; [|discriminate]. exists md. auto.
    + intros [[pre [ds [Ht _]]] | [_ [md [Hm Hi]]]].
      * exfalso. exact (Hs _ _ Ht).
      * rewrite Hm. exact Hi.
Qed.

Lemma payloadIndex_unidentifiable (v : Chunk) :
  payloadIndex v = None <-> unidentifiable v.
Proof.
  unfold unidentifiable. split.
  - intros H n Hr. apply payloadIndex_recoverable in Hr. congruence.
  - intro H. destruct (payloadIndex v) as [n|] eqn:E; [|reflexivity].
    exfalso. apply (H n), payloadIndex_recoverable, E.
Qed.

Lemma option_nat_eqb_Some (o : option nat) (n : nat) :
  option_nat_eqb o (Some n) = true <-> o = Some n.
Proof.
  destruct o as [m|]; simpl; [|split; discriminate].
  rewrite Nat.eqb_eq. split; congruence.
Qed.

(** A filter removes exactly the elements its callback rejects. *)
Lemma filter_removes_exactly {A : Type} (P : A -> Prop) (f : A -> bool) (l : list A) :
  (forall x, f x = false <-> P x) ->
  removes_exactly P l (filter f l) (List.length l - List.length (filter f l)).
Proof.
  intro Hf. induction l as [|x l IH]; [constructor|].
  pose proof (filter_length_le f l) as Hle.
  cbn [filter]. destruct (f x) eqn:E.
  - change (List.length (x :: l) - List.length (x :: filter f l))
      with (List.length l - List.length (filter f l)).
    apply removes_keep; [|exact IH].
    intro HP. apply Hf in HP. congruence.
  - replace (List.length (x :: l) - List.length (filter f l))
      with (S (List.length l - List.length (filter f l)))
      by (cbn [List.length]; lia).
    apply removes_drop; [apply Hf, E | exact IH].
Qed.

Lemma startsWith_spec (id prefix : string) :
  startsWith id prefix = true <-> exists rest, id = (prefix ++ rest)%string.
Proof.
  unfold startsWith. split.
  - destruct (strip_prefix prefix id) as [rest|] eqn:E; [|discriminate].
    intros _. exists rest. apply strip_prefix_spec, E.
  - intros [rest ->]. rewrite strip_prefix_app. reflexivity.
Qed.

(** C10, as the code has it.  [deleteVectorsByIndex(i)] removes exactly the
    chunks whose payload index is recoverable (the number of the leftmost
    [[INDEX:n]] tag of the text, or failing a tag the [index] of the
    metadata) and equals [i], keeps the others in their order, returns the
    number of chunks removed, and keeps every chunk whose payload index
    cannot be recovered, whatever [i] is.  The two other deleting methods of
    the store do not look at the payload index: [deleteKeys(prefix)] removes
    exactly the chunks whose [metadata.id], read as the empty string when
    there is none, starts with [prefix], and [reset()] removes every
    chunk. *)
Theorem deleteVectorsByIndex_exact (db : SimpleMemoryVectorDatabase) (i : nat) :
  let db' := fst (deleteVectorsByIndex db i) in
  let removed := snd (deleteVectorsByIndex db i) in
  removes_exactly (fun v => recoverable_index v i) (vectors db) (vectors db') removed
  /\ (forall v, In v (vectors db') <->
                In v (vectors db) /\ ~ recoverable_index v i)
  /\ (forall v j, In v (vectors db) -> unidentifiable v ->
                  In v (vectors (fst (deleteVectorsByIndex db j))))
  /\ dimensions db' = dimensions db
  /\ (forall prefix,
        removes_exactly
          (fun v => exists rest,
             match metadata v with
             | Some {| md_id := Some id |} => id
             | _ => EmptyString
             end = (prefix ++ rest)%string)
          (vectors db) (vectors (fst (deleteKeys db prefix)))
          (snd (deleteKeys db prefix)))
  /\ vectors (reset db) = [].
Proof.
  cbn zeta. unfold deleteVectorsByIndex, deleteKeys. simpl.
  split; [|split; [|split; [|split; [reflexivity|split; [|reflexivity]]]]].
  - apply filter_removes_exactly. intro v.
    rewrite delete_keeps_payloadIndex, negb_false_iff, option_nat_eqb_Some.
    apply payloadIndex_recoverable.
  - intro v. rewrite filter_In, delete_keeps_payloadIndex, negb_true_iff.
    rewrite <- payloadIndex_recoverable, <- option_nat_eqb_Some.
    destruct (option_nat_eqb (payloadIndex v) (Some i)); split; intros [H1 H2];
      split; auto; try discriminate; exfalso; apply H2; reflexivity.
  - intros v j Hin Hnone. apply filter_In. split; [exact Hin|].
    apply payloadIndex_unidentifiable in Hnone.
    rewrite delete_keeps_payloadIndex, Hnone. reflexivity.
  - intro prefix. apply filter_removes_exactly. intro v.
    rewrite negb_false_iff, startsWith_spec. unfold metadata_id, or_empty.
    destruct (metadata v) as [[mi [id|]]|]; reflexivity.
Qed.

(** A chunk with neither a tag nor metadata is removed by [deleteKeys('')],
    whose prefix every id starts with, and by [reset()]. *)
Lemma deleteKeys_unidentifiable_counterexample :
  let c := {| pageContent := Some "second half of a long answer";
              vector := [1; 0]%float; metadata := None |} in
  let db := {| vectors := [c]; dimensions := Some 2 |} in
  unidentifiable c
  /\ deleteVectorsByIndex db 0 = (db, 0)
  /\ deleteKeys db "" = ({| vectors := []; dimensions := Some 2 |}, 1)
  /\ reset db = {| vectors := []; dimensions := Some 2 |}.
Proof.
  cbn zeta. split; [apply payloadIndex_unidentifiable; reflexivity|].
  repeat split; reflexivity.
Qed.

(* ================================================================== *)
(** * Properties of the cosine search *)
(* ================================================================== *)

(** The three accumulators of the loop are the three sums. *)
Lemma cosine_loop_sums (vecA vecB : list float) :
  List.length vecA = List.length vecB ->
  forall d na nb,
    cosine_loop vecA vecB (d, na, nb) =
    (fold_left (fun acc ab => (acc + fst ab * snd ab)%float) (combine vecA vecB) d,
     fold_left (fun acc a => (acc + a * a)%float) vecA na,
     fold_left (fun acc a => (acc + a * a)%float) vecB nb).
Proof.
  revert vecB. induction vecA as [|a vecA IH]; intros [|b vecB] Hlen d na nb;
    simpl in Hlen; try discriminate; [reflexivity|].
  simpl. apply IH. lia.
Qed.

(** The score of two arrays, written out. *)
Lemma cosineSimilarity_formula (q v : list float) :
  cosineSimilarity q v =
  if Nat.eqb (List.length q) (List.length v) then
    if ((sum_of_squares q =? 0) || (sum_of_squares v =? 0))%float then 0%float
    else (sum_of_products q v
          / (PrimFloat.sqrt (sum_of_squares q) * PrimFloat.sqrt (sum_of_squares v)))%float
  else 0%float.
Proof.
  unfold cosineSimilarity.
  destruct (Nat.eqb_spec (List.length q) (List.length v)) as [E|E]; [|reflexivity].
  cbn [negb]. rewrite (cosine_loop_sums q v E). reflexivity.
Qed.

(** The guard at the head of [cosineSimilarity]. *)
Lemma cosineSimilarity_length_mismatch (q v : list float) :
  List.length q <> List.length v -> cosineSimilarity q v = 0%float.
Proof.
  intro Hlen. unfold cosineSimilarity.
  destruct (Nat.eqb_spec (List.length q) (List.length v)); [contradiction|reflexivity].
Qed.

Section StableSort.
Variable A : Type.
Variable compare : A -> A -> float.

Lemma js_sort_insert_perm (x : A) (l : list A) :
  Permutation (js_sort_insert compare x l) (x :: l).
Proof.
  induction l as [|y ys IH]; simpl; [apply Permutation_refl|].
  destruct (sorts_after compare x y).
  - eapply Permutation_trans; [apply perm_skip, IH | apply perm_swap].
  - apply Permutation_refl.
Qed.

Lemma js_sort_perm (l : list A) : Permutation (js_sort compare l) l.
Proof.
  induction l as [|x l IH]; simpl; [constructor|].
  eapply Permutation_trans; [apply js_sort_insert_perm|].
  apply perm_skip, IH.
Qed.

(** What a consistent comparison function gives on the elements of the
    array. *)
Lemma consistent_comparator_spec (l : list A) :
  consistent_comparator compare l = true ->
  (forall a b, In a l -> In b l ->
     sorts_after compare a b = true -> sorts_after compare b a = false)
  /\ (forall a b c, In a l -> In b l -> In c l ->
        sorts_after compare a c = true ->
        sorts_after compare a b = true \/ sorts_after compare b c = true).
Proof.
  unfold consistent_comparator. intro H. rewrite forallb_forall in H.
  split.
  - intros a b Ha Hb Hab. specialize (H a Ha). rewrite forallb_forall in H.
    specialize (H b Hb). apply andb_prop in H. destruct H as [H _].
    apply andb_prop in H. destruct H as [_ H]. rewrite Hab in H. simpl in H.
    apply negb_true_iff, H.
  - intros a b c Ha Hb Hc Hac. specialize (H a Ha). rewrite forallb_forall in H.
    specialize (H b Hb). apply andb_prop in H. destruct H as [_ H].
    rewrite forallb_forall in H. specialize (H c Hc). rewrite Hac in H.
    simpl in H. apply orb_prop, H.
Qed.

Variable universe : list A.
Hypothesis asymmetric : forall a b, In a universe -> In b universe ->
  sorts_after compare a b = true -> sorts_after compare b a = false.
Hypothesis co_transitive : forall a b c,
  In a universe -> In b universe -> In c universe ->
  sorts_after compare a c = true ->
  sorts_after compare a b = true \/ sorts_after compare b c = true.

Lemma js_sort_insert_sorted (x : A) (l : list A) :
  incl (x :: l) universe ->
  StronglySorted (fun a b => sorts_after compare a b = false) l ->
  StronglySorted (fun a b => sorts_after compare a b = false)
                 (js_sort_insert compare x l).
Proof.
  intros Hin Hs. induction Hs as [|y ys Hs IH Hall]; simpl.
  - constructor; constructor.
  - assert (Hx : In x universe) by (apply Hin; left; reflexivity).
    assert (Hy : In y universe) by (apply Hin; right; left; reflexivity).
    destruct (sorts_after compare x y) eqn:Hxy.
    + constructor.
      * apply IH. intros z [<-|Hz]; apply Hin; [left; reflexivity|].
        right. right. exact Hz.
      * apply (Permutation_Forall (Permutation_sym (js_sort_insert_perm x ys))).
        constructor; [apply asymmetric; assumption | exact Hall].
    + constructor; [constructor; assumption|].
      constructor; [exact Hxy|].
      rewrite Forall_forall in Hall |- *. intros z Hz.
      assert (Hz' : In z universe) by (apply Hin; right; right; exact Hz).
      destruct (sorts_after compare x z) eqn:Hxz; [|reflexivity].
      destruct (co_transitive x y z Hx Hy Hz' Hxz) as [H|H]; [congruence|].
      rewrite (Hall z Hz) in H. discriminate.
Qed.

Lemma js_sort_sorted (l : list A) :
  incl l universe ->
  StronglySorted (fun a b => sorts_after compare a b = false) (js_sort compare l).
Proof.
  induction l as [|x l IH]; intro Hin; simpl; [constructor|].
  apply js_sort_insert_sorted.
  - intros z [<-|Hz]; [apply Hin; left; reflexivity|].
    apply Hin. right.
    apply (Permutation_in _ (js_sort_perm l)), Hz.
  - apply IH. intros z Hz. apply Hin. right. exact Hz.
Qed.

Lemma js_sort_insert_stable (e x : A) (l : list A) :
  In e universe -> incl (x :: l) universe ->
  filter (tied compare e) (js_sort_insert compare x l)
  = filter (tied compare e) (x :: l).
Proof.
  intros He. induction l as [|y ys IH]; intro Hin; [reflexivity|].
  assert (Hx : In x universe) by (apply Hin; left; reflexivity).
  assert (Hy : In y universe) by (apply Hin; right; left; reflexivity).
  cbn [js_sort_insert].
  destruct (sorts_after compare x y) eqn:Hxy; [|reflexivity].
  cbn [filter]. rewrite IH.
  2:{ intros z [<-|Hz]; apply Hin; [left; reflexivity | right; right; exact Hz]. }
  cbn [filter]. unfold tied.
  destruct (sorts_after compare x e) eqn:Hxe; cbn [negb andb];
    [destruct (negb (sorts_after compare y e) && negb (sorts_after compare e y));
     reflexivity|].
  destruct (sorts_after compare e y) eqn:Hey; cbn [negb andb];
    [rewrite andb_false_r; reflexivity|].
  exfalso.
  destruct (co_transitive x e y Hx He Hy Hxy) as [H|H]; congruence.
Qed.

Lemma js_sort_stable (e : A) (l : list A) :
  In e universe -> incl l universe ->
  filter (tied compare e) (js_sort compare l) = filter (tied compare e) l.
Proof.
  intro He. induction l as [|x l IH]; intro Hin; [reflexivity|].
  cbn [js_sort fold_right]. fold (js_sort compare l).
  rewrite js_sort_insert_stable; [|exact He|].
  - cbn [filter]. rewrite IH; [reflexivity|].
    intros z Hz. apply Hin. right. exact Hz.
  - intros z [<-|Hz]; [apply Hin; left; reflexivity|].
    apply Hin. right. apply (Permutation_in _ (js_sort_perm l)), Hz.
Qed.
End StableSort.

Lemma firstn_filter_prefix {A : Type} (f : A -> bool) (k : nat) (l : list A) :
  exists rest, filter f l = filter f (firstn k l) ++ rest.
Proof.
  exists (filter f (skipn k l)).
  rewrite <- filter_app, firstn_skipn. reflexivity.
Qed.

(** C4, as the code has it.  For every store, query vector and [k]:
    [similaritySearch] makes of each stored chunk one result that carries the
    text and the metadata of the chunk and its score.  The score is computed
    in double precision: it is 0 when the vector of the chunk and the query
    differ in length, and 0 when the sum of the squares of either is zero;
    otherwise it is the sum of the products divided by the product of the
    square roots of the two sums of squares, every operation rounded.  The
    function returns the first [k] elements of a rearrangement of those
    results.  When the comparison of the scores by the sign of their
    difference is consistent on the results, no result of the rearrangement
    is followed by one whose score exceeds its own by a positive difference,
    and the results that the comparison does not order keep their insertion
    order, so that among the returned results of one class the
    earlier-inserted come first and none is passed over. *)
Theorem similaritySearch_sorted_stable
    (db : SimpleMemoryVectorDatabase) (q : list float) (k : nat) :
  let by_score := fun a b : SearchResult => (score b - score a)%float in
  let scored :=
    map (fun c => {| res_pageContent := pageContent c;
                     res_metadata := metadata c;
                     score := cosineSimilarity q (vector c) |}) (vectors db) in
  (forall v,
     cosineSimilarity q v =
     if Nat.eqb (List.length q) (List.length v) then
       if ((sum_of_squares q =? 0) || (sum_of_squares v =? 0))%float then 0%float
       else (sum_of_products q v
             / (PrimFloat.sqrt (sum_of_squares q)
                * PrimFloat.sqrt (sum_of_squares v)))%float
     else 0%float)
  /\ exists ranked,
       similaritySearch db q k = firstn k ranked
       /\ Permutation ranked scored
       /\ (consistent_comparator by_score scored = true ->
           StronglySorted (fun a b => (0 <? score b - score a)%float = false) ranked
           /\ (forall e, In e scored ->
                 filter (tied by_score e) ranked = filter (tied by_score e) scored)
           /\ (forall e, In e scored ->
                 exists rest,
                   filter (tied by_score e) scored =
                   filter (tied by_score e) (similaritySearch db q k) ++ rest)).
Proof.
  cbn zeta. split; [apply cosineSimilarity_formula|].
  set (by_score := fun a b : SearchResult => (score b - score a)%float).
  set (scored := map _ (vectors db)).
  exists (js_sort by_score scored).
  split; [reflexivity|]. split; [apply js_sort_perm|].
  intro Hc. apply consistent_comparator_spec in Hc. destruct Hc as [Hasym Hco].
  split; [|split].
  - apply (js_sort_sorted _ by_score scored Hasym Hco). apply incl_refl.
  - intros e He.
    apply (js_sort_stable _ by_score scored Hco); [exact He | apply incl_refl].
  - intros e He.
    rewrite <- (js_sort_stable _ by_score scored Hco e scored He (incl_refl _)).
    apply firstn_filter_prefix.
Qed.

(** A store of three chunks, of which the first and the last have the score
    of the query [[1; 0]] in common. *)
Lemma similaritySearch_sorted_stable_witness :
  let c (text : string) (v : list float) :=
    {| pageContent := Some text; vector := v; metadata := None |} in
  let db := {| vectors := [c "first" [2; 0]; c "second" [0; 1]; c "third" [4; 0];
                           c "fourth" [1; 1]]%float;
               dimensions := Some 2 |} in
  map res_pageContent (similaritySearch db [1; 0]%float 3)
  = [Some "first"; Some "third"; Some "fourth"]
  /\ exists ranked,
       similaritySearch db [1; 0]%float 3 = firstn 3 ranked
       /\ StronglySorted (fun a b => (0 <? score b - score a)%float = false) ranked.
Proof.
  cbn zeta. split; [vm_compute; reflexivity|].
  destruct (similaritySearch_sorted_stable
              {| vectors :=
                   [ {| pageContent := Some "first"; vector := [2; 0]%float;
                        metadata := None |};
                     {| pageContent := Some "second"; vector := [0; 1]%float;
                        metadata := None |};
                     {| pageContent := Some "third"; vector := [4; 0]%float;
                        metadata := None |};
                     {| pageContent := Some "fourth"; vector := [1; 1]%float;
                        metadata := None |} ];
                 dimensions := Some 2 |} [1; 0]%float 3)
    as [_ [ranked [H1 [_ H3]]]].
  exists ranked. split; [exact H1|].
  exact (proj1 (H3 eq_refl)).
Defined.

(** A score that is not a number is ordered with no other, while the two
    others are ordered: the comparison is not consistent. *)
Example consistent_comparator_nan :
  let r (x : float) :=
    {| res_pageContent := None; res_metadata := None; score := x |} in
  consistent_comparator (fun a b : SearchResult => (score b - score a)%float)
    [r 1%float; r PrimFloat.nan; r 2%float] = false
  /\ consistent_comparator (fun a b : SearchResult => (score b - score a)%float)
       [r 1%float; r PrimFloat.infinity; r 2%float; r PrimFloat.infinity] = true.
Proof. split; reflexivity. Qed.

(** A double whose mantissa is [n] shifted by the opposite of its exponent
    stands for the integer [n]. *)
Lemma float_value_integer (x : float) (m p : positive) (n : Z) :
  Prim2SF x = S754_finite false m (Z.neg p) ->
  Z.pos m = (n * Z.pow_pos 2 p)%Z ->
  float_value x = IZR n.
Proof.
  intros Hx Hm. unfold float_value. rewrite Hx, Hm.
  rewrite mult_IZR, Zpower_pos_powerRZ.
  rewrite Rmult_1_l, Rmult_assoc, <- powerRZ_add by lra.
  change (Z.pos p + Z.neg p)%Z with (Z.pos p + - Z.pos p)%Z.
  rewrite Z.add_opp_diag_r. simpl. lra.
Qed.

Lemma spec_score_parallel_1_1 : spec_score [1; 1]%R [1; 1]%R = 1%R.
Proof.
  unfold spec_score, norm. simpl.
  replace (1 * 1 + (1 * 1 + 0))%R with 2%R by ring.
  assert (H2 : (0 < sqrt 2)%R) by (apply sqrt_lt_R0; lra).
  destruct (Req_dec_T (sqrt 2) 0) as [E|_]; [lra|].
  rewrite sqrt_sqrt by lra. field.
Qed.

Lemma spec_score_parallel_1_3 : spec_score [1; 1]%R [3; 3]%R = 1%R.
Proof.
  unfold spec_score, norm. simpl.
  replace (1 * 1 + (1 * 1 + 0))%R with 2%R by ring.
  replace (3 * 3 + (3 * 3 + 0))%R with 18%R by ring.
  replace (1 * 3 + (1 * 3 + 0))%R with 6%R by ring.
  assert (H2 : (0 < sqrt 2)%R) by (apply sqrt_lt_R0; lra).
  assert (H18 : (0 < sqrt 18)%R) by (apply sqrt_lt_R0; lra).
  destruct (Req_dec_T (sqrt 2) 0) as [E|_]; [lra|].
  destruct (Req_dec_T (sqrt 18) 0) as [E|_]; [lra|].
  rewrite <- sqrt_mult by lra.
  replace (2 * 18)%R with (6 * 6)%R by ring.
  rewrite sqrt_square by lra. field.
Qed.

(** The query [[1; 1]] is parallel to the vectors [[1; 1]] and [[3; 3]] of
    two chunks: over the real numbers both quotients are 1, and the tie
    would be broken for the chunk inserted first.  In double precision the
    first quotient comes out as 0.9999999999999998 and the second to 1: the
    chunk inserted last is ranked first, and it alone is returned for
    [k = 1]. *)
Lemma similaritySearch_rounding_counterexample :
  let a := {| pageContent := Some "[INDEX:0] first"; vector := [1; 1]%float;
              metadata := None |} in
  let b := {| pageContent := Some "[INDEX:1] second"; vector := [3; 3]%float;
              metadata := None |} in
  let db := {| vectors := [a; b]; dimensions := Some 2 |} in
  map float_value [1; 1]%float = [1; 1]%R
  /\ map float_value [3; 3]%float = [3; 3]%R
  /\ spec_score [1; 1]%R [1; 1]%R = 1%R
  /\ spec_score [1; 1]%R [3; 3]%R = 1%R
  /\ similaritySearch db [1; 1]%float 2
     = [ {| res_pageContent := Some "[INDEX:1] second"; res_metadata := None;
            score := 1%float |};
         {| res_pageContent := Some "[INDEX:0] first"; res_metadata := None;
            score := 0x1.ffffffffffffep-1%float |} ]
  /\ map res_pageContent (similaritySearch db [1; 1]%float 1)
     = [Some "[INDEX:1] second"]
  /\ consistent_comparator (fun x y : SearchResult => (score y - score x)%float)
       (map (score_item [1; 1]%float) (vectors db)) = true.
Proof.
  cbn zeta.
  assert (H1 : float_value 1 = 1%R)
    by (apply (float_value_integer 1 4503599627370496 52 1); reflexivity).
  assert (H3 : float_value 3 = 3%R)
    by (apply (float_value_integer 3 6755399441055744 51 3); reflexivity).
  split; [simpl; rewrite H1; reflexivity|].
  split; [simpl; rewrite H3; reflexivity|].
  split; [exact spec_score_parallel_1_1|].
  split; [exact spec_score_parallel_1_3|].
  repeat split; vm_compute; reflexivity.
Qed.

(** ** Multiplication of doubles is commutative *)

Lemma SFmul_comm (prec emax : Z) (x y : spec_float) :
  SFmul prec emax x y = SFmul prec emax y x.
Proof.
  destruct x as [sx|sx| |sx mx ex], y as [sy|sy| |sy my ey]; simpl;
    rewrite ?(xorb_comm sx sy); try reflexivity.
  rewrite (Pos.mul_comm mx my), (Z.add_comm ex ey). reflexivity.
Qed.

Lemma float_mul_comm (x y : float) : (x * y = y * x)%float.
Proof.
  apply Prim2SF_inj. rewrite !mul_spec. apply SFmul_comm.
Qed.

(* ================================================================== *)
(** * Properties of the search entry point *)
(* ================================================================== *)

Lemma bind_Return_inv {A B : Type} (m : M A) (k : A -> M B)
    (st st' : State) (b : B) (ev : list Event) :
  bind m k st = (Return b, st', ev) ->
  exists a st1 ev1 ev2,
    m st = (Return a, st1, ev1) /\ k a st1 = (Return b, st', ev2)
    /\ ev = ev1 ++ ev2.
Proof.
  unfold bind. destruct (m st) as [[[a|e] st1] ev1]; [|discriminate].
  destruct (k a st1) as [[o st2] ev2] eqn:Hk. intro H. inversion H; subst.
  exists a, st1, ev1, ev2. auto.
Qed.

Lemma mapi_from_length {A B : Type} (f : A -> nat -> B) (s : nat) (l : list A) :
  List.length (mapi_from f s l) = List.length l.
Proof.
  revert s. induction l as [|x l IH]; intro s; simpl; [reflexivity|].
  rewrite IH. reflexivity.
Qed.

Lemma mapi_from_nth_error {A B : Type} (f : A -> nat -> B) (s : nat) (l : list A)
    (j : nat) :
  nth_error (mapi_from f s l) j = option_map (fun x => f x (s + j)) (nth_error l j).
Proof.
  revert s j. induction l as [|x l IH]; intros s [|j]; simpl; try reflexivity.
  - rewrite Nat.add_0_r. reflexivity.
  - rewrite IH. rewrite Nat.add_succ_r. reflexivity.
Qed.

Lemma nth_error_firstn_lt {A : Type} (l : list A) (k j : nat) :
  j < k -> nth_error (firstn k l) j = nth_error l j.
Proof.
  revert k j. induction l as [|x l IH]; intros [|k] [|j] H; simpl;
    try reflexivity; try lia.
  apply IH. lia.
Qed.

(** What a normal return of [searchSimilarQuestions] is made of. *)
Lemma searchSimilarQuestions_Return (env : Env) (userQuestion : string) (topK : nat)
    (st st' : State) (hits : list SimilarQuestion) (ev : list Event) :
  searchSimilarQuestions env userQuestion topK st = (Return hits, st', ev) ->
  exists db results,
    ragApp st' = Some db
    /\ rag_search env db userQuestion = Some results
    /\ hits = similarQuestions_of (or_nil (questionsData st'))
                                  (chunkMetadataMap st') results topK.
Proof.
  unfold searchSimilarQuestions. intro H.
  apply bind_Return_inv in H. destruct H as (s0 & st0 & e0 & e0' & _ & H & _).
  apply bind_Return_inv in H. destruct H as (u & st1 & e1 & e1' & _ & H & _).
  apply bind_Return_inv in H. destruct H as (results & st2 & e2 & e2' & Hs & H & _).
  apply bind_Return_inv in H. destruct H as (s3 & st3 & e3 & e3' & Hg & H & _).
  unfold get in Hg. inversion Hg; subst. clear Hg.
  unfold search in Hs.
  apply bind_Return_inv in Hs. destruct Hs as (s4 & st4 & e4 & e4' & Hg & Hs & _).
  unfold get in Hg. inversion Hg; subst. clear Hg.
  destruct (ragApp st4) as [db|] eqn:Hdb; [|discriminate].
  destruct (rag_search env db userQuestion) as [res|] eqn:Hres; [|discriminate].
  unfold ret in Hs. inversion Hs; subst. clear Hs.
  exists db, results.
  destruct (questionsData st3) as [qd|] eqn:Hqd.
  - unfold ret in H. inversion H; subst. rewrite Hqd. auto.
  - destruct (existsb _ (firstn topK results)); [discriminate|].
    unfold ret in H. inversion H; subst. rewrite Hqd. auto.
Qed.

(** Each of the first [topK] results yields the entry at its own position. *)
Lemma similarQuestions_of_nth (questionsData0 : list QARecord)
    (chunkMetadataMap0 : MetadataMap) (results : list SearchResult) (topK j : nat)
    (r : SearchResult) :
  nth_error results j = Some r -> j < topK ->
  nth_error (similarQuestions_of questionsData0 chunkMetadataMap0 results topK) j
  = Some (format_result questionsData0 chunkMetadataMap0 r j).
Proof.
  intros Hr Hj. unfold similarQuestions_of, mapi.
  rewrite mapi_from_nth_error, nth_error_firstn_lt by exact Hj.
  rewrite Hr. reflexivity.
Qed.

Lemma format_result_rank_similarity (questionsData0 : list QARecord)
    (chunkMetadataMap0 : MetadataMap) (r : SearchResult) (j : nat) :
  rank (format_result questionsData0 chunkMetadataMap0 r j) = j + 1
  /\ similarity (format_result questionsData0 chunkMetadataMap0 r j)
     = or_zero (score r).
Proof.
  unfold format_result.
  destruct (match match_INDEX (or_empty (res_pageContent r)) with
            | Some ds => _ | None => _ end) as [[[[[? ?] ?] ?] ?] ?].
  split; reflexivity.
Qed.

Lemma format_result_index (questionsData0 : list QARecord)
    (chunkMetadataMap0 : MetadataMap) (r : SearchResult) (j i : nat) :
  result_payloadIndex r = Some i ->
  hit_index (format_result questionsData0 chunkMetadataMap0 r j) = Some i.
Proof.
  unfold result_payloadIndex, format_result, fields_of_record.
  destruct (match_INDEX (or_empty (res_pageContent r))) as [ds|].
  - intro H. inversion H; subst.
    destruct (nth_error questionsData0 (parseInt ds)); reflexivity.
  - destruct (res_metadata r) as [[[mi|]]|]; try discriminate.
    intro H. inversion H; subst.
    destruct (nth_error questionsData0 i); reflexivity.
Qed.

Lemma format_result_unresolved (questionsData0 : list QARecord)
    (chunkMetadataMap0 : MetadataMap) (r : SearchResult) (j i : nat) :
  result_payloadIndex r = Some i ->
  nth_error questionsData0 i = None ->
  format_result questionsData0 chunkMetadataMap0 r j =
  {| hit_index := Some i; hit_question := ""; hit_answer := "";
     hit_category := ""; hit_audience := ""; hit_keywords := [];
     similarity := or_zero (score r); rank := j + 1 |}.
Proof.
  unfold result_payloadIndex, format_result, fields_of_record.
  destruct (match_INDEX (or_empty (res_pageContent r))) as [ds|].
  - intros H Hn. inversion H; subst. rewrite Hn. reflexivity.
  - destruct (res_metadata r) as [[[mi|]]|]; try discriminate.
    intros H Hn. inversion H; subst. rewrite Hn. reflexivity.
Qed.

(** C1, as the code has it.  The list [searchSimilarQuestions] returns has
    one entry for each of the first [k] raw results, in their order: its
    length is the smaller of [k] and the number of raw results, and the entry
    at position [j] has rank [j + 1], the score of the raw result at [j], and
    the payload index of that result when it has one.  Results of one
    payload index are not merged. *)
Theorem searchSimilarQuestions_one_entry_per_result
    (env : Env) (userQuestion : string) (k : nat)
    (st st' : State) (hits : list SimilarQuestion) (ev : list Event) :
  searchSimilarQuestions env userQuestion k st = (Return hits, st', ev) ->
  exists db results,
    ragApp st' = Some db
    /\ rag_search env db userQuestion = Some results
    /\ List.length hits = Nat.min k (List.length results)
    /\ forall j r, nth_error results j = Some r -> j < k ->
         exists h, nth_error hits j = Some h
                   /\ rank h = j + 1
                   /\ similarity h = or_zero (score r)
                   /\ forall i, result_payloadIndex r = Some i -> hit_index h = Some i.
Proof.
  intro H. apply searchSimilarQuestions_Return in H.
  destruct H as (db & results & Hdb & Hres & ->).
  exists db, results. split; [exact Hdb|]. split; [exact Hres|]. split.
  - unfold similarQuestions_of, mapi. rewrite mapi_from_length. apply length_firstn.
  - intros j r Hr Hj.
    exists (format_result (or_nil (questionsData st')) (chunkMetadataMap st') r j).
    split; [apply similarQuestions_of_nth; assumption|].
    split; [apply format_result_rank_similarity|].
    split; [apply format_result_rank_similarity|].
    intros i Hi. apply format_result_index, Hi.
Qed.

(** C3, as the code has it.  A raw result among the first [k] whose payload
    index has no record in [questionsData] is not skipped: the returned list
    has an entry for it at its position, with that index, empty question,
    answer, category and audience, no keywords, and the score and rank of
    the result. *)
Theorem searchSimilarQuestions_keeps_unresolved
    (env : Env) (userQuestion : string) (k : nat)
    (st st' : State) (hits : list SimilarQuestion) (ev : list Event) :
  searchSimilarQuestions env userQuestion k st = (Return hits, st', ev) ->
  exists db results,
    ragApp st' = Some db
    /\ rag_search env db userQuestion = Some results
    /\ forall j r i, nth_error results j = Some r -> j < k ->
         result_payloadIndex r = Some i ->
         nth_error (or_nil (questionsData st')) i = None ->
         nth_error hits j =
         Some {| hit_index := Some i; hit_question := ""; hit_answer := "";
                 hit_category := ""; hit_audience := ""; hit_keywords := [];
                 similarity := or_zero (score r); rank := j + 1 |}.
Proof.
  intro H. apply searchSimilarQuestions_Return in H.
  destruct H as (db & results & Hdb & Hres & ->).
  exists db, results. repeat (split; [assumption|]).
  intros j r i Hr Hj Hi Hn.
  rewrite (similarQuestions_of_nth _ _ _ _ _ _ Hr Hj).
  f_equal. apply format_result_unresolved; assumption.
Qed.

Lemma searchSimilarQuestions_one_entry_per_result_witness :
  exists db results,
    ragApp initialized_state = Some db
    /\ rag_search one_chunk_env db "password" = Some results
    /\ List.length (similarQuestions_of [password_record] [] raw_results 2)
       = Nat.min 2 (List.length results)
    /\ forall j r, nth_error results j = Some r -> j < 2 ->
         exists h,
           nth_error (similarQuestions_of [password_record] [] raw_results 2) j = Some h
           /\ rank h = j + 1
           /\ similarity h = or_zero (score r)
           /\ forall i, result_payloadIndex r = Some i -> hit_index h = Some i.
Proof.
  apply (searchSimilarQuestions_one_entry_per_result
           one_chunk_env "password" 2 initialized_state initialized_state _ []).
  reflexivity.
Defined.

(** Two chunks of record 0 are among the raw results, and both are
    returned: the list has two entries of payload index 0. *)
Lemma searchSimilarQuestions_duplicates_counterexample :
  exists hits,
    searchSimilarQuestions one_chunk_env "password" 10 initialized_state
    = (Return hits, initialized_state, [])
    /\ map hit_index hits = [Some 0; Some 0; Some 7]
    /\ ~ NoDup (map hit_index hits).
Proof.
  eexists. split; [reflexivity|]. split; [reflexivity|].
  intro H. inversion H as [|x l Hnotin _]; subst.
  apply Hnotin. left. reflexivity.
Qed.

Lemma searchSimilarQuestions_keeps_unresolved_witness :
  exists db results,
    ragApp initialized_state = Some db
    /\ rag_search one_chunk_env db "hours" = Some results
    /\ forall j r i, nth_error results j = Some r -> j < 3 ->
         result_payloadIndex r = Some i ->
         nth_error (or_nil (questionsData initialized_state)) i = None ->
         nth_error (similarQuestions_of [password_record] [] raw_results 3) j =
         Some {| hit_index := Some i; hit_question := ""; hit_answer := "";
                 hit_category := ""; hit_audience := ""; hit_keywords := [];
                 similarity := or_zero (score r); rank := j + 1 |}.
Proof.
  apply (searchSimilarQuestions_keeps_unresolved
           one_chunk_env "hours" 3 initialized_state initialized_state _ []).
  reflexivity.
Defined.

(** The third raw result names record 7, which the one-record corpus does
    not have; an entry with empty question and answer is returned for it. *)
Lemma searchSimilarQuestions_unresolved_counterexample :
  exists hits h,
    searchSimilarQuestions one_chunk_env "hours" 10 initialized_state
    = (Return hits, initialized_state, [])
    /\ nth_error [password_record] 7 = None
    /\ nth_error hits 2 = Some h
    /\ hit_index h = Some 7
    /\ hit_question h = "" /\ hit_answer h = "".
Proof.
  eexists. eexists. split; [reflexivity|]. split; [reflexivity|].
  split; [reflexivity|]. repeat split.
Qed.

(* ================================================================== *)
(** * Properties of the corpus hasher *)
(* ================================================================== *)

(** ** The order of strings and the sort *)

Lemma string_leb_trans (a b c : string) :
  String.leb a b = true -> String.leb b c = true -> String.leb a c = true.
Proof.
  unfold String.leb. revert b c.
  induction a as [|x a IH]; intros [|y b] [|z c]; simpl; try congruence.
  unfold Ascii.compare.
  destruct (N.compare_spec (N_of_ascii x) (N_of_ascii y)) as [Hxy|Hxy|Hxy];
    destruct (N.compare_spec (N_of_ascii y) (N_of_ascii z)) as [Hyz|Hyz|Hyz];
    destruct (N.compare_spec (N_of_ascii x) (N_of_ascii z)) as [Hxz|Hxz|Hxz];
    try congruence; try lia.
  apply IH.
Qed.

Lemma string_ltb_false_leb (x y : string) :
  String.ltb y x = false -> String.leb x y = true.
Proof.
  unfold String.ltb, String.leb. rewrite (String.compare_antisym x y).
  destruct (String.compare y x); simpl; congruence.
Qed.

Lemma string_ltb_true_leb (x y : string) :
  String.ltb y x = true -> String.leb y x = true.
Proof.
  unfold String.ltb, String.leb. destruct (String.compare y x); congruence.
Qed.

Lemma sort_insert_perm (x : string) (l : list string) :
  Permutation (sort_insert x l) (x :: l).
Proof.
  induction l as [|y ys IH]; simpl; [apply Permutation_refl|].
  destruct (String.ltb y x).
  - eapply Permutation_trans; [apply perm_skip, IH | apply perm_swap].
  - apply Permutation_refl.
Qed.

Lemma sort_strings_perm (l : list string) : Permutation (sort_strings l) l.
Proof.
  induction l as [|x l IH]; simpl; [constructor|].
  eapply Permutation_trans; [apply sort_insert_perm | apply perm_skip, IH].
Qed.

Lemma sort_insert_sorted (x : string) (l : list string) :
  StronglySorted string_le l -> StronglySorted string_le (sort_insert x l).
Proof.
  induction 1 as [|y ys Hs IH Hall]; simpl.
  - constructor; constructor.
  - destruct (String.ltb y x) eqn:E.
    + constructor; [exact IH|].
      apply (Permutation_Forall (Permutation_sym (sort_insert_perm x ys))).
      constructor; [apply string_ltb_true_leb, E | exact Hall].
    + constructor; [constructor; assumption|].
      apply string_ltb_false_leb in E.
      constructor; [exact E|].
      eapply Forall_impl; [|exact Hall].
      intros a Ha. eapply string_leb_trans; eassumption.
Qed.

Lemma sort_strings_sorted (l : list string) :
  StronglySorted string_le (sort_strings l).
Proof.
  induction l as [|x l IH]; simpl; [constructor|].
  apply sort_insert_sorted, IH.
Qed.

(** Two sorted arrangements of the same strings are the same list. *)
Lemma sorted_perm_unique (l1 l2 : list string) :
  StronglySorted string_le l1 -> StronglySorted string_le l2 ->
  Permutation l1 l2 -> l1 = l2.
Proof.
  intro H1. revert l2. induction H1 as [|x xs Hs IH Hx]; intros l2 H2 Hp.
  - apply Permutation_nil in Hp. congruence.
  - destruct H2 as [|y ys Hs2 Hy].
    + apply Permutation_sym, Permutation_nil in Hp. discriminate.
    + assert (Exy : x = y).
      { assert (Hin1 : In x (y :: ys))
          by (eapply Permutation_in; [exact Hp | left; reflexivity]).
        assert (Hin2 : In y (x :: xs))
          by (eapply Permutation_in; [apply Permutation_sym, Hp | left; reflexivity]).
        destruct Hin1 as [E|Hin1]; [congruence|].
        destruct Hin2 as [E|Hin2]; [congruence|].
        rewrite Forall_forall in Hx, Hy.
        apply String.leb_antisym; [apply Hx, Hin2 | apply Hy, Hin1]. }
      subst y. f_equal. apply IH; [exact Hs2|].
      eapply Permutation_cons_inv, Hp.
Qed.

(** The sorted array depends only on the strings, not on their order. *)
Lemma sort_strings_permutation (l1 l2 : list string) :
  Permutation l1 l2 -> sort_strings l1 = sort_strings l2.
Proof.
  intro Hp. apply sorted_perm_unique; try apply sort_strings_sorted.
  eapply Permutation_trans; [apply sort_strings_perm|].
  eapply Permutation_trans; [exact Hp|].
  apply Permutation_sym, sort_strings_perm.
Qed.

(** ** [JSON.stringify] is injective *)

Lemma string_app_assoc (a b c : string) :
  ((a ++ b) ++ c)%string = (a ++ (b ++ c))%string.
Proof. induction a as [|x a IH]; simpl; [reflexivity|]. rewrite IH. reflexivity. Qed.

Lemma string_app_inv_head (a x y : string) :
  (a ++ x)%string = (a ++ y)%string -> x = y.
Proof. induction a as [|c a IH]; simpl; intro H; [exact H|]. inversion H. auto. Qed.

(** Reading back one escaped code unit. *)
Lemma unquote_quote_char (c : ascii) (rest : string) :
  unquote_char (quote_char c ++ rest) = Some (c, rest).
Proof.
  destruct c as [[] [] [] [] [] [] [] []]; reflexivity.
Qed.

Lemma unquote_char_dquote (rest : string) :
  unquote_char (String dquote rest) = None.
Proof. reflexivity. Qed.

Lemma quote_body_inj (s1 s2 r1 r2 : string) :
  (quote_body s1 ++ String dquote r1)%string
  = (quote_body s2 ++ String dquote r2)%string ->
  s1 = s2 /\ r1 = r2.
Proof.
  revert s2. induction s1 as [|c1 s1 IH]; intros [|c2 s2] H; simpl in H.
  - inversion H. auto.
  - apply (f_equal unquote_char) in H.
    rewrite string_app_assoc, unquote_quote_char, unquote_char_dquote in H.
    discriminate.
  - apply (f_equal unquote_char) in H.
    rewrite string_app_assoc, unquote_quote_char, unquote_char_dquote in H.
    discriminate.
  - apply (f_equal unquote_char) in H.
    rewrite !string_app_assoc, !unquote_quote_char in H.
    inversion H; subst. destruct (IH s2 H2) as [-> ->]. auto.
Qed.

Lemma JSON_quote_inj (s1 s2 r1 r2 : string) :
  (JSON_quote s1 ++ r1)%string = (JSON_quote s2 ++ r2)%string ->
  s1 = s2 /\ r1 = r2.
Proof.
  unfold JSON_quote. simpl. intro H. inversion H as [H'].
  rewrite !string_app_assoc in H'. simpl in H'.
  apply quote_body_inj in H'. exact H'.
Qed.

Arguments JSON_quote : simpl never.

(** Two objects with the same keys that stringify alike have the same
    values. *)
Lemma members_inj (ps1 ps2 : list (string * string)) (r1 r2 : string) :
  map fst ps1 = map fst ps2 ->
  (String.concat ","
     (map (fun kv => (JSON_quote (fst kv) ++ ":" ++ JSON_quote (snd kv))%string) ps1)
   ++ String "}" r1)%string
  = (String.concat ","
       (map (fun kv => (JSON_quote (fst kv) ++ ":" ++ JSON_quote (snd kv))%string) ps2)
     ++ String "}" r2)%string ->
  ps1 = ps2 /\ r1 = r2.
Proof.
  revert ps2. induction ps1 as [|[k1 v1] ps1 IH]; intros [|[k2 v2] ps2] Hk H;
    simpl in Hk; try discriminate.
  - simpl in H. inversion H. auto.
  - inversion Hk as [[Hk1 Hk2]]. subst k2.
    destruct ps1 as [|p1 ps1]; destruct ps2 as [|p2 ps2]; try discriminate.
    + cbn [map String.concat fst snd] in H. rewrite !string_app_assoc in H.
      apply JSON_quote_inj in H. destruct H as [_ H].
      apply string_app_inv_head in H.
      apply JSON_quote_inj in H. destruct H as [-> H].
      inversion H. auto.
    + cbn [map String.concat fst snd] in H. rewrite !string_app_assoc in H.
      apply JSON_quote_inj in H. destruct H as [_ H].
      apply string_app_inv_head in H.
      apply JSON_quote_inj in H. destruct H as [-> H].
      apply string_app_inv_head in H.
      specialize (IH (p2 :: ps2) Hk2).
      cbn [map String.concat fst snd] in IH.
      rewrite !string_app_assoc in IH.
      destruct (IH H) as [-> ->]. auto.
Qed.

Lemma JSON_stringify_object_inj (ps1 ps2 : list (string * string)) :
  map fst ps1 = map fst ps2 ->
  JSON_stringify_object ps1 = JSON_stringify_object ps2 -> ps1 = ps2.
Proof.
  intros Hk H. unfold JSON_stringify_object in H. cbn [append] in H.
  inversion H as [H'].
  apply (members_inj ps1 ps2 "" "" Hk) in H'. tauto.
Qed.

(** ** [join(',')] on keywords without commas *)

Lemma string_app_nil_r (a : string) : (a ++ "")%string = a.
Proof. induction a as [|c a IH]; simpl; [reflexivity|]. rewrite IH. reflexivity. Qed.

Lemma concat_cons (sep x : string) (l : list string) :
  String.concat sep (x :: l)
  = (x ++ match l with
          | [] => ""
          | _ :: _ => sep ++ String.concat sep l
          end)%string.
Proof. destruct l; simpl; [rewrite string_app_nil_r|]; reflexivity. Qed.

(** A comma-free word followed by nothing or by a comma is read back
    unambiguously. *)
Lemma plain_prefix_unique (a a' X X' : string) :
  ~ In ","%char (list_ascii_of_string a) ->
  ~ In ","%char (list_ascii_of_string a') ->
  (X = "" \/ exists Y, X = String "," Y) ->
  (X' = "" \/ exists Y, X' = String "," Y) ->
  (a ++ X)%string = (a' ++ X')%string -> a = a' /\ X = X'.
Proof.
  revert a'. induction a as [|c a IH]; intros [|c' a'] Ha Ha' HX HX' H; simpl in *.
  - auto.
  - destruct HX as [->|[Y ->]]; [discriminate|].
    inversion H; subst. exfalso. apply Ha'. left. reflexivity.
  - destruct HX' as [->|[Y ->]]; [discriminate|].
    inversion H; subst. exfalso. apply Ha. left. reflexivity.
  - inversion H; subst.
    destruct (IH a') as [-> ->]; auto.
Qed.

Lemma join_plain_inj (l1 l2 : list string) :
  Forall plain_keyword l1 -> Forall plain_keyword l2 ->
  String.concat "," l1 = String.concat "," l2 -> l1 = l2.
Proof.
  intro H1. revert l2. induction H1 as [|x l1 [Hx Hxc] Hl1 IH]; intros l2 H2 H.
  - destruct H2 as [|y l2 [Hy Hyc] Hl2]; [reflexivity|].
    rewrite concat_cons in H. simpl in H.
    destruct y; [congruence | discriminate].
  - destruct H2 as [|y l2 [Hy Hyc] Hl2].
    + rewrite concat_cons in H. simpl in H.
      destruct x; [congruence | discriminate].
    + rewrite !concat_cons in H.
      apply plain_prefix_unique in H; try assumption.
      * destruct H as [-> H]. f_equal.
        destruct l1 as [|a l1]; destruct l2 as [|b l2]; try discriminate;
          [reflexivity|].
        apply IH; [exact Hl2|]. apply (string_app_inv_head "," _ _ H).
      * destruct l1; [left; reflexivity | right; eexists; reflexivity].
      * destruct l2; [left; reflexivity | right; eexists; reflexivity].
Qed.

(** ** The digest is 32 lowercase hexadecimal digits *)

Lemma string_of_list_ascii_length (l : list ascii) :
  String.length (string_of_list_ascii l) = List.length l.
Proof. induction l as [|c l IH]; simpl; [reflexivity|]. rewrite IH. reflexivity. Qed.

Lemma hex_length (bytes : list Z) :
  String.length (MD5.hex bytes) = 2 * List.length bytes.
Proof.
  unfold MD5.hex. rewrite string_of_list_ascii_length.
  induction bytes as [|b bytes IH]; simpl; [reflexivity|]. rewrite IH. lia.
Qed.

Lemma hex_digit_lowercase (n : Z) : lowercase_hex (MD5.hex_digit n).
Proof.
  unfold lowercase_hex, MD5.hex_digit. apply nth_In.
  assert (0 <= n mod 16 < 16)%Z by (apply Z.mod_pos_bound; lia).
  change (List.length (list_ascii_of_string "0123456789abcdef")) with 16. lia.
Qed.

Lemma hex_lowercase (bytes : list Z) :
  Forall lowercase_hex (list_ascii_of_string (MD5.hex bytes)).
Proof.
  unfold MD5.hex. rewrite list_ascii_of_string_of_list_ascii.
  induction bytes as [|b bytes IH]; simpl; [constructor|].
  constructor; [apply hex_digit_lowercase|].
  constructor; [apply hex_digit_lowercase | exact IH].
Qed.

Lemma digest_length (msg : list Z) : List.length (MD5.digest msg) = 16.
Proof.
  unfold MD5.digest.
  destruct (fold_left MD5.process _ MD5.initial) as [[[a b] c] d].
  rewrite !length_app. unfold MD5.le_bytes. rewrite !length_map, !length_seq.
  reflexivity.
Qed.

Lemma md5_hex_format (s : string) :
  String.length (md5_hex s) = 32
  /\ Forall lowercase_hex (list_ascii_of_string (md5_hex s)).
Proof.
  unfold md5_hex. split; [|apply hex_lowercase].
  rewrite hex_length, digest_length. reflexivity.
Qed.

(** ** The canonical form *)

Lemma canonical_form_eq_iff (r r' : QARecord) :
  canonical_form r = canonical_form r' <->
  question r = question r' /\ answer r = answer r'
  /\ or_empty (category r) = or_empty (category r')
  /\ or_empty (audience r) = or_empty (audience r')
  /\ String.concat "," (sort_strings (or_nil (keywords r)))
     = String.concat "," (sort_strings (or_nil (keywords r'))).
Proof.
  unfold canonical_form. split.
  - intro H. apply JSON_stringify_object_inj in H; [|reflexivity].
    inversion H. auto.
  - intros (-> & -> & -> & -> & ->). reflexivity.
Qed.

(** C5, as the code has it.  The fingerprint of a record is the MD5 digest
    of its canonical form, rendered as 32 lowercase hexadecimal digits (128
    bits); it is the same for every permutation of the keywords; two
    records have the same canonical form exactly when they agree on the
    question, the answer, the category and the audience (an absent category
    or audience counting as the empty text) and on the sorted keywords joined
    by commas; and when no keyword of either record is empty or contains a
    comma, records with one canonical form have the same keywords up to
    order. *)
Theorem calculateQuestionHash_fingerprint (r : QARecord) :
  calculateQuestionHash r = md5_hex (canonical_form r)
  /\ String.length (calculateQuestionHash r) = 32
  /\ Forall lowercase_hex (list_ascii_of_string (calculateQuestionHash r))
  /\ (forall ks', Permutation (or_nil (keywords r)) ks' ->
        canonical_form (with_keywords r (Some ks')) = canonical_form r
        /\ calculateQuestionHash (with_keywords r (Some ks'))
           = calculateQuestionHash r)
  /\ (forall r', canonical_form r = canonical_form r' <->
        question r = question r' /\ answer r = answer r'
        /\ or_empty (category r) = or_empty (category r')
        /\ or_empty (audience r) = or_empty (audience r')
        /\ String.concat "," (sort_strings (or_nil (keywords r)))
           = String.concat "," (sort_strings (or_nil (keywords r'))))
  /\ (forall r', Forall plain_keyword (or_nil (keywords r)) ->
        Forall plain_keyword (or_nil (keywords r')) ->
        canonical_form r = canonical_form r' ->
        Permutation (or_nil (keywords r)) (or_nil (keywords r'))).
Proof.
  split; [reflexivity|].
  split; [apply md5_hex_format|]. split; [apply md5_hex_format|].
  split; [|split; [intro r'; apply canonical_form_eq_iff|]].
  - intros ks' Hp.
    assert (E : canonical_form (with_keywords r (Some ks')) = canonical_form r).
    { apply canonical_form_eq_iff. simpl. repeat (split; [reflexivity|]).
      f_equal. apply sort_strings_permutation, Permutation_sym, Hp. }
    split; [exact E|]. unfold calculateQuestionHash. rewrite E. reflexivity.
  - intros r' Hk Hk' H. apply canonical_form_eq_iff in H.
    destruct H as (_ & _ & _ & _ & H).
    apply join_plain_inj in H.
    + eapply Permutation_trans; [apply Permutation_sym, sort_strings_perm|].
      rewrite H. apply sort_strings_perm.
    + apply (Permutation_Forall (Permutation_sym (sort_strings_perm _))), Hk.
    + apply (Permutation_Forall (Permutation_sym (sort_strings_perm _))), Hk'.
Qed.

(** One keyword with a comma in it and two keywords give the same sorted
    join, hence one canonical form and one digest for two keyword sets. *)
Lemma calculateQuestionHash_comma_counterexample :
  let r := with_keywords password_record (Some ["password,reset"]) in
  let r' := with_keywords password_record (Some ["reset"; "password"]) in
  ~ Permutation (or_nil (keywords r)) (or_nil (keywords r'))
  /\ canonical_form r = canonical_form r'
  /\ calculateQuestionHash r = calculateQuestionHash r'.
Proof.
  cbn zeta. split; [|split; vm_compute; reflexivity].
  intro H. apply Permutation_length in H. discriminate.
Qed.

(* ================================================================== *)
(** * Properties of the reconciler *)
(* ================================================================== *)

(** ** Running the sequencing operators *)

Lemma run_eta {A : Type} (r : Outcome A * State * list Event) :
  (let '(o, st, ev) := r in (o, st, [] ++ ev)) = r.
Proof. destruct r as [[o st] ev]. reflexivity. Qed.

Lemma bind_get {B : Type} (k : State -> M B) (st : State) :
  bind get k st = k st st.
Proof. unfold bind, get. apply run_eta. Qed.

Lemma bind_modify {B : Type} (f : State -> State) (k : unit -> M B) (st : State) :
  bind (modify f) k st = k tt (f st).
Proof. unfold bind, modify. apply run_eta. Qed.

Lemma bind_ret {A B : Type} (a : A) (k : A -> M B) (st : State) :
  bind (ret a) k st = k a st.
Proof. unfold bind, ret. apply run_eta. Qed.

Lemma bind_throw {A B : Type} (e : Error) (k : A -> M B) (st : State) :
  bind (throw e) k st = (Throw e, st, []).
Proof. reflexivity. Qed.

Lemma bind_emit {B : Type} (evs : list Event) (k : unit -> M B) (st : State) :
  bind (emit evs) k st = (let '(o, st', ev) := k tt st in (o, st', evs ++ ev)).
Proof. reflexivity. Qed.

Lemma bind_run {A B : Type} (m : M A) (k : A -> M B) (st : State) :
  bind m k st =
  match outcome_of (m st) with
  | Return a =>
      (outcome_of (k a (state_of (m st))), state_of (k a (state_of (m st))),
       events_of (m st) ++ events_of (k a (state_of (m st))))
  | Throw e => (Throw e, state_of (m st), events_of (m st))
  end.
Proof.
  unfold bind, outcome_of, state_of, events_of.
  destruct (m st) as [[[a|e] st1] ev1]; simpl; [|reflexivity].
  destruct (k a st1) as [[o st2] ev2]. reflexivity.
Qed.

Lemma bind_returns {A B : Type} (m : M A) (k : A -> M B) (st st1 : State) (a : A) :
  m st = (Return a, st1, []) -> bind m k st = k a st1.
Proof. intro H. unfold bind. rewrite H. apply run_eta. Qed.

(** ** The embedding loop *)

Lemma embed_question_run (env : Env) (i : nat) (st : State) :
  embed_question env i st =
  match nth_error (or_nil (questionsData st)) i with
  | None => (Throw error_TypeError, st, [])
  | Some q =>
      let st1 :=
        set_chunkMetadataMap (map_set i (metadata_of i q) (chunkMetadataMap st)) st in
      match addLoader_chunks env (textWithMetadata i q) with
      | Some chunks =>
          (Return tt,
           set_ragApp (Some (fst (insertChunks (vectorDatabase st1) chunks))) st1,
           [call_addLoader i (textWithMetadata i q)])
      | None =>
          (Throw (error_addLoader i), st1, [call_addLoader i (textWithMetadata i q)])
      end
  end.
Proof.
  unfold embed_question. rewrite bind_get.
  destruct (nth_error (or_nil (questionsData st)) i) as [q|]; [|reflexivity].
  rewrite bind_modify. unfold addLoader. rewrite bind_emit.
  destruct (addLoader_chunks env (textWithMetadata i q)); reflexivity.
Qed.

(** What one pass through the loop leaves untouched, and what it emits. *)
Lemma embed_question_frame (env : Env) (i : nat) (st : State) :
  let run := embed_question env i st in
  files (state_of run) = files st
  /\ questionsData (state_of run) = questionsData st
  /\ isInitialized (state_of run) = isInitialized st
  /\ match outcome_of run with
     | Return _ =>
         exists text, events_of run = [call_addLoader i text]
                      /\ addLoader_chunks env text <> None
     | Throw e =>
         (e = error_TypeError /\ events_of run = [])
         \/ (exists text, e = error_addLoader i
                          /\ events_of run = [call_addLoader i text]
                          /\ addLoader_chunks env text = None)
     end.
Proof.
  cbn zeta. rewrite embed_question_run.
  destruct (nth_error (or_nil (questionsData st)) i) as [q|]; simpl.
  - destruct (addLoader_chunks env (textWithMetadata i q)) eqn:E; simpl.
    + repeat (split; [reflexivity|]). eexists. split; [reflexivity|]. congruence.
    + repeat (split; [reflexivity|]). right. eexists. auto.
  - repeat (split; [reflexivity|]). left. auto.
Qed.

(** The loop: it touches neither the files nor [questionsData] nor
    [isInitialized]; it emits only [addLoader] calls; when it returns, every
    index was embedded, in order; when it throws, the calls before the last
    succeeded and, for a rejected call, the rejected call is the last
    event. *)
Lemma for_each_embed (env : Env) (l : list nat) (st : State) :
  let run := for_each l (embed_question env) st in
  files (state_of run) = files st
  /\ questionsData (state_of run) = questionsData st
  /\ isInitialized (state_of run) = isInitialized st
  /\ writes_of (events_of run) = []
  /\ match outcome_of run with
     | Return _ =>
         Forall (call_succeeds env) (events_of run)
         /\ exists texts, List.length texts = List.length l
              /\ events_of run = map (fun it => call_addLoader (fst it) (snd it))
                                     (combine l texts)
     | Throw e =>
         exists pre last,
           events_of run = pre ++ last
           /\ Forall (call_succeeds env) pre
           /\ calls_of pre = pre
           /\ ((e = error_TypeError /\ last = [])
               \/ exists i text, e = error_addLoader i
                                 /\ last = [call_addLoader i text]
                                 /\ addLoader_chunks env text = None)
     end.
Proof.
  cbn zeta. revert st. induction l as [|i l IH]; intro st.
  - simpl. repeat (split; [reflexivity|]). split; [constructor|].
    exists []. auto.
  - simpl for_each. rewrite bind_run.
    pose proof (embed_question_frame env i st) as Hq. cbn zeta in Hq.
    destruct Hq as (Hf & Hd & Hi & Ho).
    destruct (outcome_of (embed_question env i st)) as [[]|e].
    + destruct Ho as (text & Hev & Hok).
      specialize (IH (state_of (embed_question env i st))).
      destruct IH as (Hf' & Hd' & Hi' & Hw' & Ho').
      unfold outcome_of, state_of, events_of in *. simpl.
      split; [congruence|]. split; [congruence|]. split; [congruence|].
      rewrite Hev. simpl. split; [exact Hw'|].
      destruct (fst (fst (for_each l (embed_question env) _))) as [[]|e'].
      * destruct Ho' as (Hall & texts & Hlen & Hev').
        split; [constructor; [exact Hok | exact Hall]|].
        exists (text :: texts). simpl. rewrite Hlen, Hev'. auto.
      * destruct Ho' as (pre & last & Hev' & Hall & Hcalls & Hlast).
        exists (call_addLoader i text :: pre), last.
        rewrite Hev'. split; [reflexivity|].
        split; [constructor; [exact Hok | exact Hall]|].
        split; [simpl; rewrite Hcalls; reflexivity | exact Hlast].
    + unfold outcome_of, state_of, events_of in *. simpl.
      repeat (split; [assumption|]).
      destruct Ho as [[-> Hev]|(text & -> & Hev & Hfail)]; rewrite Hev.
      * split; [reflexivity|]. exists [], []. repeat split; auto.
      * split; [reflexivity|]. exists [], [call_addLoader i text].
        repeat split; auto.
        right. exists i, text. auto.
Qed.

(** ** Closed forms of the steps of a pass *)

Lemma init_vectors (db : SimpleMemoryVectorDatabase) (dims : nat) :
  vectors (init db dims) = vectors db.
Proof.
  unfold init. simpl. destruct (vectors db); reflexivity.
Qed.

Lemma database_eta (db : SimpleMemoryVectorDatabase) :
  {| vectors := vectors db; dimensions := dimensions db |} = db.
Proof. destruct db. reflexivity. Qed.

Lemma loadQuestions_run (st : State) :
  loadQuestions st =
  match corpus_of (files st) with
  | Some data => (Return data, set_questionsData (Some data) st, [])
  | None => (Throw error_loadQuestions, st, [])
  end.
Proof.
  unfold loadQuestions, corpus_of. rewrite bind_get.
  destruct (questions_json (files st)) as [file|]; [|reflexivity].
  destruct (qf_parsed file); [|reflexivity].
  rewrite bind_modify. reflexivity.
Qed.

Lemma calculateQuestionsIndicesHash_run (st : State) :
  calculateQuestionsIndicesHash st =
  match corpus_of (files st) with
  | Some data =>
      (Return (indices_hash_of data),
       set_questionsData (Some (map keywords_sorted_in_place data)) st, [])
  | None => (Return [], st, [])
  end.
Proof.
  unfold calculateQuestionsIndicesHash, try_catch.
  rewrite bind_run, loadQuestions_run.
  destruct (corpus_of (files st)) as [data|]; reflexivity.
Qed.

Lemma findChangedQuestions_run (st : State) (data : list QARecord) :
  corpus_of (files st) = Some data ->
  findChangedQuestions st =
  (Return (compare_ledgers (indices_hash_of data)
                           (or_nil (questions_indices_hash_json (files st)))),
   set_questionsData (Some (map keywords_sorted_in_place data)) st, []).
Proof.
  intro H. unfold findChangedQuestions.
  rewrite bind_run, calculateQuestionsIndicesHash_run, H.
  cbn [outcome_of state_of events_of fst snd].
  unfold getStoredIndicesHash. rewrite bind_run, bind_get.
  cbn [files set_questionsData].
  destruct (questions_indices_hash_json (files st)); reflexivity.
Qed.

Lemma save_hashes_run (env : Env) (st : State) (file : QuestionsFile)
    (data : list QARecord) :
  questions_json (files st) = Some file -> qf_parsed file = Some data ->
  save_hashes env st = (Return tt, hashes_saved env file data st,
                        save_hashes_events env).
Proof.
  intros Hf Hp. unfold save_hashes.
  rewrite bind_run, calculateQuestionsIndicesHash_run.
  unfold corpus_of. rewrite Hf, Hp.
  cbn [outcome_of state_of events_of fst snd].
  unfold saveIndicesHash, calculateQuestionsHash, saveHash, hashes_saved,
    hash_files_saved, save_hashes_events.
  destruct (writeFile_error env QUESTIONS_INDICES_HASH_FILE) as [m1|];
    destruct (writeFile_error env QUESTIONS_HASH_FILE) as [m2|];
    unfold bind, modify, get, emit, ret; simpl; rewrite Hf; try reflexivity;
    destruct st as [f r q i m]; destruct f; reflexivity.
Qed.

Lemma load_all_metadata_run (st : State) :
  load_all_metadata st = (Return tt, metadata_loaded st, []).
Proof. reflexivity. Qed.

Lemma save_cache_run (env : Env) (st : State) :
  save_cache env st =
  (Return tt, cache_saved env st,
   save_cache_events env (List.length (vectors (vectorDatabase st)))).
Proof.
  unfold save_cache, saveToFile, cache_saved, save_cache_events.
  rewrite bind_get.
  destruct (writeFile_error env VECTORS_CACHE_FILE); [reflexivity|].
  rewrite bind_modify. reflexivity.
Qed.

Lemma for_each_delete_run (l : list nat) (st : State) :
  for_each l delete_vectors st = (Return tt, delete_all l st, []).
Proof.
  revert st. induction l as [|i l IH]; intro st; [reflexivity|].
  simpl for_each. unfold delete_vectors at 1, modify_vectorDatabase.
  rewrite bind_modify, IH. reflexivity.
Qed.

Lemma delete_all_cons (i : nat) (l : list nat) (st : State) :
  delete_all (i :: l) st =
  delete_all l (set_ragApp
                  (Some (fst (deleteVectorsByIndex (vectorDatabase st) i))) st).
Proof. reflexivity. Qed.

Lemma delete_all_frame (l : list nat) (st : State) :
  files (delete_all l st) = files st
  /\ questionsData (delete_all l st) = questionsData st
  /\ isInitialized (delete_all l st) = isInitialized st
  /\ chunkMetadataMap (delete_all l st) = chunkMetadataMap st
  /\ dimensions (vectorDatabase (delete_all l st)) = dimensions (vectorDatabase st).
Proof.
  revert st. induction l as [|i l IH]; intro st; [simpl; auto|].
  rewrite delete_all_cons.
  destruct (IH (set_ragApp
                  (Some (fst (deleteVectorsByIndex (vectorDatabase st) i))) st))
    as (H1 & H2 & H3 & H4 & H5).
  rewrite H1, H2, H3, H4, H5. simpl. auto.
Qed.

Lemma delete_all_ragApp (l : list nat) (st : State) :
  ragApp st <> None -> ragApp (delete_all l st) <> None.
Proof.
  revert st. induction l as [|i l IH]; intros st H; [exact H|].
  rewrite delete_all_cons. apply IH. simpl. discriminate.
Qed.

(** ** Closed forms of the branches of a pass *)

Lemma run_triple_eta {A : Type} (r : Outcome A * State * list Event) :
  (fst (fst r), snd (fst r), snd r) = r.
Proof. destruct r as [[o st] ev]. reflexivity. Qed.

Lemma prepend_nil {A : Type} (run : Outcome A * State * list Event) :
  prepend [] run = run.
Proof. destruct run as [[o st] ev]. reflexivity. Qed.

Lemma initializeRAG_initialized (env : Env) (st : State) :
  isInitialized st = true -> initializeRAG env st = (Return tt, st, []).
Proof.
  intro H. unfold initializeRAG. rewrite bind_get, H. reflexivity.
Qed.

Lemma initializeRAG_no_corpus (env : Env) (st : State) :
  isInitialized st = false -> corpus_of (files st) = None ->
  initializeRAG env st = (Throw error_loadQuestions, st, []).
Proof.
  intros H Hc. unfold initializeRAG. rewrite bind_get, H.
  rewrite bind_run, loadQuestions_run, Hc. reflexivity.
Qed.

Lemma initializeRAG_prologue (env : Env) (st : State) (data : list QARecord) :
  isInitialized st = false -> corpus_of (files st) = Some data ->
  initializeRAG env st =
  prepend (load_console (files st))
    (reconcile env (cache_loaded (files st))
       (set_ragApp (Some (loaded_store env (files st)))
                   (set_questionsData (Some data) st))).
Proof.
  intros H Hc. unfold initializeRAG. rewrite bind_get, H.
  rewrite bind_run, loadQuestions_run, Hc.
  cbn [outcome_of state_of events_of fst snd app].
  rewrite bind_get. cbn [files set_questionsData].
  unfold load_console, cache_loaded, loaded_store.
  destruct (loadFromFile new_database (vectors_cache_json (files st)))
    as [[db1 cl] console].
  cbn [fst snd]. rewrite bind_emit. unfold build. rewrite bind_modify, bind_get.
  cbn [vectorDatabase ragApp set_ragApp]. rewrite init_vectors.
  replace (cl && Nat.ltb 0 (List.length (vectors db1))
           && Nat.eqb (List.length (vectors db1)) 0) with false.
  - rewrite bind_ret. unfold prepend.
    destruct (reconcile env cl _) as [[o st'] ev]. reflexivity.
  - destruct (vectors db1); simpl; rewrite ?andb_false_r; reflexivity.
Qed.

Lemma use_cache_unchanged_run (env : Env) (st : State) (file : QuestionsFile)
    (data : list QARecord) :
  questions_json (files st) = Some file -> qf_parsed file = Some data ->
  use_cache_unchanged env st =
  (Return tt,
   hashes_saved env file data (set_isInitialized true (metadata_loaded st)),
   save_hashes_events env).
Proof.
  intros Hf Hp. unfold use_cache_unchanged.
  rewrite bind_run, load_all_metadata_run.
  cbn [outcome_of state_of events_of fst snd app].
  rewrite bind_modify.
  rewrite (save_hashes_run env _ file data); [reflexivity | exact Hf | exact Hp].
Qed.

Lemma reconcile_run (env : Env) (cacheLoaded : bool) (st : State)
    (data : list QARecord) :
  corpus_of (files st) = Some data ->
  reconcile env cacheLoaded st =
  if cacheLoaded && hasVectors (vectorDatabase st) then
    let changes :=
      compare_ledgers (indices_hash_of data)
                      (or_nil (questions_indices_hash_json (files st))) in
    let st' := set_questionsData (Some (map keywords_sorted_in_place data)) st in
    if Nat.eqb (List.length (allChanged changes)) 0
       && Nat.eqb (List.length (deletedIndices changes)) 0
    then use_cache_unchanged env st'
    else incremental_update env changes st'
  else full_rebuild env st.
Proof.
  intro Hc. unfold reconcile. rewrite bind_get.
  destruct (cacheLoaded && hasVectors (vectorDatabase st)); [|reflexivity].
  rewrite bind_run, (findChangedQuestions_run _ data Hc).
  cbn [outcome_of state_of events_of fst snd app]. cbn zeta.
  destruct (Nat.eqb _ 0 && Nat.eqb _ 0); apply run_triple_eta.
Qed.

Lemma cache_saved_questions (env : Env) (st : State) :
  questions_json (files (cache_saved env st)) = questions_json (files st).
Proof.
  unfold cache_saved. destruct (writeFile_error env VECTORS_CACHE_FILE); reflexivity.
Qed.

(** The tail shared by the incremental update and the full rebuild: what
    follows the embedding loop. *)
Lemma after_embedding (env : Env) (file : QuestionsFile) (data : list QARecord)
    (with_metadata : bool) (run : Outcome unit * State * list Event)
    (tail : M unit) :
  questions_json (files (state_of run)) = Some file ->
  qf_parsed file = Some data ->
  tail = (if with_metadata
          then bind load_all_metadata (fun _ =>
               bind (save_cache env) (fun _ =>
               bind (save_hashes env) (fun _ => modify (set_isInitialized true))))
          else bind (save_cache env) (fun _ =>
               bind (save_hashes env) (fun _ => modify (set_isInitialized true)))) ->
  (match outcome_of run with
   | Return a =>
       (outcome_of (tail (state_of run)), state_of (tail (state_of run)),
        events_of run ++ events_of (tail (state_of run)))
   | Throw e => (Throw e, state_of run, events_of run)
   end) =
  match outcome_of run with
  | Return _ =>
      let st1 := if with_metadata then metadata_loaded (state_of run)
                 else state_of run in
      (Return tt,
       set_isInitialized true (hashes_saved env file data (cache_saved env st1)),
       events_of run
       ++ save_cache_events env (List.length (vectors (vectorDatabase st1)))
       ++ save_hashes_events env)
  | Throw e => (Throw e, state_of run, events_of run)
  end.
Proof.
  intros Hf Hp ->. destruct (outcome_of run) as [[]|e]; [|reflexivity].
  destruct with_metadata.
  - rewrite bind_run, load_all_metadata_run.
    cbn [outcome_of state_of events_of fst snd app].
    rewrite !bind_run, save_cache_run.
    cbn [outcome_of state_of events_of fst snd app].
    rewrite (save_hashes_run env _ file data);
      [|rewrite cache_saved_questions; exact Hf | exact Hp].
    unfold modify. cbn [outcome_of state_of events_of fst snd].
    rewrite app_nil_r. reflexivity.
  - rewrite !bind_run, save_cache_run.
    cbn [outcome_of state_of events_of fst snd app].
    rewrite (save_hashes_run env _ file data);
      [|rewrite cache_saved_questions; exact Hf | exact Hp].
    unfold modify. cbn [outcome_of state_of events_of fst snd].
    rewrite app_nil_r. reflexivity.
Qed.

Lemma incremental_update_run (env : Env) (changes : Changes) (st : State)
    (file : QuestionsFile) (data : list QARecord) :
  questions_json (files st) = Some file -> qf_parsed file = Some data ->
  incremental_update env changes st =
  let run :=
    for_each (sort_numbers (changed changes ++ newIndices changes))
             (embed_question env)
             (delete_all (changed changes)
                         (delete_all (deletedIndices changes) st)) in
  match outcome_of run with
  | Return _ =>
      (Return tt,
       set_isInitialized true
         (hashes_saved env file data
            (cache_saved env (metadata_loaded (state_of run)))),
       events_of run
       ++ save_cache_events env
            (List.length (vectors (vectorDatabase (metadata_loaded (state_of run)))))
       ++ save_hashes_events env)
  | Throw e => (Throw e, state_of run, events_of run)
  end.
Proof.
  intros Hf Hp. unfold incremental_update.
  rewrite (bind_returns _ _ _ _ _ (for_each_delete_run _ _)).
  rewrite (bind_returns _ _ _ _ _ (for_each_delete_run _ _)).
  cbn zeta. rewrite bind_run.
  apply (after_embedding env file data true); [|exact Hp|reflexivity].
  pose proof (for_each_embed env
    (sort_numbers (changed changes ++ newIndices changes))
    (delete_all (changed changes) (delete_all (deletedIndices changes) st))) as H.
  cbn zeta in H. destruct H as (H & _). rewrite H.
  destruct (delete_all_frame (changed changes)
              (delete_all (deletedIndices changes) st)) as (H1 & _).
  destruct (delete_all_frame (deletedIndices changes) st) as (H2 & _).
  congruence.
Qed.

Lemma full_rebuild_run (env : Env) (st : State)
    (file : QuestionsFile) (data : list QARecord) :
  questions_json (files st) = Some file -> qf_parsed file = Some data ->
  full_rebuild env st =
  let run :=
    for_each (seq 0 (List.length (or_nil (questionsData st))))
             (embed_question env)
             (set_ragApp (Some (init (vectorDatabase st) (embedder_dimensions env)))
                         st) in
  match outcome_of run with
  | Return _ =>
      (Return tt,
       set_isInitialized true
         (hashes_saved env file data (cache_saved env (state_of run))),
       events_of run
       ++ save_cache_events env
            (List.length (vectors (vectorDatabase (state_of run))))
       ++ save_hashes_events env)
  | Throw e => (Throw e, state_of run, events_of run)
  end.
Proof.
  intros Hf Hp. unfold full_rebuild, build.
  rewrite bind_get, bind_modify, bind_get.
  cbn [questionsData set_ragApp]. cbn zeta.
  rewrite bind_run.
  apply (after_embedding env file data false); [|exact Hp|reflexivity].
  pose proof (for_each_embed env
    (seq 0 (List.length (or_nil (questionsData st))))
    (set_ragApp (Some (init (vectorDatabase st) (embedder_dimensions env))) st)) as H.
  cbn zeta in H. destruct H as (H & _). rewrite H. exact Hf.
Qed.



(** ** The shape of a pass *)

(** A pass over a readable corpus either uses the cache as it is, saving
    the two hash files, or runs an embedding loop from a state with the
    files of the start, and then saves the cache and the two hash files if
    the loop returns, and nothing if it throws. *)
Lemma initializeRAG_shape (env : Env) (st : State)
    (file : QuestionsFile) (data : list QARecord) :
  isInitialized st = false ->
  questions_json (files st) = Some file -> qf_parsed file = Some data ->
  (initializeRAG env st =
     (Return tt, unchanged_result env file data st,
      load_console (files st) ++ save_hashes_events env)
   /\ cache_loaded (files st) = true
   /\ hasVectors (loaded_store env (files st)) = true)
  \/ (exists l base with_metadata,
        files base = files st
        /\ isInitialized base = false
        /\ dimensions (vectorDatabase base) = Some (embedder_dimensions env)
        /\ ragApp base <> None
        /\ (cache_loaded (files st) && hasVectors (loaded_store env (files st)) = false
            -> l = seq 0 (List.length data) /\ with_metadata = false
               /\ base = set_ragApp
                           (Some (init (loaded_store env (files st))
                                       (embedder_dimensions env)))
                           (set_questionsData (Some data) st))
        /\ initializeRAG env st =
           prepend (load_console (files st))
             (embedding_result env file data with_metadata
                (for_each l (embed_question env) base))).
Proof.
  intros Hi Hf Hp.
  assert (Hc : corpus_of (files st) = Some data)
    by (unfold corpus_of; rewrite Hf; exact Hp).
  rewrite (initializeRAG_prologue env st data Hi Hc).
  rewrite (reconcile_run env _ _ data) by exact Hc.
  cbn [vectorDatabase ragApp set_ragApp files set_questionsData].
  destruct (cache_loaded (files st) && hasVectors (loaded_store env (files st)))
    eqn:Huse.
  - cbn zeta.
    destruct (Nat.eqb _ 0 && Nat.eqb _ 0) eqn:Hnone.
    + left. apply andb_prop in Huse. destruct Huse as [Hl Hv].
      split; [|split; assumption].
      rewrite (use_cache_unchanged_run env _ file data);
        [reflexivity | exact Hf | exact Hp].
    + right.
      rewrite (incremental_update_run env _ _ file data); [|exact Hf|exact Hp].
      cbn zeta.
      eexists _, _, true.
      split; [|split; [|split; [|split; [|split; [discriminate | reflexivity]]]]].
      * rewrite (proj1 (delete_all_frame _ _)), (proj1 (delete_all_frame _ _)).
        reflexivity.
      * destruct (delete_all_frame (changed (compare_ledgers (indices_hash_of data)
                   (or_nil (questions_indices_hash_json (files st)))))
                   (delete_all (deletedIndices (compare_ledgers (indices_hash_of data)
                   (or_nil (questions_indices_hash_json (files st)))))
                   (set_questionsData (Some (map keywords_sorted_in_place data))
                     (set_ragApp (Some (loaded_store env (files st)))
                       (set_questionsData (Some data) st)))))
          as (_ & _ & H3 & _).
        rewrite H3.
        rewrite (proj1 (proj2 (proj2 (delete_all_frame _ _)))). exact Hi.
      * rewrite (proj2 (proj2 (proj2 (proj2 (delete_all_frame _ _))))).
        rewrite (proj2 (proj2 (proj2 (proj2 (delete_all_frame _ _))))).
        reflexivity.
      * apply delete_all_ragApp, delete_all_ragApp. simpl. discriminate.
  - right.
    rewrite (full_rebuild_run env _ file data); [|exact Hf|exact Hp].
    cbn [vectorDatabase ragApp set_ragApp questionsData set_questionsData or_nil].
    cbn zeta.
    eexists _, _, false.
    split; [|split; [|split; [|split; [|split; [|reflexivity]]]]].
    + reflexivity.
    + exact Hi.
    + reflexivity.
    + discriminate.
    + intros _. auto.
Qed.

Lemma load_console_quiet (env : Env) (f : Files) :
  writes_of (load_console f) = []
  /\ calls_of (load_console f) = []
  /\ Forall (call_succeeds env) (load_console f)
  /\ saves_of (load_console f) = [].
Proof.
  unfold load_console, loadFromFile.
  destruct (vectors_cache_json f) as [[message|cache]|]; simpl;
    repeat split; repeat constructor.
Qed.

(** The events of the saves hold no call of the embedding framework. *)
Lemma save_events_quiet (env : Env) (count : nat) :
  calls_of (save_cache_events env count ++ save_hashes_events env) = []
  /\ Forall (call_succeeds env) (save_cache_events env count ++ save_hashes_events env)
  /\ calls_of (save_hashes_events env) = []
  /\ Forall (call_succeeds env) (save_hashes_events env).
Proof.
  unfold save_cache_events, save_hashes_events.
  destruct (writeFile_error env VECTORS_CACHE_FILE);
    destruct (writeFile_error env QUESTIONS_INDICES_HASH_FILE);
    destruct (writeFile_error env QUESTIONS_HASH_FILE);
    repeat split; repeat constructor.
Qed.

Lemma prepend_parts {A : Type} (evs : list Event)
    (run : Outcome A * State * list Event) :
  outcome_of (prepend evs run) = outcome_of run
  /\ state_of (prepend evs run) = state_of run
  /\ events_of (prepend evs run) = evs ++ events_of run.
Proof. destruct run as [[o st] ev]. auto. Qed.

Lemma corpus_cases (f : Files) :
  (exists file data, questions_json f = Some file /\ qf_parsed file = Some data)
  \/ corpus_of f = None.
Proof.
  unfold corpus_of. destruct (questions_json f) as [file|]; [|auto].
  destruct (qf_parsed file) as [data|] eqn:E; [|auto].
  left. exists file, data. auto.
Qed.





(** ** The order of the writes *)






(** ** A rejected embedding *)

Lemma split_last_unique (A : list Event) (x y : Event) (pre post : list Event) :
  A ++ [x] = pre ++ y :: post -> ~ In y A -> post = [] /\ y = x.
Proof.
  revert pre. induction A as [|a A IH]; intros [|p pre] H Hn; simpl in H.
  - inversion H. auto.
  - inversion H as [[H1 H2]]. destruct pre; discriminate.
  - inversion H. subst. exfalso. apply Hn. left. reflexivity.
  - inversion H. apply (IH pre); [assumption|].
    intro Hin. apply Hn. right. exact Hin.
Qed.

Lemma rejected_not_among_succeeding (env : Env) (l : list Event)
    (i : nat) (text : string) :
  Forall (call_succeeds env) l -> addLoader_chunks env text = None ->
  ~ In (call_addLoader i text) l.
Proof.
  intros Hall Hfail Hin. rewrite Forall_forall in Hall.
  apply Hall in Hin. simpl in Hin. contradiction.
Qed.

(** C2, as the code has it.  If a call of the embedding framework is
    rejected during a pass, the rejection is thrown out of [initializeRAG]:
    the rejected call is the last event of the pass (no later record is
    embedded), no file is written (the cache, the indices hash and the file
    hash are as before the pass), and the module is left uninitialized, so
    that the next call runs a whole pass again. *)
Theorem embedding_failure_aborts_pass (env : Env) (st : State)
    (pre post : list Event) (i : nat) (text : string) :
  events_of (initializeRAG env st) = pre ++ call_addLoader i text :: post ->
  addLoader_chunks env text = None ->
  outcome_of (initializeRAG env st) = Throw (error_addLoader i)
  /\ post = []
  /\ files (state_of (initializeRAG env st)) = files st
  /\ isInitialized (state_of (initializeRAG env st)) = false
  /\ writes_of (events_of (initializeRAG env st)) = [].
Proof.
  intros Hev Hfail.
  destruct (isInitialized st) eqn:Hi.
  { rewrite initializeRAG_initialized in Hev by exact Hi.
    destruct pre; discriminate. }
  destruct (corpus_cases (files st)) as [(file & data & Hf & Hp)|Hc].
  2:{ rewrite initializeRAG_no_corpus in Hev by assumption.
      destruct pre; discriminate. }
  destruct (load_console_quiet env (files st)) as (Hw & Hcalls & Hok & _).
  assert (Hmem : In (call_addLoader i text) (events_of (initializeRAG env st)))
    by (rewrite Hev; apply in_elt).
  destruct (initializeRAG_shape env st file data Hi Hf Hp)
    as [(E & _)|(l & base & md & Hfb & Hib & _ & _ & _ & E)];
    rewrite E in *; clear E.
  - exfalso. cbn [events_of snd] in Hmem.
    eapply (rejected_not_among_succeeding env _ i text); [|exact Hfail|exact Hmem].
    apply Forall_app. split; [exact Hok | apply (save_events_quiet env 0)].
  - destruct (prepend_parts (load_console (files st))
                (embedding_result env file data md
                   (for_each l (embed_question env) base))) as (Ho & Hs & He).
    rewrite Ho, Hs, He in *.
    pose proof (for_each_embed env l base) as H. cbn zeta in H.
    destruct H as (Hfl & _ & Hil & Hwl & Hout).
    unfold embedding_result in *.
    destruct (outcome_of (for_each l (embed_question env) base)) as [[]|e].
    + exfalso. cbn [events_of snd] in Hmem. destruct Hout as (Hall & _).
      eapply (rejected_not_among_succeeding env _ i text); [|exact Hfail|exact Hmem].
      apply Forall_app. split; [exact Hok|].
      apply Forall_app. split; [exact Hall | apply save_events_quiet].
    + cbn [events_of outcome_of state_of fst snd] in *.
      destruct Hout as (pre' & last & Hrun & Hall & _ & Hlast).
      fold (events_of (for_each l (embed_question env) base)) in *.
      rewrite Hrun in *.
      assert (Hnot : ~ In (call_addLoader i text) (load_console (files st) ++ pre')).
      { apply (rejected_not_among_succeeding env); [|exact Hfail].
        apply Forall_app. auto. }
      destruct Hlast as [[-> ->]|(i0 & text0 & -> & -> & Hfail0)].
      * exfalso. rewrite app_nil_r in Hmem. contradiction.
      * rewrite app_assoc in Hev.
        apply split_last_unique in Hev; [|exact Hnot].
        destruct Hev as [-> Heq]. inversion Heq; subst.
        split; [reflexivity|]. split; [reflexivity|].
        split; [congruence|]. split; [congruence|].
        unfold writes_of in *. rewrite filter_app, Hw. exact Hwl.
Qed.

Lemma embedding_failure_aborts_pass_witness :
  let st := fresh_state [password_record; hours_record] in
  outcome_of (initializeRAG rejecting_env st) = Throw (error_addLoader 0)
  /\ @nil Event = []
  /\ files (state_of (initializeRAG rejecting_env st)) = files st
  /\ isInitialized (state_of (initializeRAG rejecting_env st)) = false
  /\ writes_of (events_of (initializeRAG rejecting_env st)) = [].
Proof.
  apply (embedding_failure_aborts_pass rejecting_env
           (fresh_state [password_record; hours_record])
           [console_log_cache_not_found] []
           0 (textWithMetadata 0 password_record)).
  - vm_compute. reflexivity.
  - vm_compute. reflexivity.
Defined.

(** The provider rejects record 0 and would accept record 1.  The pass
    throws at record 0: record 1 is never handed to the framework and no
    indices hash file is written, so no entry exists for record 1 either. *)
Lemma embedding_failure_counterexample :
  let run := initializeRAG rejecting_env (fresh_state [password_record; hours_record]) in
  outcome_of run = Throw (error_addLoader 0)
  /\ addLoader_chunks rejecting_env (textWithMetadata 1 hours_record) <> None
  /\ calls_of (events_of run)
     = [call_addLoader 0 (textWithMetadata 0 password_record)]
  /\ questions_indices_hash_json (files (state_of run)) = None
  /\ vectors_cache_json (files (state_of run)) = None.
Proof.
  cbn zeta. split; [vm_compute; reflexivity|].
  split; [vm_compute; discriminate|].
  split; [vm_compute; reflexivity|].
  split; vm_compute; reflexivity.
Qed.

(** ** A missing and an unreadable cache *)




(** ** Cached vectors of another dimensionality *)

(** C9, as the code has it.  Loading a cache never looks at the length of
    its vectors: the load succeeds and the store, once told the dimensions of
    the embedder, holds every cached chunk, whatever the length of its
    vector; and a search over that store returns each chunk whose vector
    differs in length from the query vector, with score 0, whenever it is
    asked for at least as many results as there are chunks. *)
Theorem mismatched_vectors_are_kept (cache : CacheJson) (dims : nat) (q : list float) :
  let loaded := loadFromFile new_database (Some (CacheParsed cache)) in
  let db := init (fst (fst loaded)) dims in
  snd (fst loaded) = true
  /\ vectors db = or_nil (cache_vectors cache)
  /\ dimensions db = Some dims
  /\ forall c k, In c (or_nil (cache_vectors cache)) ->
       List.length (vector c) <> List.length q ->
       List.length (vectors db) <= k ->
       In {| res_pageContent := pageContent c; res_metadata := metadata c;
             score := 0%float |}
          (similaritySearch db q k).
Proof.
  cbn zeta. split; [reflexivity|].
  assert (Hv : vectors (init (fst (fst (loadFromFile new_database
                  (Some (CacheParsed cache))))) dims)
               = or_nil (cache_vectors cache))
    by (rewrite init_vectors; reflexivity).
  split; [exact Hv|]. split; [reflexivity|].
  intros c k Hin Hlen Hk. unfold similaritySearch. rewrite Hv in *.
  rewrite firstn_all2.
  - eapply Permutation_in; [apply Permutation_sym, js_sort_perm|].
    replace {| res_pageContent := pageContent c; res_metadata := metadata c;
               score := 0%float |} with (score_item q c).
    + apply in_map, Hin.
    + unfold score_item.
      rewrite cosineSimilarity_length_mismatch by (intro E; apply Hlen; auto).
      reflexivity.
  - rewrite (Permutation_length (js_sort_perm _ _ _)), length_map. exact Hk.
Qed.

(** The cache holds a vector of length 3 and the embedder now yields
    vectors of length 2.  The pass keeps the cache (no record is embedded
    again, the cache file is not rewritten), the vector stays in the store,
    and a search with a query of length 2 returns it with score 0. *)
Lemma mismatched_cache_kept_counterexample :
  let run := initializeRAG one_chunk_env stale_dimension_state in
  outcome_of run = Return tt
  /\ calls_of (events_of run) = []
  /\ writes_of (events_of run) = [write_indices_hash; write_hash]
  /\ map vector (vectors (vectorDatabase (state_of run))) = [[1; 0; 0]%float]
  /\ dimensions (vectorDatabase (state_of run)) = Some 2
  /\ map score (similaritySearch (vectorDatabase (state_of run)) [1; 0]%float 10)
     = [0%float].
Proof.
  cbn zeta. repeat split; vm_compute; reflexivity.
Qed.

(** ** A second pass over an unchanged corpus *)

Lemma md5_hex_not_empty (s : string) : md5_hex s <> "".
Proof.
  intro H. pose proof (proj1 (md5_hex_format s)) as Hl.
  rewrite H in Hl. discriminate.
Qed.







(** ** What JSON keeps of a store *)

















(* ================================================================== *)
(** * Counting, deleting and inserting *)
(* ================================================================== *)

Lemma getVectorCountByIndex_filter (db : SimpleMemoryVectorDatabase) (i : nat) :
  getVectorCountByIndex db i = List.length (filter (count_matches i) (vectors db)).
Proof. reflexivity. Qed.

Lemma count_matches_delete_keeps (i : nat) (v : Chunk) :
  count_matches i v = negb (delete_keeps i v).
Proof.
  unfold count_matches, delete_keeps.
  destruct (match_INDEX (or_empty (pageContent v))) as [ds|]; simpl;
    [rewrite negb_involutive; reflexivity|].
  destruct (metadata v) as [md|]; simpl; [|reflexivity].
  destruct (md_index md); simpl; [rewrite negb_involutive|]; reflexivity.
Qed.

Lemma count_matches_payloadIndex (i : nat) (v : Chunk) :
  count_matches i v = option_nat_eqb (payloadIndex v) (Some i).
Proof.
  rewrite count_matches_delete_keeps, delete_keeps_payloadIndex.
  apply negb_involutive.
Qed.

Lemma count_matches_unique (i j : nat) (v : Chunk) :
  count_matches i v = true -> count_matches j v = true -> i = j.
Proof.
  rewrite !count_matches_payloadIndex.
  destruct (payloadIndex v) as [p|]; simpl; [|discriminate].
  intros H1 H2. apply Nat.eqb_eq in H1, H2. congruence.
Qed.

Lemma filter_filter {A : Type} (f g : A -> bool) (l : list A) :
  filter f (filter g l) = filter (fun x => g x && f x) l.
Proof.
  induction l as [|x l IH]; simpl; [reflexivity|].
  destruct (g x); simpl; [destruct (f x)|]; rewrite IH; reflexivity.
Qed.

Lemma filter_none {A : Type} (f : A -> bool) (l : list A) :
  (forall x, In x l -> f x = false) -> filter f l = [].
Proof.
  induction l as [|x l IH]; simpl; intro H; [reflexivity|].
  rewrite (H x) by auto. apply IH. intros y Hy. apply H. auto.
Qed.

Lemma filter_all {A : Type} (f : A -> bool) (l : list A) :
  (forall x, In x l -> f x = true) -> filter f l = l.
Proof.
  induction l as [|x l IH]; simpl; intro H; [reflexivity|].
  rewrite (H x) by auto. f_equal. apply IH. intros y Hy. apply H. auto.
Qed.

(** X1. The number [deleteVectorsByIndex(i)] returns is the number
    [getVectorCountByIndex(i)] reported before the call; after the call
    [getVectorCountByIndex(i)] is 0, the count at every other index is what it
    was, and [getVectorCount()] has gone down by the number returned. *)
Theorem deleteVectorsByIndex_getVectorCountByIndex
    (db : SimpleMemoryVectorDatabase) (i : nat) :
  let db' := fst (deleteVectorsByIndex db i) in
  snd (deleteVectorsByIndex db i) = getVectorCountByIndex db i
  /\ getVectorCountByIndex db' i = 0
  /\ (forall j, j <> i -> getVectorCountByIndex db' j = getVectorCountByIndex db j)
  /\ getVectorCount db' + getVectorCountByIndex db i = getVectorCount db.
Proof.
  cbn zeta. rewrite !getVectorCountByIndex_filter.
  unfold deleteVectorsByIndex, getVectorCount. cbn [fst snd vectors].
  pose proof (filter_length_split (delete_keeps i) (vectors db)) as Hs.
  rewrite (filter_ext (fun x => negb (delete_keeps i x)) (count_matches i)) in Hs
    by (intro v; symmetry; apply count_matches_delete_keeps).
  split; [lia|]. split; [|split; [|lia]].
  - rewrite filter_filter, filter_none; [reflexivity|].
    intros v _. rewrite count_matches_delete_keeps.
    destruct (delete_keeps i v); reflexivity.
  - intros j Hj. rewrite !getVectorCountByIndex_filter. cbn [vectors].
    rewrite filter_filter. f_equal. apply filter_ext. intro v.
    destruct (count_matches j v) eqn:Ej; [|apply andb_false_r].
    rewrite andb_true_r.
    destruct (delete_keeps i v) eqn:Ei; [reflexivity|].
    exfalso. apply Hj. apply (count_matches_unique j i v Ej).
    rewrite count_matches_delete_keeps, Ei. reflexivity.
Qed.

(** X2. Deleting the chunks of an index a second time removes nothing, and
    the deletions of two indices can be made in either order: the store that
    results is the same. *)
Theorem deleteVectorsByIndex_idempotent_commutes
    (db : SimpleMemoryVectorDatabase) (i j : nat) :
  deleteVectorsByIndex (fst (deleteVectorsByIndex db i)) i
    = (fst (deleteVectorsByIndex db i), 0)
  /\ fst (deleteVectorsByIndex (fst (deleteVectorsByIndex db i)) j)
     = fst (deleteVectorsByIndex (fst (deleteVectorsByIndex db j)) i).
Proof.
  unfold deleteVectorsByIndex. cbn [fst snd vectors dimensions]. split.
  - rewrite filter_filter.
    rewrite (filter_ext (fun x => delete_keeps i x && delete_keeps i x) (delete_keeps i))
      by (intro v; apply andb_diag).
    rewrite Nat.sub_diag. reflexivity.
  - f_equal. rewrite !filter_filter. apply filter_ext. intro v. apply andb_comm.
Qed.

(** X3. [insertChunks] appends: it returns the number of chunks handed to
    it, every chunk already stored keeps its position, the new chunks follow
    in their order, and the count at every index is the count before plus the
    count among the new chunks. *)
Theorem insertChunks_appends (db : SimpleMemoryVectorDatabase) (chunks : list Chunk) :
  let db' := fst (insertChunks db chunks) in
  snd (insertChunks db chunks) = List.length chunks
  /\ getVectorCount db' = getVectorCount db + List.length chunks
  /\ firstn (getVectorCount db) (vectors db') = vectors db
  /\ skipn (getVectorCount db) (vectors db') = chunks
  /\ (forall i, getVectorCountByIndex db' i =
                getVectorCountByIndex db i
                + List.length (filter (count_matches i) chunks))
  /\ dimensions db' = dimensions db.
Proof.
  cbn zeta. unfold insertChunks, getVectorCount. cbn [fst snd vectors dimensions].
  split; [reflexivity|]. split; [apply length_app|].
  split; [rewrite firstn_app, Nat.sub_diag, firstn_all, firstn_O; apply app_nil_r|].
  split; [rewrite skipn_app, Nat.sub_diag, skipn_all; reflexivity|].
  split; [|reflexivity].
  intro i. rewrite !getVectorCountByIndex_filter. cbn [vectors].
  rewrite filter_app. apply length_app.
Qed.

(** X4. Inserting chunks that all carry the index [i] and then deleting the
    index [i] leaves the store that deleting [i] alone leaves, and the
    deletion returns the chunks of [i] that were there plus the inserted
    ones. *)
Theorem insertChunks_then_delete
    (db : SimpleMemoryVectorDatabase) (chunks : list Chunk) (i : nat)
    (Htagged : forall c, In c chunks -> count_matches i c = true) :
  deleteVectorsByIndex (fst (insertChunks db chunks)) i
  = (fst (deleteVectorsByIndex db i),
     getVectorCountByIndex db i + List.length chunks).
Proof.
  unfold deleteVectorsByIndex, insertChunks. cbn [fst snd vectors dimensions].
  rewrite filter_app.
  rewrite (filter_none (delete_keeps i) chunks).
  - rewrite app_nil_r. f_equal. rewrite length_app.
    pose proof (filter_length_split (delete_keeps i) (vectors db)) as Hs.
    rewrite (filter_ext (fun x => negb (delete_keeps i x)) (count_matches i)) in Hs
      by (intro v; symmetry; apply count_matches_delete_keeps).
    rewrite getVectorCountByIndex_filter. lia.
  - intros c Hc. specialize (Htagged c Hc).
    rewrite count_matches_delete_keeps in Htagged.
    destruct (delete_keeps i c); [discriminate|reflexivity].
Qed.

Lemma insertChunks_then_delete_witness :
  deleteVectorsByIndex
    (fst (insertChunks new_database
            [ {| pageContent := Some "[INDEX:4] opening hours";
                 vector := [1; 0]%float; metadata := None |} ])) 4
  = (fst (deleteVectorsByIndex new_database 4),
     getVectorCountByIndex new_database 4 + 1).
Proof.
  apply (insertChunks_then_delete new_database
           [ {| pageContent := Some "[INDEX:4] opening hours";
                vector := [1; 0]%float; metadata := None |} ] 4).
  intros c [<-|[]]. reflexivity.
Defined.


(* ================================================================== *)
(** * Further properties of the cosine search *)
(* ================================================================== *)

Lemma sum_of_products_comm (a b : list float) (d : float) :
  fold_left (fun acc ab => (acc + fst ab * snd ab)%float) (combine a b) d
  = fold_left (fun acc ab => (acc + fst ab * snd ab)%float) (combine b a) d.
Proof.
  revert b d. induction a as [|x a IH]; intros [|y b] d; try reflexivity.
  simpl. rewrite (float_mul_comm x y). apply IH.
Qed.

Lemma cosineSimilarity_zero_norm (q v : list float) :
  (sum_of_squares q =? 0)%float = true -> cosineSimilarity q v = 0%float.
Proof.
  intro Hq. rewrite cosineSimilarity_formula, Hq.
  destruct (Nat.eqb (List.length q) (List.length v)); reflexivity.
Qed.

(** X6. The score is symmetric in its two vectors. *)
Theorem cosineSimilarity_symmetric (a b : list float) :
  cosineSimilarity a b = cosineSimilarity b a.
Proof.
  rewrite !cosineSimilarity_formula.
  rewrite (Nat.eqb_sym (List.length b) (List.length a)).
  destruct (Nat.eqb (List.length a) (List.length b)); [|reflexivity].
  rewrite (orb_comm (sum_of_squares b =? 0)%float).
  destruct ((sum_of_squares a =? 0)%float || (sum_of_squares b =? 0)%float);
    [reflexivity|].
  unfold sum_of_products. rewrite (sum_of_products_comm b a).
  rewrite (float_mul_comm (PrimFloat.sqrt (sum_of_squares b))). reflexivity.
Qed.

(** X8. [similaritySearch] returns [topK] results, or one per stored chunk
    when the store holds fewer; so none when [topK] is 0, and none from a
    store that [reset] has emptied. *)
Theorem similaritySearch_length
    (db : SimpleMemoryVectorDatabase) (q : list float) (topK : nat) :
  List.length (similaritySearch db q topK) = Nat.min topK (getVectorCount db)
  /\ similaritySearch db q 0 = []
  /\ similaritySearch (reset db) q topK = []
  /\ getVectorCount (reset db) = 0
  /\ dimensions (reset db) = dimensions db.
Proof.
  split; [|split; [reflexivity|split; [|split; reflexivity]]].
  - unfold similaritySearch, getVectorCount. rewrite length_firstn.
    rewrite (Permutation_length (js_sort_perm _ _ _)), length_map. reflexivity.
  - unfold similaritySearch, reset. simpl. apply firstn_nil.
Qed.

Lemma js_sort_zero_key {A : Type} (key : A -> float) (l : list A) :
  (forall x, In x l -> key x = 0%float) -> js_sort (descending key) l = l.
Proof.
  induction l as [|x l IH]; intro H; [reflexivity|].
  simpl js_sort. fold (js_sort (descending key) l).
  rewrite IH by (intros y Hy; apply H; right; exact Hy).
  destruct l as [|y l]; [reflexivity|].
  simpl. unfold sorts_after, descending.
  rewrite (H x) by (left; reflexivity).
  rewrite (H y) by (right; left; reflexivity).
  reflexivity.
Qed.

(** X9. For a query vector of norm zero every chunk is scored 0, and
    [similaritySearch] returns the first [topK] chunks of the store in their
    insertion order. *)
Theorem similaritySearch_zero_query
    (db : SimpleMemoryVectorDatabase) (q : list float) (topK : nat)
    (Hq : (sum_of_squares q =? 0)%float = true) :
  similaritySearch db q topK =
  map (fun c => {| res_pageContent := pageContent c;
                   res_metadata := metadata c;
                   score := 0%float |})
      (firstn topK (vectors db)).
Proof.
  unfold similaritySearch.
  rewrite (js_sort_zero_key score).
  - rewrite firstn_map. apply map_ext. intro c. unfold score_item.
    rewrite (cosineSimilarity_zero_norm q (vector c) Hq). reflexivity.
  - intros r Hr. apply in_map_iff in Hr. destruct Hr as (c & <- & _).
    apply (cosineSimilarity_zero_norm q (vector c) Hq).
Qed.

Lemma similaritySearch_zero_query_witness :
  similaritySearch
    {| vectors := [ {| pageContent := Some "[INDEX:0] a"; vector := [0; 1]%float;
                       metadata := None |};
                    {| pageContent := Some "[INDEX:1] b"; vector := [1; 0]%float;
                       metadata := None |} ];
       dimensions := Some 2 |} [0; 0]%float 1
  = [ {| res_pageContent := Some "[INDEX:0] a"; res_metadata := None;
         score := 0%float |} ].
Proof.
  apply (similaritySearch_zero_query
           {| vectors := [ {| pageContent := Some "[INDEX:0] a"; vector := [0; 1]%float;
                              metadata := None |};
                           {| pageContent := Some "[INDEX:1] b"; vector := [1; 0]%float;
                              metadata := None |} ];
              dimensions := Some 2 |} [0; 0]%float 1).
  reflexivity.
Defined.

(* ================================================================== *)
(** * The index tag of an embedded text *)
(* ================================================================== *)

Lemma parseInt_string_of_uint (d : Decimal.uint) (acc : nat) :
  fold_left (fun acc c => 10 * acc + digit_value c)
            (list_ascii_of_string (NilEmpty.string_of_uint d)) acc
  = Nat.of_uint_acc d acc.
Proof.
  revert acc. induction d; intro acc; [reflexivity|..];
    simpl; rewrite IHd; f_equal; rewrite Nat.tail_mul_spec;
    unfold digit_value; simpl; lia.
Qed.

Lemma parseInt_string_of_nat (n : nat) : parseInt (string_of_nat n) = n.
Proof.
  unfold parseInt, string_of_nat. rewrite parseInt_string_of_uint.
  apply Unsigned.of_to.
Qed.

Lemma take_digits_string_of_uint (d : Decimal.uint) (rest : string) :
  take_digits (NilEmpty.string_of_uint d ++ String "]" rest)%string
  = (NilEmpty.string_of_uint d, String "]" rest).
Proof.
  induction d; [reflexivity|..]; simpl; rewrite IHd; reflexivity.
Qed.

Lemma string_of_nat_not_empty (n : nat) : string_of_nat n <> "".
Proof.
  intro H. pose proof (parseInt_string_of_nat n) as Hn. rewrite H in Hn.
  subst n. discriminate H.
Qed.

Lemma match_INDEX_here_found (s ds : string) :
  match_INDEX_here s = Some ds -> match_INDEX s = Some ds.
Proof.
  intro H. destruct s; [discriminate H|].
  cbn [match_INDEX]. rewrite H. reflexivity.
Qed.

Lemma match_INDEX_tag (i : nat) (rest : string) :
  match_INDEX ("[INDEX:" ++ string_of_nat i ++ String "]" rest)%string
  = Some (string_of_nat i).
Proof.
  apply match_INDEX_here_found. unfold match_INDEX_here.
  change (strip_prefix "[INDEX:" ("[INDEX:" ++ string_of_nat i ++ String "]" rest)%string)
    with (Some (string_of_nat i ++ String "]" rest)%string).
  unfold string_of_nat at 1. rewrite take_digits_string_of_uint.
  fold (string_of_nat i).
  destruct (string_of_nat i) eqn:E; [|reflexivity].
  exfalso. apply (string_of_nat_not_empty i E).
Qed.

Lemma textWithMetadata_tag (i : nat) (q : QARecord) :
  exists rest,
    textWithMetadata i q = ("[INDEX:" ++ string_of_nat i ++ String "]" rest)%string.
Proof.
  unfold textWithMetadata. eexists.
  rewrite <- !string_app_assoc.
  change ("][QUESTION:") with (String "]" "[QUESTION:").
  rewrite !string_app_assoc. simpl. reflexivity.
Qed.

(** X11. The text built for record [i] carries its index: whatever the
    fields of the record hold, the tag found in the text is that of [i], so
    that a chunk holding the text (or any text that starts with the tag) is
    counted by [getVectorCountByIndex(i)], removed by
    [deleteVectorsByIndex(i)], kept by the deletion of every other index, and
    resolved to index [i] by [searchSimilarQuestions]. *)
Theorem textWithMetadata_index_round_trip (i : nat) (q : QARecord) :
  option_map parseInt (match_INDEX (textWithMetadata i q)) = Some i
  /\ (forall vec md j,
        let c := {| pageContent := Some (textWithMetadata i q);
                    vector := vec; metadata := md |} in
        count_matches j c = Nat.eqb i j
        /\ delete_keeps j c = negb (Nat.eqb i j))
  /\ (forall questionsData0 chunkMetadataMap0 md s idx,
        hit_index (format_result questionsData0 chunkMetadataMap0
                     {| res_pageContent := Some (textWithMetadata i q);
                        res_metadata := md; score := s |} idx) = Some i).
Proof.
  destruct (textWithMetadata_tag i q) as [rest Ht].
  assert (Hm : match_INDEX (textWithMetadata i q) = Some (string_of_nat i))
    by (rewrite Ht; apply match_INDEX_tag).
  split; [rewrite Hm; simpl; f_equal; apply parseInt_string_of_nat|].
  split.
  - intros vec md j. cbn zeta.
    unfold count_matches, delete_keeps. cbn [pageContent or_empty].
    rewrite Hm, parseInt_string_of_nat. auto.
  - intros qd m md s idx. unfold format_result. cbn [res_pageContent or_empty].
    rewrite Hm, parseInt_string_of_nat. unfold fields_of_record.
    destruct (nth_error qd i); reflexivity.
Qed.
(* ================================================================== *)
(** * The change classifier *)
(* ================================================================== *)

Lemma classify_current_fold (cur stored : Ledger) (l : list nat)
    (acc1 acc2 : list nat) :
  fold_left (classify_current cur stored) l (acc1, acc2) =
  (acc1 ++ filter (fun k => truthy (ledger_get stored k)
                            && strict_neq (ledger_get stored k) (ledger_get cur k)) l,
   acc2 ++ filter (fun k => negb (truthy (ledger_get stored k))) l).
Proof.
  revert acc1 acc2. induction l as [|k l IH]; intros acc1 acc2.
  - simpl. rewrite !app_nil_r. reflexivity.
  - simpl fold_left. cbn [filter].
    destruct (truthy (ledger_get stored k)) eqn:Et;
      [destruct (strict_neq (ledger_get stored k) (ledger_get cur k)) eqn:En|];
      cbn [negb orb andb]; rewrite IH, <- ?app_assoc; reflexivity.
Qed.

Lemma classify_stored_fold (cur : Ledger) (l acc : list nat) :
  fold_left (classify_stored cur) l acc =
  acc ++ filter (fun k => negb (truthy (ledger_get cur k))) l.
Proof.
  revert acc. induction l as [|k l IH]; intro acc.
  - simpl. rewrite app_nil_r. reflexivity.
  - simpl fold_left. cbn [filter]. unfold classify_stored at 2.
    destruct (truthy (ledger_get cur k)) eqn:Et;
      cbn [negb]; rewrite IH, <- ?app_assoc; reflexivity.
Qed.

(** X12. What [findChangedQuestions] reports, for the ledger of the corpus
    and the stored ledger.  An index of the corpus is new when the stored
    ledger has no entry, or an empty one, under it; it is changed when the
    stored entry is not empty and differs from the current one; a key of the
    stored ledger is deleted when the corpus has no entry under it.  Each list
    follows the order of the keys, no index is both changed and new, and
    [allChanged] lists the changed indices and then the new ones. *)
Theorem findChangedQuestions_classification (currentIndicesHash storedIndicesHash : Ledger) :
  let changes := compare_ledgers currentIndicesHash storedIndicesHash in
  changed changes =
    filter (fun k => truthy (ledger_get storedIndicesHash k)
                     && strict_neq (ledger_get storedIndicesHash k)
                                   (ledger_get currentIndicesHash k))
           (map fst currentIndicesHash)
  /\ newIndices changes =
       filter (fun k => negb (truthy (ledger_get storedIndicesHash k)))
              (map fst currentIndicesHash)
  /\ deletedIndices changes =
       filter (fun k => negb (truthy (ledger_get currentIndicesHash k)))
              (map fst storedIndicesHash)
  /\ allChanged changes = changed changes ++ newIndices changes
  /\ (forall k, In k (changed changes) -> ~ In k (newIndices changes)).
Proof.
  cbn zeta. unfold compare_ledgers.
  rewrite classify_current_fold, classify_stored_fold. cbn.
  repeat (split; [reflexivity|]).
  intros k Hc Hn. apply filter_In in Hc. apply filter_In in Hn.
  destruct Hc as [_ Hc]. destruct Hn as [_ Hn].
  destruct (truthy (ledger_get storedIndicesHash k)); discriminate.
Qed.

Lemma compare_ledgers_closed (cur stored : Ledger) :
  compare_ledgers cur stored =
  {| changed :=
       filter (fun k => truthy (ledger_get stored k)
                        && strict_neq (ledger_get stored k) (ledger_get cur k))
              (map fst cur);
     newIndices := filter (fun k => negb (truthy (ledger_get stored k))) (map fst cur);
     deletedIndices := filter (fun k => negb (truthy (ledger_get cur k))) (map fst stored);
     allChanged :=
       filter (fun k => truthy (ledger_get stored k)
                        && strict_neq (ledger_get stored k) (ledger_get cur k))
              (map fst cur)
       ++ filter (fun k => negb (truthy (ledger_get stored k))) (map fst cur) |}.
Proof.
  unfold compare_ledgers.
  rewrite classify_current_fold, classify_stored_fold. reflexivity.
Qed.

Lemma mapi_from_map_fst {A B : Type} (f : A -> B) (s : nat) (l : list A) :
  map fst (mapi_from (fun a i => (i, f a)) s l) = seq s (List.length l).
Proof.
  revert s. induction l as [|a l IH]; intro s; simpl; [reflexivity|].
  rewrite IH. reflexivity.
Qed.

Lemma indices_hash_of_keys (data : list QARecord) :
  map fst (indices_hash_of data) = seq 0 (List.length data).
Proof. apply mapi_from_map_fst. Qed.

Lemma ledger_get_mapi_from {A : Type} (f : A -> string) (s : nat) (l : list A) (k : nat) :
  ledger_get (mapi_from (fun a i => (i, f a)) s l) (s + k) =
  option_map f (nth_error l k).
Proof.
  revert s k. induction l as [|a l IH]; intros s k.
  - destruct k; reflexivity.
  - simpl. destruct k as [|k].
    + rewrite Nat.add_0_r, Nat.eqb_refl. reflexivity.
    + destruct (Nat.eqb_spec s (s + S k)) as [E|_]; [lia|].
      replace (s + S k) with (S s + k) by lia. apply IH.
Qed.

(** The entry of a computed ledger under an index is the hash of the record
    at that index. *)
Lemma ledger_get_indices_hash_of (data : list QARecord) (k : nat) :
  ledger_get (indices_hash_of data) k =
  option_map calculateQuestionHash (nth_error data k).
Proof. apply (ledger_get_mapi_from calculateQuestionHash 0 data k). Qed.

Lemma truthy_hash (o : option QARecord) :
  truthy (option_map calculateQuestionHash o) =
  match o with Some _ => true | None => false end.
Proof.
  destruct o as [q|]; [|reflexivity]. simpl.
  destruct (String.eqb_spec (calculateQuestionHash q) ""); [|reflexivity].
  exfalso. eapply md5_hex_not_empty. eassumption.
Qed.

Lemma sort_numbers_insert_head (x : nat) (l : list nat) :
  Forall (fun y => x <= y) l -> sort_numbers_insert x l = x :: l.
Proof.
  intro H. destruct l as [|y l]; [reflexivity|].
  simpl. inversion H; subst.
  destruct (Nat.leb_spec x y); [reflexivity|lia].
Qed.

Lemma sort_numbers_seq (s n : nat) : sort_numbers (seq s n) = seq s n.
Proof.
  revert s. induction n as [|n IH]; intro s; [reflexivity|].
  simpl. unfold sort_numbers in IH. rewrite IH.
  apply sort_numbers_insert_head.
  apply Forall_forall. intros y Hy. apply in_seq in Hy. lia.
Qed.

(** With no stored ledger every index of the corpus is new. *)
Lemma compare_ledgers_no_ledger (data : list QARecord) :
  compare_ledgers (indices_hash_of data) [] =
  {| changed := []; newIndices := seq 0 (List.length data);
     deletedIndices := []; allChanged := seq 0 (List.length data) |}.
Proof.
  rewrite compare_ledgers_closed, indices_hash_of_keys.
  cbn [ledger_get truthy negb andb map filter].
  rewrite (filter_none (fun _ : nat => false)) by reflexivity.
  rewrite (filter_all (fun _ : nat => true)) by reflexivity.
  reflexivity.
Qed.
(* ================================================================== *)
(** * What a pass embeds *)
(* ================================================================== *)

Lemma mapi_from_map {A B C : Type} (g : A -> B) (f : B -> nat -> C) (s : nat)
    (l : list A) :
  mapi_from f s (map g l) = mapi_from (fun a i => f (g a) i) s l.
Proof.
  revert s. induction l as [|a l IH]; intro s; simpl; [reflexivity|].
  rewrite IH. reflexivity.
Qed.

Lemma calls_of_calls {A : Type} (f : A -> nat -> string) (s : nat) (l : list A) :
  calls_of (mapi_from (fun a i => call_addLoader i (f a i)) s l)
  = mapi_from (fun a i => call_addLoader i (f a i)) s l.
Proof.
  revert s. induction l as [|a l IH]; intro s; simpl; [reflexivity|].
  unfold calls_of in *. rewrite IH. reflexivity.
Qed.

(** Every event of the embedding loop is the call for an index of the loop,
    with the tagged text of the record [questionsData] holds there. *)
Lemma for_each_embed_texts (env : Env) (l : list nat) (st : State) (e : Event) :
  In e (events_of (for_each l (embed_question env) st)) ->
  exists i q, In i l
              /\ nth_error (or_nil (questionsData st)) i = Some q
              /\ e = call_addLoader i (textWithMetadata i q).
Proof.
  revert st. induction l as [|i l IH]; intros st Hin; [destruct Hin|].
  simpl for_each in Hin. rewrite bind_run in Hin.
  pose proof (embed_question_frame env i st) as Hframe. cbn zeta in Hframe.
  destruct Hframe as (_ & Hqd & _ & _).
  rewrite embed_question_run in Hin, Hqd.
  destruct (nth_error (or_nil (questionsData st)) i) as [q|] eqn:Eq;
    [|destruct Hin].
  cbn zeta in Hin, Hqd.
  destruct (addLoader_chunks env (textWithMetadata i q)) as [chunks|].
  - cbn [outcome_of state_of events_of fst snd] in Hin, Hqd.
    apply in_app_or in Hin. destruct Hin as [[<-|[]]|Hin].
    + exists i, q. split; [left; reflexivity|]. auto.
    + apply IH in Hin. destruct Hin as (j & q' & Hj & Hq' & ->).
      exists j, q'. split; [right; exact Hj|]. split; [|reflexivity].
      rewrite <- Hqd. exact Hq'.
  - cbn [outcome_of state_of events_of fst snd] in Hin.
    destruct Hin as [<-|[]].
    exists i, q. split; [left; reflexivity|]. auto.
Qed.

(** The loop over all the records, when the embedding framework accepts the
    text of each: it returns, the chunks of the records are appended to the
    store in the order of the records, and there is one call per record. *)
Lemma for_each_embed_all (env : Env) (qd : list QARecord) :
  (forall i q, nth_error qd i = Some q ->
               addLoader_chunks env (textWithMetadata i q) <> None) ->
  forall rest pre st,
    qd = pre ++ rest -> questionsData st = Some qd ->
    let run := for_each (seq (List.length pre) (List.length rest))
                        (embed_question env) st in
    outcome_of run = Return tt
    /\ vectors (vectorDatabase (state_of run)) =
       vectors (vectorDatabase st)
       ++ List.concat (mapi_from (fun q i => chunks_of_record env i q)
                            (List.length pre) rest)
    /\ events_of run =
       mapi_from (fun q i => call_addLoader i (textWithMetadata i q))
                 (List.length pre) rest.
Proof.
  intros Hok rest. induction rest as [|q rest IH]; intros pre st Hqd Hst; cbn zeta.
  - simpl. rewrite app_nil_r. auto.
  - simpl List.length. simpl seq. simpl for_each.
    rewrite bind_run, embed_question_run, Hst. cbn [or_nil].
    assert (Hq : nth_error qd (List.length pre) = Some q).
    { rewrite Hqd, nth_error_app2, Nat.sub_diag by lia. reflexivity. }
    rewrite Hq. cbn zeta.
    pose proof (Hok _ _ Hq) as Hacc.
    destruct (addLoader_chunks env (textWithMetadata (List.length pre) q))
      as [chunks|] eqn:Ec; [|congruence].
    cbn [outcome_of state_of events_of fst snd].
    match goal with
    | |- context [for_each _ (embed_question env) ?s] =>
        specialize (IH (pre ++ [q]) s)
    end.
    rewrite length_app in IH. simpl List.length in IH. rewrite Nat.add_1_r in IH.
    cbn zeta in IH.
    destruct IH as (Ho & Hv & He).
    + rewrite <- app_assoc. exact Hqd.
    + exact Hst.
    + unfold outcome_of, state_of, events_of in *.
      split; [exact Ho|]. split.
      * rewrite Hv. cbn [mapi_from List.concat].
        unfold chunks_of_record at 2. rewrite Ec.
        cbn [vectorDatabase ragApp set_ragApp set_chunkMetadataMap insertChunks
             fst vectors or_nil].
        rewrite <- app_assoc. reflexivity.
      * rewrite He. reflexivity.
Qed.

Lemma loaded_store_vectors (env : Env) (f : Files) :
  vectors (loaded_store env f) =
  match vectors_cache_json f with
  | Some (CacheParsed cache) => or_nil (cache_vectors cache)
  | _ => []
  end.
Proof.
  unfold loaded_store. rewrite init_vectors. unfold loadFromFile.
  destruct (vectors_cache_json f) as [[message|cache]|]; reflexivity.
Qed.



Lemma no_call_in_saves (env : Env) (count : nat) (e : Event) :
  is_call e = true ->
  ~ In e (save_cache_events env count ++ save_hashes_events env)
  /\ ~ In e (save_hashes_events env).
Proof.
  intro Hcall.
  destruct (save_events_quiet env count) as (H1 & _ & H2 & _).
  split; intro Hin.
  - assert (H : In e (calls_of (save_cache_events env count ++ save_hashes_events env)))
      by (apply filter_In; auto).
    rewrite H1 in H. destruct H.
  - assert (H : In e (calls_of (save_hashes_events env)))
      by (apply filter_In; auto).
    rewrite H2 in H. destruct H.
Qed.


(** X14. A pass that loads a cache with chunks while the ledger file is
    missing (or does not parse), over an embedding framework that accepts the
    text of every record: every index of the corpus is classified as new, no
    chunk is deleted, and every record is embedded again, in the order of the
    corpus, with its keywords in sorted order; the store then holds the
    cached chunks followed by the chunks of all the records. *)
Theorem missing_ledger_embeds_over_cache (env : Env) (st : State)
    (file : QuestionsFile) (data : list QARecord)
    (cache : CacheJson) (cached : list Chunk)
    (Hinit : isInitialized st = false)
    (Hfile : questions_json (files st) = Some file)
    (Hdata : qf_parsed file = Some data)
    (Hcache : vectors_cache_json (files st) = Some (CacheParsed cache))
    (Hcached : cache_vectors cache = Some cached)
    (Hsome : cached <> [])
    (Hledger : questions_indices_hash_json (files st) = None)
    (Haccepts : forall i q, nth_error data i = Some q ->
                  addLoader_chunks env
                    (textWithMetadata i (keywords_sorted_in_place q)) <> None) :
  let run := initializeRAG env st in
  outcome_of (findChangedQuestions st) =
    Return {| changed := []; newIndices := seq 0 (List.length data);
              deletedIndices := []; allChanged := seq 0 (List.length data) |}
  /\ outcome_of run = Return tt
  /\ calls_of (events_of run) =
     mapi (fun q i =>
             call_addLoader i (textWithMetadata i (keywords_sorted_in_place q)))
          data
  /\ vectors (vectorDatabase (state_of run)) =
     cached
     ++ List.concat (mapi (fun q i =>
                             chunks_of_record env i (keywords_sorted_in_place q))
                          data).
Proof.
  cbn zeta.
  assert (Hc : corpus_of (files st) = Some data)
    by (unfold corpus_of; rewrite Hfile; exact Hdata).
  split.
  { rewrite (findChangedQuestions_run st data Hc), Hledger. cbn [or_nil outcome_of fst].
    rewrite compare_ledgers_no_ledger. reflexivity. }
  rewrite (initializeRAG_prologue env st data Hinit Hc).
  assert (Hcl : cache_loaded (files st) = true)
    by (unfold cache_loaded, loadFromFile; rewrite Hcache; reflexivity).
  assert (Hlv : vectors (loaded_store env (files st)) = cached)
    by (rewrite loaded_store_vectors, Hcache, Hcached; reflexivity).
  assert (Hhas : hasVectors (loaded_store env (files st)) = true).
  { unfold hasVectors. rewrite Hlv. destruct cached; [congruence|reflexivity]. }
  destruct (load_console_quiet env (files st)) as (_ & Hcalls & _).
  rewrite (reconcile_run env _ _ data) by exact Hc.
  cbn [vectorDatabase ragApp set_ragApp files set_questionsData].
  rewrite Hcl, Hhas, Hledger. cbn [andb or_nil]. cbn zeta.
  rewrite compare_ledgers_no_ledger. cbn [allChanged deletedIndices changed newIndices].
  rewrite length_seq. cbn [List.length Nat.eqb andb].
  destruct data as [|q0 data'] eqn:Edata.
  - cbn [List.length Nat.eqb andb].
    rewrite (use_cache_unchanged_run env _ file []); [|exact Hfile|exact Hdata].
    unfold prepend, outcome_of, state_of, events_of, calls_of. cbn [fst snd].
    split; [reflexivity|]. split.
    + rewrite filter_app. fold (calls_of (load_console (files st))).
      fold (calls_of (save_hashes_events env)).
      rewrite Hcalls, (proj1 (proj2 (proj2 (save_events_quiet env 0)))).
      reflexivity.
    + unfold hashes_saved. cbn. rewrite app_nil_r. exact Hlv.
  - rewrite <- Edata in *. replace (Nat.eqb (List.length data) 0) with false
      by (rewrite Edata; reflexivity). cbn [andb].
    rewrite (incremental_update_run env _ _ file data); [|exact Hfile|exact Hdata].
    cbn [changed newIndices deletedIndices delete_all fold_left app].
    rewrite sort_numbers_seq. cbn zeta.
    set (base := set_questionsData (Some (map keywords_sorted_in_place data))
                   (set_ragApp (Some (loaded_store env (files st)))
                               (set_questionsData (Some data) st))).
    assert (Hacc' : forall i q,
              nth_error (map keywords_sorted_in_place data) i = Some q ->
              addLoader_chunks env (textWithMetadata i q) <> None).
    { intros i q Hq. rewrite nth_error_map in Hq.
      destruct (nth_error data i) as [q'|] eqn:Eq'; [|discriminate].
      injection Hq as <-. apply (Haccepts i q' Eq'). }
    destruct (for_each_embed_all env (map keywords_sorted_in_place data) Hacc'
                (map keywords_sorted_in_place data) [] base eq_refl eq_refl)
      as (Ho & Hvec & Hev).
    rewrite length_map in Ho, Hvec, Hev. simpl List.length in Ho, Hvec, Hev.
    rewrite Ho.
    unfold prepend, outcome_of, state_of, events_of. cbn [fst snd].
    split; [reflexivity|]. split.
    + unfold calls_of in *. rewrite filter_app, Hcalls. cbn [app].
      rewrite filter_app.
      fold (calls_of (save_cache_events env
        (List.length (vectors (vectorDatabase (metadata_loaded (snd (fst
           (for_each (seq 0 (List.length data)) (embed_question env) base)))))))
        ++ save_hashes_events env)).
      rewrite (proj1 (save_events_quiet env _)).
      unfold events_of in Hev. rewrite Hev, mapi_from_map.
      fold (calls_of (mapi_from
        (fun (a : QARecord) (i : nat) =>
           call_addLoader i (textWithMetadata i (keywords_sorted_in_place a))) 0 data)).
      rewrite (calls_of_calls
                 (fun a i => textWithMetadata i (keywords_sorted_in_place a))).
      apply app_nil_r.
    + unfold state_of in Hvec.
      unfold hashes_saved, cache_saved.
      assert (Hgoal : vectors (vectorDatabase (snd (fst
                (for_each (seq 0 (List.length data)) (embed_question env) base)))) =
              cached ++ List.concat (mapi (fun q i =>
                chunks_of_record env i (keywords_sorted_in_place q)) data));
        [|destruct (writeFile_error env VECTORS_CACHE_FILE); exact Hgoal].
      rewrite Hvec. unfold base at 1. cbn [vectorDatabase ragApp set_ragApp set_questionsData].
      rewrite Hlv, mapi_from_map. reflexivity.
Qed.
Lemma missing_ledger_embeds_over_cache_witness :
  let run := initializeRAG one_chunk_env cache_without_ledger_state in
  outcome_of (findChangedQuestions cache_without_ledger_state) =
    Return {| changed := []; newIndices := seq 0 1;
              deletedIndices := []; allChanged := seq 0 1 |}
  /\ outcome_of run = Return tt
  /\ calls_of (events_of run) =
     mapi (fun q i =>
             call_addLoader i (textWithMetadata i (keywords_sorted_in_place q)))
          [password_record]
  /\ vectors (vectorDatabase (state_of run)) =
     [ {| pageContent := Some (textWithMetadata 0 password_record);
          vector := [1; 0]%float; metadata := None |} ]
     ++ List.concat (mapi (fun q i =>
                             chunks_of_record one_chunk_env i
                               (keywords_sorted_in_place q))
                          [password_record]).
Proof.
  apply (missing_ledger_embeds_over_cache one_chunk_env cache_without_ledger_state
           {| qf_data := "[...]"; qf_parsed := Some [password_record] |}
           [password_record]
           {| cache_vectors :=
                Some [ {| pageContent := Some (textWithMetadata 0 password_record);
                          vector := [1; 0]%float; metadata := None |} ];
              cache_dimensions := Some 2;
              cache_savedAt := "2024-06-01T00:00:00.000Z" |}
           [ {| pageContent := Some (textWithMetadata 0 password_record);
                vector := [1; 0]%float; metadata := None |} ]).
  - reflexivity.
  - reflexivity.
  - reflexivity.
  - reflexivity.
  - reflexivity.
  - discriminate.
  - reflexivity.
  - intros i q _. simpl. discriminate.
Defined.

(** X15. The texts a pass hands to the embedding framework.  Each call is
    made for an index of the corpus, with the tagged text of the record at
    that index; in a full rebuild the keywords appear in the text in the order
    of the file, and in an incremental update (a cache with chunks was
    loaded) in sorted order, the change classifier having sorted the keywords
    of the records in place. *)
Theorem embedded_text_keyword_order (env : Env) (st : State)
    (file : QuestionsFile) (data : list QARecord)
    (Hinit : isInitialized st = false)
    (Hfile : questions_json (files st) = Some file)
    (Hdata : qf_parsed file = Some data) :
  Forall (fun e =>
            exists i q,
              nth_error data i = Some q
              /\ e = call_addLoader i
                       (textWithMetadata i
                          (if cache_loaded (files st)
                              && hasVectors (loaded_store env (files st))
                           then keywords_sorted_in_place q else q)))
         (calls_of (events_of (initializeRAG env st))).
Proof.
  apply Forall_forall. intros e Hin.
  apply filter_In in Hin. destruct Hin as [Hin Hcall].
  assert (Hc : corpus_of (files st) = Some data)
    by (unfold corpus_of; rewrite Hfile; exact Hdata).
  rewrite (initializeRAG_prologue env st data Hinit Hc) in Hin.
  rewrite (proj2 (proj2 (prepend_parts _ _))) in Hin.
  apply in_app_or in Hin. destruct Hin as [Hin|Hin].
  { exfalso. unfold load_console, loadFromFile in Hin.
    destruct (vectors_cache_json (files st)) as [[m|c]|];
      destruct Hin as [<-|[]]; discriminate. }
  rewrite (reconcile_run env _ _ data) in Hin by exact Hc.
  cbn [vectorDatabase ragApp set_ragApp files set_questionsData] in Hin.
  destruct (cache_loaded (files st) && hasVectors (loaded_store env (files st))).
  - cbn zeta in Hin.
    destruct (Nat.eqb _ 0 && Nat.eqb _ 0).
    + rewrite (use_cache_unchanged_run env _ file data) in Hin;
        [|exact Hfile|exact Hdata].
      exfalso. exact (proj2 (no_call_in_saves env 0 e Hcall) Hin).
    + rewrite (incremental_update_run env _ _ file data) in Hin;
        [|exact Hfile|exact Hdata].
      cbn zeta in Hin.
      match type of Hin with
      | context [for_each ?l (embed_question env) ?base] =>
          assert (He : In e (events_of (for_each l (embed_question env) base)));
          [|apply for_each_embed_texts in He;
            assert (Hqd : questionsData base = Some (map keywords_sorted_in_place data))]
      end.
      * destruct (outcome_of (for_each _ (embed_question env) _)); [|exact Hin].
        cbn [events_of snd] in Hin. apply in_app_or in Hin.
        destruct Hin as [H|H]; [exact H|].
        exfalso. exact (proj1 (no_call_in_saves env _ e Hcall) H).
      * rewrite (proj1 (proj2 (delete_all_frame _ _))).
        rewrite (proj1 (proj2 (delete_all_frame _ _))). reflexivity.
      * destruct He as (i & q & _ & Hq & ->). rewrite Hqd in Hq. cbn [or_nil] in Hq.
        rewrite nth_error_map in Hq.
        destruct (nth_error data i) as [q'|] eqn:Eq'; [|discriminate].
        injection Hq as <-. exists i, q'. auto.
  - rewrite (full_rebuild_run env _ file data) in Hin; [|exact Hfile|exact Hdata].
    cbn zeta in Hin.
    match type of Hin with
    | context [for_each ?l (embed_question env) ?base] =>
        assert (He : In e (events_of (for_each l (embed_question env) base)))
    end.
    + destruct (outcome_of (for_each _ (embed_question env) _)); [|exact Hin].
      cbn [events_of snd] in Hin. apply in_app_or in Hin.
      destruct Hin as [H|H]; [exact H|].
      exfalso. exact (proj1 (no_call_in_saves env _ e Hcall) H).
    + apply for_each_embed_texts in He.
      destruct He as (i & q & _ & Hq & ->).
      exists i, q. split; [exact Hq|reflexivity].
Qed.

Lemma embedded_text_keyword_order_witness :
  Forall (fun e =>
            exists i q,
              nth_error [password_record] i = Some q
              /\ e = call_addLoader i
                       (textWithMetadata i
                          (if cache_loaded (files cache_without_ledger_state)
                              && hasVectors (loaded_store one_chunk_env
                                               (files cache_without_ledger_state))
                           then keywords_sorted_in_place q else q)))
         (calls_of (events_of
                      (initializeRAG one_chunk_env cache_without_ledger_state))).
Proof.
  apply (embedded_text_keyword_order one_chunk_env cache_without_ledger_state
           {| qf_data := "[...]"; qf_parsed := Some [password_record] |}
           [password_record]); reflexivity.
Defined.
(* ================================================================== *)
(** * What a pass leaves behind *)
(* ================================================================== *)

Lemma hashes_saved_frame (env : Env) (file : QuestionsFile)
    (data : list QARecord) (st : State) :
  questions_json (files (hashes_saved env file data st)) = questions_json (files st)
  /\ vectors_cache_json (files (hashes_saved env file data st))
     = vectors_cache_json (files st)
  /\ isInitialized (hashes_saved env file data st) = isInitialized st
  /\ ragApp (hashes_saved env file data st) = ragApp st
  /\ questionsData (hashes_saved env file data st)
     = Some (map keywords_sorted_in_place data)
  /\ questions_hash_txt (files (hashes_saved env file data st))
     = match writeFile_error env QUESTIONS_HASH_FILE with
       | None => Some (md5_hex (qf_data file))
       | Some _ => questions_hash_txt (files st)
       end
  /\ questions_indices_hash_json (files (hashes_saved env file data st))
     = match writeFile_error env QUESTIONS_INDICES_HASH_FILE with
       | None => Some (indices_hash_of data)
       | Some _ => questions_indices_hash_json (files st)
       end.
Proof.
  unfold hashes_saved, hash_files_saved.
  destruct (writeFile_error env QUESTIONS_INDICES_HASH_FILE);
    destruct (writeFile_error env QUESTIONS_HASH_FILE); repeat split; reflexivity.
Qed.

Lemma cache_saved_frame (env : Env) (st : State) :
  questions_json (files (cache_saved env st)) = questions_json (files st)
  /\ questions_hash_txt (files (cache_saved env st)) = questions_hash_txt (files st)
  /\ questions_indices_hash_json (files (cache_saved env st))
     = questions_indices_hash_json (files st)
  /\ isInitialized (cache_saved env st) = isInitialized st
  /\ ragApp (cache_saved env st) = ragApp st
  /\ questionsData (cache_saved env st) = questionsData st.
Proof.
  unfold cache_saved.
  destruct (writeFile_error env VECTORS_CACHE_FILE); repeat split; reflexivity.
Qed.

(** The frame of a pass: [questions.json] is never written; a pass that
    throws leaves every file as it was, the module not initialized, and has
    written nothing; a pass that returns leaves the module initialized. *)
Lemma initializeRAG_frame (env : Env) (st : State) :
  let run := initializeRAG env st in
  questions_json (files (state_of run)) = questions_json (files st)
  /\ match outcome_of run with
     | Return _ => isInitialized (state_of run) = true
     | Throw _ =>
         files (state_of run) = files st
         /\ isInitialized (state_of run) = false
         /\ writes_of (events_of run) = []
     end.
Proof.
  cbn zeta. destruct (isInitialized st) eqn:Hi.
  { rewrite initializeRAG_initialized by exact Hi. simpl. auto. }
  destruct (corpus_cases (files st)) as [(file & data & Hf & Hp)|Hc].
  2:{ rewrite initializeRAG_no_corpus by assumption. simpl. auto. }
  destruct (load_console_quiet env (files st)) as (Hw & _ & _).
  destruct (initializeRAG_shape env st file data Hi Hf Hp)
    as [(-> & _)|(l & base & md & Hfb & Hib & _ & _ & _ & ->)].
  - cbn [outcome_of state_of fst snd]. unfold unchanged_result.
    rewrite (proj1 (hashes_saved_frame _ _ _ _)).
    rewrite (proj1 (proj2 (proj2 (hashes_saved_frame _ _ _ _)))). auto.
  - destruct (prepend_parts (load_console (files st))
                (embedding_result env file data md
                   (for_each l (embed_question env) base))) as (-> & -> & ->).
    pose proof (for_each_embed env l base) as H. cbn zeta in H.
    destruct H as (Hfl & _ & Hil & Hwl & _).
    unfold embedding_result.
    destruct (outcome_of (for_each l (embed_question env) base)) as [[]|e].
    + cbn [outcome_of state_of fst snd]. split; [|reflexivity].
      change (files (set_isInitialized true ?s)) with (files s).
      rewrite (proj1 (hashes_saved_frame _ _ _ _)).
      rewrite (proj1 (cache_saved_frame _ _)).
      destruct md; simpl; congruence.
    + cbn [outcome_of state_of events_of fst snd].
      split; [congruence|]. split; [congruence|]. split; [congruence|].
      unfold writes_of in *. rewrite filter_app, Hw. exact Hwl.
Qed.

(** X16. A pass that throws (the corpus cannot be read, or the embedding
    framework rejects a text) has written no file: the four files are as they
    were before the pass, and the module is left not initialized, so that the
    next search starts a new pass. *)
Theorem failed_pass_writes_nothing (env : Env) (st : State) (e : Error)
    (Hthrow : outcome_of (initializeRAG env st) = Throw e) :
  files (state_of (initializeRAG env st)) = files st
  /\ isInitialized (state_of (initializeRAG env st)) = false
  /\ writes_of (events_of (initializeRAG env st)) = [].
Proof.
  pose proof (initializeRAG_frame env st) as H. cbn zeta in H.
  rewrite Hthrow in H. exact (proj2 H).
Qed.

Lemma failed_pass_writes_nothing_witness :
  files (state_of (initializeRAG rejecting_env (fresh_state [password_record])))
  = files (fresh_state [password_record])
  /\ isInitialized
       (state_of (initializeRAG rejecting_env (fresh_state [password_record])))
     = false
  /\ writes_of
       (events_of (initializeRAG rejecting_env (fresh_state [password_record])))
     = [].
Proof.
  apply (failed_pass_writes_nothing rejecting_env (fresh_state [password_record])
           (error_addLoader 0)).
  reflexivity.
Defined.

(** The files and the module after a pass that returns. *)
Lemma initializeRAG_returns (env : Env) (st : State)
    (Hinit : isInitialized st = false)
    (Hret : outcome_of (initializeRAG env st) = Return tt) :
  let st' := state_of (initializeRAG env st) in
  exists file data,
    questions_json (files st) = Some file /\ qf_parsed file = Some data
    /\ questions_json (files st') = Some file
    /\ questions_hash_txt (files st')
       = match writeFile_error env QUESTIONS_HASH_FILE with
         | None => Some (md5_hex (qf_data file))
         | Some _ => questions_hash_txt (files st)
         end
    /\ questions_indices_hash_json (files st')
       = match writeFile_error env QUESTIONS_INDICES_HASH_FILE with
         | None => Some (indices_hash_of data)
         | Some _ => questions_indices_hash_json (files st)
         end
    /\ isInitialized st' = true
    /\ questionsData st' = Some (map keywords_sorted_in_place data).
Proof.
  cbn zeta.
  destruct (corpus_cases (files st)) as [(file & data & Hf & Hp)|Hc].
  2:{ rewrite initializeRAG_no_corpus in Hret by assumption. discriminate. }
  exists file, data.
  split; [exact Hf|]. split; [exact Hp|].
  pose proof (initializeRAG_frame env st) as Hframe. cbn zeta in Hframe.
  destruct Hframe as [Hq Hi']. rewrite Hret in Hi'.
  split; [rewrite Hq; exact Hf|].
  assert (Hrest :
    questions_hash_txt (files (state_of (initializeRAG env st)))
      = match writeFile_error env QUESTIONS_HASH_FILE with
        | None => Some (md5_hex (qf_data file))
        | Some _ => questions_hash_txt (files st)
        end
    /\ questions_indices_hash_json (files (state_of (initializeRAG env st)))
       = match writeFile_error env QUESTIONS_INDICES_HASH_FILE with
         | None => Some (indices_hash_of data)
         | Some _ => questions_indices_hash_json (files st)
         end
    /\ questionsData (state_of (initializeRAG env st))
       = Some (map keywords_sorted_in_place data)).
  { destruct (initializeRAG_shape env st file data Hinit Hf Hp)
      as [(E & _)|(l & base & md & Hfb & _ & _ & _ & _ & E)];
      rewrite E in *; clear E.
    - cbn [state_of fst snd]. unfold unchanged_result.
      destruct (hashes_saved_frame env file data
        (set_isInitialized true
           (metadata_loaded
              (set_questionsData (Some (map keywords_sorted_in_place data))
                 (set_ragApp (Some (loaded_store env (files st)))
                    (set_questionsData (Some data) st))))))
        as (_ & _ & _ & _ & Hd & Hh & Hl).
      rewrite Hd, Hh, Hl. auto.
    - rewrite (proj1 (prepend_parts _ _)) in Hret.
      rewrite (proj1 (proj2 (prepend_parts _ _))).
      unfold embedding_result in *.
      pose proof (for_each_embed env l base) as H. cbn zeta in H.
      destruct H as (Hfl & _).
      destruct (outcome_of (for_each l (embed_question env) base)) as [[]|e];
        [|discriminate].
      cbn [state_of fst snd].
      change (files (set_isInitialized true ?s)) with (files s).
      change (questionsData (set_isInitialized true ?s)) with (questionsData s).
      match goal with
      | |- context [hashes_saved env file data ?s] =>
          destruct (hashes_saved_frame env file data s)
            as (_ & _ & _ & _ & Hd & Hh & Hl)
      end.
      rewrite Hd, Hh, Hl.
      rewrite (proj1 (proj2 (cache_saved_frame _ _))).
      rewrite (proj1 (proj2 (proj2 (cache_saved_frame _ _)))).
      assert (E : files (if md
                         then metadata_loaded (state_of (for_each l (embed_question env) base))
                         else state_of (for_each l (embed_question env) base))
                  = files st)
        by (destruct md; simpl; congruence).
      rewrite E. auto. }
  destruct Hrest as (Hh & Hl & Hd).
  split; [exact Hh|]. split; [exact Hl|].
  split; [exact Hi'|exact Hd].
Qed.



(** ** The file hash *)

Lemma trimEnd_no_white_space (s : string) :
  Forall (fun c => is_white_space c = false) (list_ascii_of_string s) ->
  trimEnd s = s.
Proof.
  induction s as [|c s IH]; intro H; [reflexivity|].
  simpl in H. inversion H as [|c' l Hc Hs]; subst.
  simpl. rewrite (IH Hs), Hc. destruct s; reflexivity.
Qed.

Lemma trim_no_white_space (s : string) :
  Forall (fun c => is_white_space c = false) (list_ascii_of_string s) ->
  trim s = s.
Proof.
  intro H. unfold trim.
  replace (trimStart s) with s; [apply trimEnd_no_white_space, H|].
  destruct s as [|c s]; [reflexivity|].
  simpl in H. inversion H as [|c' l Hc Hs]; subst.
  simpl. rewrite Hc. reflexivity.
Qed.

Lemma trim_md5_hex (s : string) : trim (md5_hex s) = md5_hex s.
Proof.
  apply trim_no_white_space.
  eapply Forall_impl; [|apply (proj2 (md5_hex_format s))].
  intros c Hc. unfold lowercase_hex in Hc. simpl in Hc.
  repeat (destruct Hc as [<-|Hc]; [reflexivity|]). destruct Hc.
Qed.

Lemma hasQuestionsChanged_run (st : State) :
  hasQuestionsChanged st =
  (Return
     (let currentHash :=
        option_map (fun file => md5_hex (qf_data file)) (questions_json (files st)) in
      let storedHash := option_map trim (questions_hash_txt (files st)) in
      if negb (truthy storedHash) then true
      else strict_neq currentHash storedHash),
   st, []).
Proof.
  unfold hasQuestionsChanged, calculateQuestionsHash, getStoredHash.
  rewrite bind_run, bind_get.
  destruct (questions_json (files st)) as [file|];
    cbn [outcome_of state_of events_of fst snd ret option_map];
    rewrite bind_run, bind_get;
    destruct (questions_hash_txt (files st)) as [h|];
    cbn [outcome_of state_of events_of fst snd ret option_map app];
    cbn zeta;
    match goal with
    | |- context [truthy ?x] => destruct (truthy x)
    end; reflexivity.
Qed.

(** X18. [hasQuestionsChanged] after a pass that returns and whose write
    of the hash file was carried out: it reports no change, as long as the
    files stay as the pass left them; with the hash file removed it reports a
    change.  It changes neither the module nor the files. *)
Theorem hasQuestionsChanged_after_pass (env : Env) (st : State)
    (Hinit : isInitialized st = false)
    (Hret : outcome_of (initializeRAG env st) = Return tt)
    (Hwritten : writeFile_error env QUESTIONS_HASH_FILE = None) :
  let st' := state_of (initializeRAG env st) in
  hasQuestionsChanged st' = (Return false, st', [])
  /\ outcome_of (hasQuestionsChanged
                   (set_files (set_questions_hash_txt None (files st')) st'))
     = Return true.
Proof.
  cbn zeta.
  destruct (initializeRAG_returns env st Hinit Hret)
    as (file & data & _ & _ & Hf & Hh & _).
  rewrite Hwritten in Hh.
  split.
  - rewrite hasQuestionsChanged_run, Hf, Hh. cbn [option_map]. cbn zeta.
    rewrite trim_md5_hex.
    replace (truthy (Some (md5_hex (qf_data file)))) with true.
    + simpl. rewrite String.eqb_refl. reflexivity.
    + simpl. destruct (String.eqb_spec (md5_hex (qf_data file)) ""); [|reflexivity].
      exfalso. eapply md5_hex_not_empty. eassumption.
  - rewrite hasQuestionsChanged_run. reflexivity.
Qed.

Lemma hasQuestionsChanged_after_pass_witness :
  let st' := state_of (initializeRAG one_chunk_env (fresh_state [password_record])) in
  hasQuestionsChanged st' = (Return false, st', [])
  /\ outcome_of (hasQuestionsChanged
                   (set_files (set_questions_hash_txt None (files st')) st'))
     = Return true.
Proof.
  apply (hasQuestionsChanged_after_pass one_chunk_env (fresh_state [password_record])).
  - reflexivity.
  - vm_compute. reflexivity.
  - reflexivity.
Defined.
(* ================================================================== *)
(** * Properties of the HTTP handlers *)
(* ================================================================== *)

Example Number_parseInt_examples :
  map Number_parseInt ["12"; " 12abc"; "-5"; "+7"; "0x1F"; "-0x10"; "1e3";
                       "abc"; ""; "0x"; "007"]
  = [Some 12; Some 12; Some (-5); Some 7; Some 31; Some (-16); Some 1;
     None; None; None; Some 7]%Z.
Proof. reflexivity. Qed.

Example trim_examples :
  map trim ["  a b  "; "abc"; "   "; ""] = ["a b"; "abc"; ""; ""].
Proof. reflexivity. Qed.

(** ** The search endpoint *)

Lemma search_limit_range (topK : BodyValue) :
  (1 <= search_limit topK <= 50)%Z.
Proof.
  unfold search_limit.
  destruct (parseInt_value topK) as [n|]; [|lia].
  destruct (js_truthy topK); simpl; [|lia].
  destruct (Z.ltb_spec 0 n); lia.
Qed.

Lemma similarQuestions_of_length (questionsData0 : list QARecord)
    (chunkMetadataMap0 : MetadataMap) (results : list SearchResult) (topK : nat) :
  List.length (similarQuestions_of questionsData0 chunkMetadataMap0 results topK)
  = Nat.min topK (List.length results).
Proof.
  unfold similarQuestions_of, mapi. rewrite mapi_from_length. apply length_firstn.
Qed.

(** X19. [POST /search] always answers, with the status 200, 400 or 500.
    The limit handed to [searchSimilarQuestions] lies between 1 and 50: it is
    10 when [topK] is missing, is not read as a number by [parseInt], or is
    not positive, and the smaller of [topK] and 50 otherwise.  A body sent
    with the status 200 holds the trimmed query, which is not empty, and at
    most that many entries, the count being their number. *)
Theorem post_search_limit (env : Env) (question topK : BodyValue) (st : State) :
  (1 <= search_limit topK <= 50)%Z
  /\ (search_limit topK =
        match parseInt_value topK with
        | Some n => if js_truthy topK && (0 <? n)%Z then Z.min n 50 else 10
        | None => 10
        end)%Z
  /\ exists r,
       outcome_of (post_search env question topK st) = Return r
       /\ (res_status r = 200 \/ res_status r = 400 \/ res_status r = 500)
       /\ (res_status r <> 200 -> res_data r = None)
       /\ forall query count hits,
            res_data r = Some (query, count, hits) ->
            (exists s, question = body_string s /\ query = trim s)
            /\ query <> ""
            /\ count = List.length hits
            /\ (Z.of_nat count <= search_limit topK)%Z
            /\ count <= 50.
Proof.
  split; [apply search_limit_range|]. split; [reflexivity|].
  pose proof (search_limit_range topK) as Hlim.
  unfold post_search, try_catch, respond, ret.
  destruct question as [s|t p].
  2:{ eexists. split; [reflexivity|]. simpl.
      split; [auto|]. split; [reflexivity|]. discriminate. }
  destruct (negb (js_truthy (body_string s)) || Nat.eqb (String.length (trim s)) 0)
    eqn:Hbad.
  { eexists. split; [reflexivity|]. simpl.
    split; [auto|]. split; [reflexivity|]. discriminate. }
  rewrite bind_run.
  destruct (searchSimilarQuestions env (trim s) (Z.to_nat (search_limit topK)) st)
    as [[[hits|e] st'] ev] eqn:Hrun.
  2:{ eexists. split; [reflexivity|]. simpl.
      split; [auto|]. split; [reflexivity|]. discriminate. }
  cbn [outcome_of state_of events_of fst snd].
  eexists. split; [reflexivity|]. simpl.
  split; [auto|]. split; [congruence|].
  intros query count hits' H. injection H as <- <- <-.
  split; [exists s; auto|].
  apply orb_false_iff in Hbad. destruct Hbad as [_ Hlen].
  split.
  { intro E. rewrite E in Hlen. discriminate. }
  split; [reflexivity|].
  destruct (searchSimilarQuestions_Return _ _ _ _ _ _ _ Hrun)
    as (db & results & _ & _ & ->).
  rewrite similarQuestions_of_length. lia.
Qed.

(** ** Reading and writing the questions file *)

Lemma readQuestions_run (st : State) :
  readQuestions st =
  match corpus_of (files st) with
  | Some data => (Return data, st, [])
  | None => (Throw error_loadQuestions, st, [])
  end.
Proof.
  unfold readQuestions, corpus_of. rewrite bind_get.
  destruct (questions_json (files st)) as [file|]; [|reflexivity].
  destruct (qf_parsed file); reflexivity.
Qed.





(** X20. A request for an [id] that [parseInt] does not read as a number,
    or that is negative or not below the number of records, is answered with
    the status 404 by [GET], [PUT] and [DELETE /questions/:id]; nothing is
    written and the index is not refreshed. *)
Theorem unknown_id_changes_nothing (env : Env) (srv : Server) (id_param : string)
    (body : QuestionBody) (st : State) (data : list QARecord)
    (Hcorpus : corpus_of (files st) = Some data)
    (Hid : match Number_parseInt id_param with
           | None => True
           | Some id => (id < 0)%Z \/ (Z.of_nat (List.length data) <= id)%Z
           end) :
  get_question id_param st = (Return {| res_status := 404; res_data := None |}, st, [])
  /\ put_question env srv id_param body st
     = (Return {| res_status := 404; res_data := None |}, st, [])
  /\ delete_question env srv id_param st
     = (Return {| res_status := 404; res_data := None |}, st, []).
Proof.
  assert (Hc : checked_id (Number_parseInt id_param) data = None).
  { unfold checked_id. destruct (Number_parseInt id_param) as [z|]; [|reflexivity].
    destruct (Z.ltb_spec z 0); [reflexivity|].
    destruct (Z.leb_spec (Z.of_nat (List.length data)) z); [reflexivity|].
    exfalso. lia. }
  unfold get_question, put_question, delete_question, try_catch.
  rewrite !bind_run, readQuestions_run, Hcorpus.
  cbn [outcome_of state_of events_of fst snd]. rewrite Hc. auto.
Qed.

Lemma unknown_id_changes_nothing_witness :
  get_question "7" (fresh_state [password_record])
  = (Return {| res_status := 404; res_data := None |},
     fresh_state [password_record], [])
  /\ put_question one_chunk_env
       {| generateKeywords := fun _ _ => None;
          JSON_stringify_questions := fun _ => "[...]" |} "7"
       {| body_question := body_string "q"; body_answer := body_string "a";
          body_category := body_string "c"; body_audience := body_string "d" |}
       (fresh_state [password_record])
     = (Return {| res_status := 404; res_data := None |},
        fresh_state [password_record], [])
  /\ delete_question one_chunk_env
       {| generateKeywords := fun _ _ => None;
          JSON_stringify_questions := fun _ => "[...]" |} "7"
       (fresh_state [password_record])
     = (Return {| res_status := 404; res_data := None |},
        fresh_state [password_record], []).
Proof.
  apply (unknown_id_changes_nothing one_chunk_env
           {| generateKeywords := fun _ _ => None;
              JSON_stringify_questions := fun _ => "[...]" |} "7"
           {| body_question := body_string "q"; body_answer := body_string "a";
              body_category := body_string "c"; body_audience := body_string "d" |}
           (fresh_state [password_record]) [password_record]).
  - reflexivity.
  - simpl. right. lia.
Defined.
(** ** Deleting and editing a record *)

Lemma nth_error_remove {A : Type} (l : list A) (i j : nat) :
  nth_error (firstn i l ++ skipn (S i) l) j =
  if Nat.ltb j i then nth_error l j else nth_error l (S j).
Proof.
  revert i j. induction l as [|a l IH]; intros i j.
  - rewrite firstn_nil, skipn_nil. simpl.
    destruct (Nat.ltb j i); destruct j; reflexivity.
  - destruct i as [|i]; [reflexivity|].
    destruct j as [|j]; [reflexivity|].
    simpl firstn. simpl skipn. simpl nth_error at 1. rewrite IH. reflexivity.
Qed.

Lemma length_remove {A : Type} (l : list A) (i : nat) :
  i < List.length l ->
  List.length (firstn i l ++ skipn (S i) l) = List.length l - 1.
Proof.
  intro H. rewrite length_app, length_firstn, length_skipn. lia.
Qed.





(** On a disk where [questions.json] may not be written, the request is
    answered with the status 500: the failed write is logged, the file and
    the module are as they were, and no pass is run. *)
Example delete_question_write_fails :
  delete_question (on_disk read_only_questions one_chunk_env)
    {| generateKeywords := fun _ _ => None;
       JSON_stringify_questions := fun _ => "[...]" |}
    "0" (fresh_state [password_record; hours_record])
  = (Return {| res_status := 500; res_data := None |},
     fresh_state [password_record; hours_record],
     [console_error_writeQuestions "EACCES: permission denied"]).
Proof. reflexivity. Qed.

Lemma filter_seq_none (p : nat -> bool) (s n : nat) :
  (forall k, s <= k < s + n -> p k = false) -> filter p (seq s n) = [].
Proof.
  intro H. apply filter_none. intros k Hk. apply in_seq in Hk. apply H, Hk.
Qed.

Lemma strict_neq_hash (a b : option QARecord) :
  strict_neq (option_map calculateQuestionHash a) (option_map calculateQuestionHash b)
  = true <->
  option_map calculateQuestionHash a <> option_map calculateQuestionHash b.
Proof.
  destruct a as [a|], b as [b|]; simpl.
  - destruct (String.eqb_spec (calculateQuestionHash a) (calculateQuestionHash b))
      as [E|E]; simpl.
    + split; [discriminate|]. intro H. exfalso. apply H. congruence.
    + split; [intros _; congruence|reflexivity].
  - split; [discriminate|reflexivity].
  - split; [discriminate|reflexivity].
  - split; [discriminate|congruence].
Qed.

(** X22. What the change classifier finds after the record [i] was removed
    from a corpus whose ledger is up to date: no index is new, the last index
    of the former corpus is the one deleted index, and an index is changed
    exactly when it is [i] or above and the record that moved down to it has
    another hash than the record that was there.  No index below [i] is
    touched. *)
Theorem removed_record_shifts_indices (data : list QARecord) (i : nat)
    (Hi : i < List.length data) :
  let remaining := firstn i data ++ skipn (S i) data in
  let changes := compare_ledgers (indices_hash_of remaining) (indices_hash_of data) in
  newIndices changes = []
  /\ deletedIndices changes = [List.length data - 1]
  /\ (forall j, In j (changed changes) <->
                i <= j < List.length data - 1
                /\ option_map calculateQuestionHash (nth_error data j)
                   <> option_map calculateQuestionHash (nth_error data (S j))).
Proof.
  cbn zeta. rewrite compare_ledgers_closed.
  cbn [changed newIndices deletedIndices].
  rewrite !indices_hash_of_keys, length_remove by exact Hi.
  split; [|split].
  - apply filter_seq_none. intros k Hk.
    rewrite ledger_get_indices_hash_of, truthy_hash.
    destruct (nth_error data k) eqn:E; [reflexivity|].
    apply nth_error_None in E. lia.
  - replace (List.length data) with ((List.length data - 1) + 1) at 1 by lia.
    rewrite seq_app, filter_app. simpl seq. rewrite filter_seq_none.
    + cbn [filter app].
      rewrite ledger_get_indices_hash_of, truthy_hash, nth_error_remove.
      replace (Nat.ltb (List.length data - 1) i) with false
        by (symmetry; apply Nat.ltb_ge; lia).
      destruct (nth_error data (S (List.length data - 1))) eqn:E; [|reflexivity].
      exfalso. assert (nth_error data (S (List.length data - 1)) <> None) by congruence.
      apply nth_error_Some in H. lia.
    + intros k Hk. rewrite ledger_get_indices_hash_of, truthy_hash, nth_error_remove.
      destruct (Nat.ltb k i).
      * destruct (nth_error data k) eqn:E; [reflexivity|].
        apply nth_error_None in E. lia.
      * destruct (nth_error data (S k)) eqn:E; [reflexivity|].
        apply nth_error_None in E. lia.
  - intro j. rewrite filter_In, in_seq, andb_true_iff.
    rewrite !ledger_get_indices_hash_of, truthy_hash, strict_neq_hash, nth_error_remove.
    destruct (Nat.ltb_spec j i) as [Hlt|Hge].
    + split; [intros (_ & _ & H); exfalso; apply H; reflexivity|].
      intros [[H _] _]. lia.
    + split.
      * intros (Hj & _ & H). split; [lia|exact H].
      * intros [Hj H]. split; [lia|]. split; [|exact H].
        destruct (nth_error data j) eqn:E; [reflexivity|].
        apply nth_error_None in E. lia.
Qed.

Lemma removed_record_shifts_indices_witness :
  let data := [password_record; hours_record] in
  let remaining := firstn 0 data ++ skipn 1 data in
  let changes := compare_ledgers (indices_hash_of remaining) (indices_hash_of data) in
  newIndices changes = []
  /\ deletedIndices changes = [List.length data - 1]
  /\ (forall j, In j (changed changes) <->
                0 <= j < List.length data - 1
                /\ option_map calculateQuestionHash (nth_error data j)
                   <> option_map calculateQuestionHash (nth_error data (S j))).
Proof.
  apply (removed_record_shifts_indices [password_record; hours_record] 0).
  simpl. lia.
Defined.





(** ** Adding a record *)






(* ================================================================== *)
(** * The incremental update *)
(* ================================================================== *)

Lemma sort_numbers_insert_In (x k : nat) (l : list nat) :
  In k (sort_numbers_insert x l) <-> k = x \/ In k l.
Proof.
  induction l as [|y l IH]; simpl.
  - split; [intros [H|[]]|intros [H|[]]]; auto.
  - destruct (Nat.leb x y); simpl.
    + split; [intros [H|H]|intros [H|H]]; auto.
    + rewrite IH. split; [intros [H|[H|H]]|intros [H|[H|H]]]; auto.
Qed.

Lemma sort_numbers_In (k : nat) (l : list nat) :
  In k (sort_numbers l) <-> In k l.
Proof.
  induction l as [|x l IH]; simpl; [reflexivity|].
  rewrite sort_numbers_insert_In, IH. split; intros [H|H]; auto.
Qed.

Lemma delete_all_vectors (l : list nat) (st : State) :
  vectors (vectorDatabase (delete_all l st)) =
  filter (fun v => forallb (fun k => delete_keeps k v) l)
         (vectors (vectorDatabase st)).
Proof.
  revert st. induction l as [|i l IH]; intro st.
  - simpl. symmetry. apply filter_all. reflexivity.
  - rewrite delete_all_cons, IH.
    cbn [vectorDatabase ragApp set_ragApp deleteVectorsByIndex fst vectors].
    rewrite filter_filter. reflexivity.
Qed.

(** The embedding loop over a list of indices, when the embedding framework
    accepts the text of each. *)
Lemma for_each_embed_list (env : Env) (qd : list QARecord) (l : list nat) :
  forall st,
    questionsData st = Some qd ->
    (forall k, In k l ->
       exists q, nth_error qd k = Some q
                 /\ addLoader_chunks env (textWithMetadata k q) <> None) ->
    let run := for_each l (embed_question env) st in
    outcome_of run = Return tt
    /\ vectors (vectorDatabase (state_of run)) =
       vectors (vectorDatabase st) ++ flat_map (chunks_for env qd) l
    /\ events_of run = flat_map (call_for qd) l.
Proof.
  induction l as [|k l IH]; intros st Hst Hok; cbn zeta.
  - simpl. rewrite app_nil_r. auto.
  - simpl for_each. rewrite bind_run, embed_question_run, Hst. cbn [or_nil].
    destruct (Hok k (or_introl eq_refl)) as (q & Hq & Hacc).
    rewrite Hq. cbn zeta.
    destruct (addLoader_chunks env (textWithMetadata k q)) as [chunks|] eqn:Ec;
      [|congruence].
    cbn [outcome_of state_of events_of fst snd].
    match goal with
    | |- context [for_each l (embed_question env) ?s] => specialize (IH s)
    end.
    cbn zeta in IH. destruct IH as (Ho & Hv & He).
    + exact Hst.
    + intros k' Hk'. apply Hok. right. exact Hk'.
    + unfold outcome_of, state_of, events_of in *.
      split; [exact Ho|]. split.
      * rewrite Hv. cbn [flat_map]. unfold chunks_for at 2, chunks_of_record.
        rewrite Hq, Ec.
        cbn [vectorDatabase ragApp set_ragApp set_chunkMetadataMap insertChunks
             fst vectors or_nil].
        rewrite <- app_assoc. reflexivity.
      * rewrite He. cbn [flat_map]. unfold call_for at 2. rewrite Hq. reflexivity.
Qed.

Lemma calls_of_call_for (qd : list QARecord) (l : list nat) :
  calls_of (flat_map (call_for qd) l) = flat_map (call_for qd) l.
Proof.
  induction l as [|k l IH]; [reflexivity|].
  cbn [flat_map]. unfold calls_of in *. rewrite filter_app, IH.
  f_equal. unfold call_for. destruct (nth_error qd k); reflexivity.
Qed.

Lemma forallb_delete_keeps (l : list nat) (v : Chunk) :
  forallb (fun k => delete_keeps k v) l = false <->
  exists k, In k l /\ recoverable_index v k.
Proof.
  induction l as [|k l IH]; simpl.
  - split; [discriminate | intros (k & [] & _)].
  - rewrite andb_false_iff, IH, delete_keeps_payloadIndex, negb_false_iff,
      option_nat_eqb_Some, payloadIndex_recoverable.
    split.
    + intros [H | (k' & Hin & H)]; [exists k; auto | exists k'; auto].
    + intros (k' & [<- | Hin] & H); [left; exact H | right; exists k'; auto].
Qed.

(** X25. The incremental update.  A pass that loads a cache with chunks and
    finds changed, new or deleted indices, over an embedding framework that
    accepts the texts of the changed and the new records: it removes from the
    store exactly the chunks whose payload index is recoverable (from the tag
    of the text, or failing a tag from the metadata) and is a deleted or a
    changed index, and keeps every other cached chunk in its place; a chunk
    whose payload index cannot be recovered is kept, also when it was made of
    a record that has changed.  It then embeds the changed and the new
    indices, in ascending order, each once, with the keywords of the record
    sorted, and appends their chunks to the store. *)
Theorem incremental_update_replaces_chunks (env : Env) (st : State)
    (file : QuestionsFile) (data : list QARecord)
    (cache : CacheJson) (cached : list Chunk) (changes : Changes)
    (Hinit : isInitialized st = false)
    (Hfile : questions_json (files st) = Some file)
    (Hdata : qf_parsed file = Some data)
    (Hcache : vectors_cache_json (files st) = Some (CacheParsed cache))
    (Hcached : cache_vectors cache = Some cached)
    (Hsome : cached <> [])
    (Hchanges : changes =
                compare_ledgers (indices_hash_of data)
                  (or_nil (questions_indices_hash_json (files st))))
    (Hfound : allChanged changes <> [] \/ deletedIndices changes <> [])
    (Haccepts : forall k q, In k (allChanged changes) -> nth_error data k = Some q ->
                  addLoader_chunks env
                    (textWithMetadata k (keywords_sorted_in_place q)) <> None) :
  let run := initializeRAG env st in
  let sorted := map keywords_sorted_in_place data in
  let embedded := sort_numbers (changed changes ++ newIndices changes) in
  outcome_of run = Return tt
  /\ calls_of (events_of run) = flat_map (call_for sorted) embedded
  /\ exists kept removed,
       vectors (vectorDatabase (state_of run))
       = kept ++ flat_map (chunks_for env sorted) embedded
       /\ removes_exactly
            (fun v => exists k, In k (deletedIndices changes ++ changed changes)
                                /\ recoverable_index v k)
            cached kept removed
       /\ (forall v, In v cached -> unidentifiable v -> In v kept).
Proof.
  cbn zeta.
  assert (Hc : corpus_of (files st) = Some data)
    by (unfold corpus_of; rewrite Hfile; exact Hdata).
  assert (Hall : allChanged changes = changed changes ++ newIndices changes)
    by (rewrite Hchanges, compare_ledgers_closed; reflexivity).
  assert (Hkeys : forall k, In k (allChanged changes) -> k < List.length data).
  { intros k Hk. rewrite Hall in Hk. rewrite Hchanges, compare_ledgers_closed in Hk.
    cbn [changed newIndices] in Hk. apply in_app_or in Hk.
    destruct Hk as [Hk|Hk]; apply filter_In in Hk; destruct Hk as [Hk _];
      rewrite indices_hash_of_keys in Hk; apply in_seq in Hk; lia. }
  rewrite (initializeRAG_prologue env st data Hinit Hc).
  assert (Hcl : cache_loaded (files st) = true)
    by (unfold cache_loaded, loadFromFile; rewrite Hcache; reflexivity).
  assert (Hlv : vectors (loaded_store env (files st)) = cached)
    by (rewrite loaded_store_vectors, Hcache, Hcached; reflexivity).
  assert (Hhas : hasVectors (loaded_store env (files st)) = true).
  { unfold hasVectors. rewrite Hlv. destruct cached; [congruence|reflexivity]. }
  destruct (load_console_quiet env (files st)) as (_ & Hcalls & _).
  rewrite (reconcile_run env _ _ data) by exact Hc.
  cbn [vectorDatabase ragApp set_ragApp files set_questionsData].
  rewrite Hcl, Hhas, <- Hchanges. cbn [andb]. cbn zeta.
  replace (Nat.eqb (List.length (allChanged changes)) 0
           && Nat.eqb (List.length (deletedIndices changes)) 0) with false.
  2:{ destruct Hfound as [H|H].
      - destruct (allChanged changes); [congruence|reflexivity].
      - destruct (deletedIndices changes); [congruence|].
        simpl. rewrite andb_false_r. reflexivity. }
  rewrite (incremental_update_run env _ _ file data); [|exact Hfile|exact Hdata].
  cbn zeta.
  set (base := delete_all (changed changes)
                 (delete_all (deletedIndices changes)
                    (set_questionsData (Some (map keywords_sorted_in_place data))
                       (set_ragApp (Some (loaded_store env (files st)))
                                   (set_questionsData (Some data) st))))).
  assert (Hqd : questionsData base = Some (map keywords_sorted_in_place data)).
  { unfold base. rewrite (proj1 (proj2 (delete_all_frame _ _))).
    rewrite (proj1 (proj2 (delete_all_frame _ _))). reflexivity. }
  assert (Hbase : vectors (vectorDatabase base) =
                  filter (fun v => forallb (fun k => delete_keeps k v)
                                           (deletedIndices changes ++ changed changes))
                         cached).
  { unfold base. rewrite !delete_all_vectors.
    cbn [vectorDatabase ragApp set_ragApp set_questionsData].
    rewrite Hlv, filter_filter. apply filter_ext. intro v.
    rewrite forallb_app. reflexivity. }
  destruct (for_each_embed_list env (map keywords_sorted_in_place data)
              (sort_numbers (changed changes ++ newIndices changes)) base Hqd)
    as (Ho & Hv & He).
  { intros k Hk. apply (proj1 (sort_numbers_In _ _)) in Hk. rewrite <- Hall in Hk.
    pose proof (Hkeys k Hk) as Hlt.
    destruct (nth_error data k) as [q|] eqn:Eq;
      [|apply nth_error_None in Eq; lia].
    exists (keywords_sorted_in_place q). split.
    - rewrite nth_error_map, Eq. reflexivity.
    - apply (Haccepts k q Hk Eq). }
  rewrite Ho. unfold prepend, outcome_of, state_of, events_of. cbn [fst snd].
  split; [reflexivity|]. split.
  - unfold calls_of in *. rewrite filter_app, Hcalls. cbn [app].
    rewrite filter_app.
    match goal with
    | |- context [filter is_call (save_cache_events env ?n ++ save_hashes_events env)] =>
        fold (calls_of (save_cache_events env n ++ save_hashes_events env));
        rewrite (proj1 (save_events_quiet env n))
    end.
    unfold events_of in He. rewrite He.
    fold (calls_of (flat_map (call_for (map keywords_sorted_in_place data))
                      (sort_numbers (changed changes ++ newIndices changes)))).
    rewrite calls_of_call_for. apply app_nil_r.
  - exists (filter (fun v => forallb (fun k => delete_keeps k v)
                                     (deletedIndices changes ++ changed changes))
                   cached),
           (List.length cached
            - List.length (filter (fun v => forallb (fun k => delete_keeps k v)
                                     (deletedIndices changes ++ changed changes))
                                  cached)).
    split; [|split].
    + unfold state_of in Hv.
      change (vectorDatabase (set_isInitialized true ?s)) with (vectorDatabase s).
      unfold vectorDatabase.
      rewrite (proj1 (proj2 (proj2 (proj2 (hashes_saved_frame _ _ _ _))))).
      rewrite (proj1 (proj2 (proj2 (proj2 (proj2 (cache_saved_frame _ _)))))).
      change (ragApp (metadata_loaded ?s)) with (ragApp s).
      fold (vectorDatabase (snd (fst
              (for_each (sort_numbers (changed changes ++ newIndices changes))
                        (embed_question env) base)))).
      rewrite Hv, Hbase. reflexivity.
    + apply filter_removes_exactly. intro v. apply forallb_delete_keeps.
    + intros v Hin Hun. apply filter_In. split; [exact Hin|].
      destruct (forallb (fun k => delete_keeps k v)
                        (deletedIndices changes ++ changed changes)) eqn:E;
        [reflexivity|].
      apply forallb_delete_keeps in E. destruct E as (k & _ & Hr).
      exfalso. exact (Hun k Hr).
Qed.

Lemma incremental_update_replaces_chunks_witness :
  let cached :=
    [ {| pageContent := Some (textWithMetadata 0 hours_record);
         vector := [0; 1]%float; metadata := None |};
      {| pageContent := Some "on weekdays, and 10 to 2 on Saturdays.";
         vector := [1; 1]%float; metadata := None |};
      {| pageContent := Some (textWithMetadata 1 hours_record);
         vector := [1; 0]%float; metadata := None |} ] in
  let data := [password_record; hours_record] in
  let changes :=
    compare_ledgers (indices_hash_of data)
      (or_nil (questions_indices_hash_json (files edited_with_fragment_state))) in
  let run := initializeRAG one_chunk_env edited_with_fragment_state in
  let sorted := map keywords_sorted_in_place data in
  let embedded := sort_numbers (changed changes ++ newIndices changes) in
  (changed changes = [0] /\ newIndices changes = [] /\ deletedIndices changes = []
   /\ map pageContent (vectors (vectorDatabase (state_of run)))
      = [Some "on weekdays, and 10 to 2 on Saturdays.";
         Some (textWithMetadata 1 hours_record);
         Some (textWithMetadata 0 (keywords_sorted_in_place password_record))])
  /\ outcome_of run = Return tt
  /\ calls_of (events_of run) = flat_map (call_for sorted) embedded
  /\ exists kept removed,
       vectors (vectorDatabase (state_of run))
       = kept ++ flat_map (chunks_for one_chunk_env sorted) embedded
       /\ removes_exactly
            (fun v => exists k, In k (deletedIndices changes ++ changed changes)
                                /\ recoverable_index v k)
            cached kept removed
       /\ (forall v, In v cached -> unidentifiable v -> In v kept).
Proof.
  split; [repeat split; vm_compute; reflexivity|].
  apply (incremental_update_replaces_chunks one_chunk_env edited_with_fragment_state
           {| qf_data := "[...]"; qf_parsed := Some [password_record; hours_record] |}
           [password_record; hours_record]
           {| cache_vectors :=
                Some [ {| pageContent := Some (textWithMetadata 0 hours_record);
                          vector := [0; 1]%float; metadata := None |};
                       {| pageContent := Some "on weekdays, and 10 to 2 on Saturdays.";
                          vector := [1; 1]%float; metadata := None |};
                       {| pageContent := Some (textWithMetadata 1 hours_record);
                          vector := [1; 0]%float; metadata := None |} ];
              cache_dimensions := Some 2;
              cache_savedAt := "2024-06-01T00:00:00.000Z" |}
           [ {| pageContent := Some (textWithMetadata 0 hours_record);
                vector := [0; 1]%float; metadata := None |};
             {| pageContent := Some "on weekdays, and 10 to 2 on Saturdays.";
                vector := [1; 1]%float; metadata := None |};
             {| pageContent := Some (textWithMetadata 1 hours_record);
                vector := [1; 0]%float; metadata := None |} ]
           (compare_ledgers (indices_hash_of [password_record; hours_record])
              (or_nil (questions_indices_hash_json
                         (files edited_with_fragment_state))))).
  - reflexivity.
  - reflexivity.
  - reflexivity.
  - reflexivity.
  - reflexivity.
  - discriminate.
  - reflexivity.
  - left. vm_compute. discriminate.
  - intros k q _ _. simpl. discriminate.
Defined.

(* ================================================================== *)
(** * The search and the pass *)
(* ================================================================== *)

(** What follows the initialization in [searchSimilarQuestions] changes
    nothing and emits nothing. *)
Lemma search_tail_pure (env : Env) (userQuestion : string) (topK : nat) (st : State) :
  let run :=
    bind (search env userQuestion) (fun results =>
      bind get (fun st =>
        match questionsData st with
        | Some questionsData0 =>
            ret (similarQuestions_of questionsData0 (chunkMetadataMap st) results topK)
        | None =>
            if existsb (fun result =>
                          match result_payloadIndex result with
                          | Some _ => true
                          | None => false
                          end)
                       (firstn topK results)
            then throw error_TypeError
            else ret (similarQuestions_of [] (chunkMetadataMap st) results topK)
        end)) st in
  state_of run = st /\ events_of run = [].
Proof.
  cbn zeta. unfold search. rewrite bind_run, bind_get.
  destruct (ragApp st) as [db|]; [|simpl; auto].
  destruct (rag_search env db userQuestion) as [results|]; [|simpl; auto].
  cbn [outcome_of state_of events_of fst snd ret]. rewrite bind_get.
  destruct (questionsData st); [simpl; auto|].
  destruct (existsb _ (firstn topK results)); simpl; auto.
Qed.

(** X26. [searchSimilarQuestions] and the pass.  On an initialized module
    the search changes neither the module nor the files, and has no event: no
    file is written and the embedding framework is not called.  On a module
    that is not initialized the search first runs a pass, and the module, the
    files and the events after the search are those after the pass; when the
    pass throws, the search throws the same error. *)
Theorem searchSimilarQuestions_runs_one_pass (env : Env) (userQuestion : string)
    (topK : nat) (st : State) :
  let run := searchSimilarQuestions env userQuestion topK st in
  let pass := if isInitialized st then (Return tt, st, [])
              else initializeRAG env st in
  state_of run = state_of pass
  /\ events_of run = events_of pass
  /\ (forall e, outcome_of pass = Throw e -> outcome_of run = Throw e).
Proof.
  cbn zeta. unfold searchSimilarQuestions. rewrite bind_get.
  destruct (isInitialized st); cbn [negb].
  - rewrite bind_ret.
    destruct (search_tail_pure env userQuestion topK st) as [Hs He].
    split; [exact Hs|]. split; [exact He|]. discriminate.
  - rewrite bind_run.
    destruct (outcome_of (initializeRAG env st)) as [[]|e].
    + destruct (search_tail_pure env userQuestion topK
                  (state_of (initializeRAG env st))) as [Hs He].
      cbn [state_of events_of fst snd] in *.
      split; [exact Hs|]. split; [|discriminate].
      unfold events_of in *. cbn [snd]. rewrite He. apply app_nil_r.
    + split; [reflexivity|]. split; [reflexivity|].
      intros e' H. injection H as ->. reflexivity.
Qed.
Lemma for_each_embed_no_load_line (env : Env) (l : list nat) (st : State) :
  filter is_load_line (events_of (for_each l (embed_question env) st)) = [].
Proof.
  apply filter_none. intros e He.
  apply for_each_embed_texts in He. destruct He as (i & q & _ & _ & ->).
  reflexivity.
Qed.

Lemma save_events_no_load_line (env : Env) (count : nat) :
  filter is_load_line (save_hashes_events env) = []
  /\ filter is_load_line (save_cache_events env count ++ save_hashes_events env) = [].
Proof.
  unfold save_cache_events, save_hashes_events.
  destruct (writeFile_error env VECTORS_CACHE_FILE);
    destruct (writeFile_error env QUESTIONS_INDICES_HASH_FILE);
    destruct (writeFile_error env QUESTIONS_HASH_FILE); split; reflexivity.
Qed.

(** X27. The cache file is read once in a pass.  [init] keeps the chunks
    that [loadFromFile] put into the store before the application was built,
    so the branch of [initializeRAG] that loads the file again after the build
    is never taken: among the events of a pass over a readable corpus there is
    exactly one console line of [loadFromFile], the first event of the pass. *)
Theorem cache_is_read_once (env : Env) (st : State)
    (file : QuestionsFile) (data : list QARecord)
    (Hinit : isInitialized st = false)
    (Hfile : questions_json (files st) = Some file)
    (Hdata : qf_parsed file = Some data) :
  (forall db dims, vectors (init db dims) = vectors db)
  /\ filter is_load_line (events_of (initializeRAG env st)) = load_console (files st)
  /\ List.length (load_console (files st)) = 1
  /\ exists rest, events_of (initializeRAG env st) = load_console (files st) ++ rest
                  /\ filter is_load_line rest = [].
Proof.
  split; [intros db dims; apply init_vectors|].
  assert (Hload : filter is_load_line (load_console (files st)) = load_console (files st)
                  /\ List.length (load_console (files st)) = 1).
  { unfold load_console, loadFromFile.
    destruct (vectors_cache_json (files st)) as [[m|c]|]; simpl; auto. }
  destruct Hload as [Hload Hone].
  assert (Hrest : exists rest,
            events_of (initializeRAG env st) = load_console (files st) ++ rest
            /\ filter is_load_line rest = []).
  { destruct (initializeRAG_shape env st file data Hinit Hfile Hdata)
      as [(-> & _)|(l & base & md & _ & _ & _ & _ & _ & ->)].
    - eexists. split; [reflexivity|].
      apply (proj1 (save_events_no_load_line env 0)).
    - rewrite (proj2 (proj2 (prepend_parts _ _))).
      eexists. split; [reflexivity|].
      unfold embedding_result.
      destruct (outcome_of (for_each l (embed_question env) base)) as [[]|e];
        cbn [events_of snd].
      + rewrite filter_app.
        change (filter is_load_line (snd (for_each l (embed_question env) base)))
          with (filter is_load_line (events_of (for_each l (embed_question env) base))).
        rewrite for_each_embed_no_load_line.
        apply (proj2 (save_events_no_load_line env _)).
      + apply for_each_embed_no_load_line. }
  split; [|split; [exact Hone|exact Hrest]].
  destruct Hrest as (rest & -> & Hr). rewrite filter_app, Hload, Hr.
  apply app_nil_r.
Qed.

Lemma cache_is_read_once_witness :
  (forall db dims, vectors (init db dims) = vectors db)
  /\ filter is_load_line (events_of (initializeRAG one_chunk_env stale_dimension_state))
     = load_console (files stale_dimension_state)
  /\ List.length (load_console (files stale_dimension_state)) = 1
  /\ exists rest,
       events_of (initializeRAG one_chunk_env stale_dimension_state)
       = load_console (files stale_dimension_state) ++ rest
       /\ filter is_load_line rest = [].
Proof.
  apply (cache_is_read_once one_chunk_env stale_dimension_state
           {| qf_data := "[...]"; qf_parsed := Some [password_record] |}
           [password_record]); reflexivity.
Defined.

